(** * general-agent: the function dispatcher and its tools, embedded in Rocq

    Sources embedded here:
    - [backend/main.py]: [_create_function_call_response],
      [_handle_function_call_request], [audio_receiver], [load_config],
      [sts_connect] and [run_agent] with its [finally] block (the audio
      library, the connection and the files are parameters);
    - [backend/tools/calculator.py]: [_safe_eval_node], [calculate];
    - [backend/tools/function_mapper.py]: [FUNCTION_MAP];
    - [backend/tools/plaid_tool.py]: [_normalize_account_name],
      [_resolve_selected_accounts], [_init_plaid_client], [_parse_date],
      [_fetch_transactions] and [get_financial_info] up to the choice of its
      branch (the Plaid service and the file system are parameters).

    Python strings are modelled as [string], one character per code point
    below 256.  Python exceptions are modelled by the [outcome] type: a call
    either returns a value or raises an exception of some class with a
    message.  The functions of Python's standard library that the sources
    call ([str.strip], [ast.parse], [json.loads], [json.dumps], the numeric
    operators) are modelled next to the code that calls them. *)

From Stdlib Require Import ZArith List Bool Ascii String Lia.
From Stdlib Require Import Decimal DecimalString.
From Stdlib Require Import Floats.SpecFloat.
Import ListNotations.
Set Warnings "-register-all".
Local Open Scope string_scope.
Local Open Scope Z_scope.

(** ** Python strings *)

Module PyStr.

(** [str.isspace] on one code point below 256: the characters [str.strip]
    removes when called with no argument. *)
Definition is_space (c : ascii) : bool :=
  let n := nat_of_ascii c in
  ((9 <=? n) && (n <=? 13) || (28 <=? n) && (n <=? 32)
   || (n =? 133) || (n =? 160))%nat.

Fixpoint lstrip (s : string) : string :=
  match s with
  | String c r => if is_space c then lstrip r else s
  | EmptyString => EmptyString
  end.

(** Drops the trailing white space: a character is kept when something that
    is kept follows it, or when it is not white space. *)
Fixpoint rstrip (s : string) : string :=
  match s with
  | EmptyString => EmptyString
  | String c r =>
      match rstrip r with
      | EmptyString => if is_space c then EmptyString else String c EmptyString
      | r' => String c r'
      end
  end.

(** [s.strip()] *)
Definition strip (s : string) : string := rstrip (lstrip s).

(** [str.lower] on one code point below 256. *)
Definition lower_char (c : ascii) : ascii :=
  let n := nat_of_ascii c in
  if ((65 <=? n) && (n <=? 90)
      || (192 <=? n) && (n <=? 222) && negb (n =? 215))%nat
  then ascii_of_nat (n + 32) else c.

Fixpoint lower (s : string) : string :=
  match s with
  | EmptyString => EmptyString
  | String c r => String (lower_char c) (lower r)
  end.

(** [s.replace(old, new)] for a one-character [old]. *)
Fixpoint replace_char (old : ascii) (new : string) (s : string) : string :=
  match s with
  | EmptyString => EmptyString
  | String c r =>
      if Ascii.eqb c old then new ++ replace_char old new r
      else String c (replace_char old new r)
  end.

(** [sep.join(parts)] *)
Fixpoint join (sep : string) (parts : list string) : string :=
  match parts with
  | [] => ""
  | [p] => p
  | p :: rest => p ++ sep ++ join sep rest
  end.

(** Membership of a string in a tuple or list of strings ([s in (...)]). *)
Definition mem (s : string) (l : list string) : bool :=
  existsb (String.eqb s) l.

(** Every character of [s] is white space ([s] may be empty). *)
Fixpoint all_space (s : string) : bool :=
  match s with
  | EmptyString => true
  | String c r => is_space c && all_space r
  end.

End PyStr.

(** ** Exceptions and outcomes *)

(** The exception classes the embedded code can meet.  [BaseOnly] stands for
    the classes that derive from [BaseException] but not from [Exception]
    (such as [KeyboardInterrupt]); every other class derives from
    [Exception]. *)
Inductive exn_class : Type :=
  | TypeError | ValueError | SyntaxError | ZeroDivisionError | OverflowError
  | AttributeError | RuntimeError | ConnectionClosed | OtherException
  | BaseOnly.

Definition exn_class_eqb (a b : exn_class) : bool :=
  match a, b with
  | TypeError, TypeError | ValueError, ValueError | SyntaxError, SyntaxError
  | ZeroDivisionError, ZeroDivisionError | OverflowError, OverflowError
  | AttributeError, AttributeError | RuntimeError, RuntimeError
  | ConnectionClosed, ConnectionClosed | OtherException, OtherException
  | BaseOnly, BaseOnly => true
  | _, _ => false
  end.

(** [isinstance(e, Exception)]: what [except Exception] catches. *)
Definition is_Exception (c : exn_class) : bool :=
  negb (exn_class_eqb c BaseOnly).

Record exn : Type := Exn { exn_cls : exn_class; exn_msg : string }.

Inductive outcome (A : Type) : Type :=
  | Ret (a : A)
  | Raise (e : exn).
Arguments Ret {A} a.
Arguments Raise {A} e.

Definition bind {A B : Type} (m : outcome A) (k : A -> outcome B) : outcome B :=
  match m with
  | Ret a => k a
  | Raise e => Raise e
  end.

Notation "x <- m ;; k" := (bind m (fun x => k))
  (at level 61, m at next level, right associativity).

Definition raise {A : Type} (c : exn_class) (msg : string) : outcome A :=
  Raise (Exn c msg).

(** ** Python numbers

    [int] is [Z].  [float] is an IEEE 754 binary64 number, here the
    [spec_float] of the Standard Library at precision 53; [+ - * /], negation,
    absolute value, comparison, conversion from [int] and the remainder are
    computed exactly as IEEE 754 (and CPython) define them.  What CPython takes
    from the platform's C library is gathered in the [Platform] record. *)

Module PyNum.

Definition prec : Z := 53.
Definition emax : Z := 1024.

Definition pyfloat : Type := spec_float.

Definition fzero : pyfloat := S754_zero false.

Definition is_nan (f : pyfloat) : bool :=
  match f with S754_nan => true | _ => false end.

Definition is_inf (f : pyfloat) : bool :=
  match f with S754_infinity _ => true | _ => false end.

Definition fsign (f : pyfloat) : bool :=
  match f with
  | S754_zero s | S754_infinity s | S754_finite s _ _ => s
  | S754_nan => false
  end.

(** [f == 0.0] *)
Definition is_zero (f : pyfloat) : bool :=
  match f with S754_zero _ => true | _ => false end.

Definition fadd : pyfloat -> pyfloat -> pyfloat := SFadd prec emax.
Definition fsub : pyfloat -> pyfloat -> pyfloat := SFsub prec emax.
Definition fmul : pyfloat -> pyfloat -> pyfloat := SFmul prec emax.
Definition fdiv : pyfloat -> pyfloat -> pyfloat := SFdiv prec emax.
Definition fltb : pyfloat -> pyfloat -> bool := SFltb.

(** The nearest float of the integer [z] (ties to even); an infinity when
    [z] is out of range. *)
Definition round_int (z : Z) : pyfloat := binary_normalize prec emax z 0 false.

(** [float(z)] for an [int]. *)
Definition float_of_int (z : Z) : outcome pyfloat :=
  let f := round_int z in
  if is_inf f then raise OverflowError "int too large to convert to float"
  else Ret f.

(** The float nearest to [a / b] for integers [a] and [b <> 0]: the quotient
    is taken with at least 64 significant bits and a sticky last bit, then
    rounded once. *)
Definition round_quotient (a b : Z) : pyfloat :=
  let s := xorb (a <? 0) (b <? 0) in
  let A := Z.abs a in
  let B := Z.abs b in
  let k := Z.max 0 (Z.log2 B - Z.log2 A + 64) in
  let n := Z.shiftl A k in
  let q := n / B in
  let sticky := if (n mod B =? 0) then 0 else 1 in
  let m := 2 * q + sticky in
  binary_normalize prec emax (if s then - m else m) (- k - 1) s.

(** [a / b] on two [int]s ([long_true_divide]). *)
Definition int_true_divide (a b : Z) : outcome pyfloat :=
  if b =? 0 then raise ZeroDivisionError "division by zero"
  else
    let f := round_quotient a b in
    if is_inf f
    then raise OverflowError "integer division result too large for a float"
    else Ret f.

(** C's [fmod x y] for finite [x] and finite non-zero [y]: exact, with the
    sign of [x]. *)
Definition fmod_finite (sx : bool) (mx : positive) (ex : Z)
                       (my : positive) (ey : Z) : pyfloat :=
  let e := Z.min ex ey in
  let X := Z.shiftl (Zpos mx) (ex - e) in
  let Y := Z.shiftl (Zpos my) (ey - e) in
  let r := Z.rem X Y in
  binary_normalize prec emax (if sx then - r else r) e sx.

Definition fmod (x y : pyfloat) : pyfloat :=
  match x, y with
  | S754_nan, _ | _, S754_nan => S754_nan
  | S754_infinity _, _ => S754_nan
  | _, S754_zero _ => S754_nan
  | _, S754_infinity _ => x
  | S754_zero _, _ => x
  | S754_finite sx mx ex, S754_finite _ my ey => fmod_finite sx mx ex my ey
  end.

(** [x % y] on two [float]s ([float_rem]). *)
Definition float_rem (vx wx : pyfloat) : outcome pyfloat :=
  if is_zero wx then raise ZeroDivisionError "float modulo"
  else
    let m := fmod vx wx in
    if is_nan m then Ret m
    else if is_zero m then Ret (S754_zero (fsign wx))
    else if xorb (fsign wx) (fsign m) then Ret (fadd m wx)
    else Ret m.

End PyNum.

(** ** Numeric values and the operators of [operator]

    The values [_safe_eval_node] computes with: [bool] (a subclass of [int]),
    [int], [float], and [complex], which only [**] can produce (a negative
    base to a fractional power). *)

Inductive number : Type :=
  | NBool (b : bool)
  | NInt (z : Z)
  | NFloat (f : PyNum.pyfloat)
  | NComplex (re im : PyNum.pyfloat).

(** The binary operators of the [ast] module. *)
Inductive binop : Type :=
  | Add | Sub | Mult | Div | Mod | Pow
  | FloorDiv | MatMult | LShift | RShift | BitOr | BitXor | BitAnd.

(** The unary operators of the [ast] module. *)
Inductive unaryop : Type := UAdd | USub | Not | Invert.

(** What the platform's [pow] gives CPython's [float_pow]. *)
Inductive pow_result : Type :=
  | PowFloat (f : PyNum.pyfloat)
  | PowComplex (re im : PyNum.pyfloat)
  | PowZeroDivision
  | PowOverflow.

(** What complex arithmetic gives: a value, or one of the two errors it can
    raise. *)
Inductive complex_result : Type :=
  | CValue (re im : PyNum.pyfloat)
  | CZeroDivision
  | COverflow.

(** The numeric functions CPython takes from the C library, which IEEE 754
    does not fix: [pow], the arithmetic of [complex] (built on [hypot], [atan2]
    and the like) and the shortest decimal form of a float. *)
Record Platform : Type := {
  float_pow : PyNum.pyfloat -> PyNum.pyfloat -> pow_result;
  complex_arith : binop -> PyNum.pyfloat * PyNum.pyfloat ->
                  PyNum.pyfloat * PyNum.pyfloat -> complex_result;
  (** [abs] of a complex number; [None] is [OverflowError]. *)
  complex_abs : PyNum.pyfloat -> PyNum.pyfloat -> option PyNum.pyfloat;
  float_repr : PyNum.pyfloat -> string
}.

Module Operator.
Import PyNum.

Definition Z_of_bool (b : bool) : Z := if b then 1 else 0.

(** The operand of an arithmetic operator, after [bool] has been read as
    [int]. *)
Inductive operand : Type :=
  | OInt (z : Z)
  | OFloat (f : pyfloat)
  | OComplex (re im : pyfloat).

Definition operand_of (n : number) : operand :=
  match n with
  | NBool b => OInt (Z_of_bool b)
  | NInt z => OInt z
  | NFloat f => OFloat f
  | NComplex re im => OComplex re im
  end.

(** The conversion of a real operand to [float] for mixed arithmetic. *)
Definition to_float (o : operand) : outcome pyfloat :=
  match o with
  | OInt z => float_of_int z
  | OFloat f => Ret f
  | OComplex _ _ => raise TypeError "can't convert complex to float"
  end.

(** The conversion of an operand to [complex] for mixed arithmetic. *)
Definition to_complex (o : operand) : outcome (pyfloat * pyfloat) :=
  match o with
  | OComplex re im => Ret (re, im)
  | _ => f <- to_float o ;; Ret (f, fzero)
  end.

Definition is_complex (o : operand) : bool :=
  match o with OComplex _ _ => true | _ => false end.

Section WithPlatform.
Variable P : Platform.

Definition of_pow_result (r : pow_result) : outcome number :=
  match r with
  | PowFloat f => Ret (NFloat f)
  | PowComplex re im => Ret (NComplex re im)
  | PowZeroDivision =>
      raise ZeroDivisionError "0.0 cannot be raised to a negative power"
  | PowOverflow => raise OverflowError "(34, 'Numerical result out of range')"
  end.

Definition of_complex_result (r : complex_result) : outcome number :=
  match r with
  | CValue re im => Ret (NComplex re im)
  | CZeroDivision => raise ZeroDivisionError "complex division by zero"
  | COverflow => raise OverflowError "complex exponentiation"
  end.

(** An operator applied when one operand is [complex]: [%] is not defined
    on [complex]. *)
Definition complex_op (op : binop) (a b : operand) : outcome number :=
  match op with
  | Add | Sub | Mult | Div | Pow =>
      x <- to_complex a ;; y <- to_complex b ;;
      of_complex_result (complex_arith P op x y)
  | _ => raise TypeError "unsupported operand type(s)"
  end.

(** An operator applied to two [float]s. *)
Definition float_op (op : binop) (x y : pyfloat) : outcome number :=
  match op with
  | Add => Ret (NFloat (fadd x y))
  | Sub => Ret (NFloat (fsub x y))
  | Mult => Ret (NFloat (fmul x y))
  | Div =>
      if is_zero y then raise ZeroDivisionError "float division by zero"
      else Ret (NFloat (fdiv x y))
  | Mod => f <- float_rem x y ;; Ret (NFloat f)
  | Pow => of_pow_result (float_pow P x y)
  | _ => raise TypeError "unsupported operand type(s)"
  end.

(** An operator applied to two [int]s. *)
Definition int_op (op : binop) (a b : Z) : outcome number :=
  match op with
  | Add => Ret (NInt (a + b))
  | Sub => Ret (NInt (a - b))
  | Mult => Ret (NInt (a * b))
  | Div => f <- int_true_divide a b ;; Ret (NFloat f)
  | Mod =>
      if b =? 0 then raise ZeroDivisionError "integer modulo by zero"
      else Ret (NInt (a mod b))
  | Pow =>
      if b <? 0
      then x <- float_of_int a ;; y <- float_of_int b ;;
           of_pow_result (float_pow P x y)
      else Ret (NInt (a ^ b))
  | _ => raise TypeError "unsupported operand type(s)"
  end.

(** [op.add], [op.sub], [op.mul], [op.truediv], [op.mod] and [op.pow] on
    numbers, with Python's coercion of mixed operands. *)
Definition apply_binop (op : binop) (l r : number) : outcome number :=
  let a := operand_of l in
  let b := operand_of r in
  match a, b with
  | OInt x, OInt y => int_op op x y
  | _, _ =>
      if is_complex a || is_complex b then complex_op op a b
      else x <- to_float a ;; y <- to_float b ;; float_op op x y
  end.

(** [op.pos] and [op.neg]. *)
Definition apply_unaryop (op : unaryop) (v : number) : outcome number :=
  match op, operand_of v with
  | UAdd, OInt z => Ret (NInt z)
  | UAdd, OFloat f => Ret (NFloat f)
  | UAdd, OComplex re im => Ret (NComplex re im)
  | USub, OInt z => Ret (NInt (- z))
  | USub, OFloat f => Ret (NFloat (SFopp f))
  | USub, OComplex re im => Ret (NComplex (SFopp re) (SFopp im))
  | _, _ => raise TypeError "bad operand type for unary operator"
  end.

(** [abs(v) > bound] for an integer [bound] that a float holds exactly
    (here 10^6 and 12): the comparison of an [int] with the bound is exact, and
    a NaN is greater than nothing. *)
Definition abs_gt (v : number) (bound : Z) : outcome bool :=
  match operand_of v with
  | OInt z => Ret (bound <? Z.abs z)
  | OFloat f => Ret (fltb (round_int bound) (SFabs f))
  | OComplex re im =>
      match complex_abs P re im with
      | Some m => Ret (fltb (round_int bound) m)
      | None => raise OverflowError "absolute value too large"
      end
  end.

End WithPlatform.
End Operator.

(** ** Python values

    The values that cross the dispatcher: what [json.loads] produces, what a
    tool returns, what [json.dumps] takes.  A [dict] keeps its keys in
    insertion order. *)

Inductive pyval : Type :=
  | VNone
  | VBool (b : bool)
  | VInt (z : Z)
  | VFloat (f : PyNum.pyfloat)
  | VComplex (re im : PyNum.pyfloat)
  | VStr (s : string)
  | VList (items : list pyval)
  | VDict (items : list (string * pyval)).

Module PyVal.

(** [bool(v)]: Python's truth value. *)
Definition truthy (v : pyval) : bool :=
  match v with
  | VNone => false
  | VBool b => b
  | VInt z => negb (z =? 0)
  | VFloat f => negb (PyNum.is_zero f)
  | VComplex re im => negb (PyNum.is_zero re && PyNum.is_zero im)
  | VStr s => negb (String.eqb s "")
  | VList l => match l with [] => false | _ => true end
  | VDict d => match d with [] => false | _ => true end
  end.

(** [a or b] *)
Definition por (a b : pyval) : pyval := if truthy a then a else b.

(** [type(v).__name__] *)
Definition type_name (v : pyval) : string :=
  match v with
  | VNone => "NoneType"
  | VBool _ => "bool"
  | VInt _ => "int"
  | VFloat _ => "float"
  | VComplex _ _ => "complex"
  | VStr _ => "str"
  | VList _ => "list"
  | VDict _ => "dict"
  end.

(** [d.get(key)] on the items of a dict: the value stored under [key]. *)
Fixpoint lookup (key : string) (d : list (string * pyval)) : option pyval :=
  match d with
  | [] => None
  | (k, v) :: rest => if String.eqb k key then Some v else lookup key rest
  end.

(** [d[key] = v] on the items of a dict: an existing key keeps its place. *)
Fixpoint store (key : string) (v : pyval) (d : list (string * pyval))
  : list (string * pyval) :=
  match d with
  | [] => [(key, v)]
  | (k, w) :: rest =>
      if String.eqb k key then (k, v) :: rest else (k, w) :: store key v rest
  end.

(** [v.get(key)] with the default [None]; a value that is no dict has no
    [get]. *)
Definition get (v : pyval) (key : string) : outcome pyval :=
  match v with
  | VDict d => Ret (match lookup key d with Some x => x | None => VNone end)
  | _ => raise AttributeError
           ("'" ++ type_name v ++ "' object has no attribute 'get'")
  end.

(** [v.get(key, default)] *)
Definition get_default (v : pyval) (key : string) (default : pyval)
  : outcome pyval :=
  match v with
  | VDict d => Ret (match lookup key d with Some x => x | None => default end)
  | _ => raise AttributeError
           ("'" ++ type_name v ++ "' object has no attribute 'get'")
  end.

Definition of_number (n : number) : pyval :=
  match n with
  | NBool b => VBool b
  | NInt z => VInt z
  | NFloat f => VFloat f
  | NComplex re im => VComplex re im
  end.

End PyVal.

(** ** The [ast] module: expression trees *)

(** The value of an [ast.Constant]. *)
Inductive constant : Type :=
  | CNone
  | CBool (b : bool)
  | CInt (z : Z)
  | CFloat (f : PyNum.pyfloat)
  | CImag (f : PyNum.pyfloat)
  | CStr (s : string)
  | CBytes (s : string)
  | CEllipsis.

(** The nodes [ast.parse(..., mode="eval")] builds.  [Other] stands for every
    node class that is not listed (comparisons, lambdas, displays, ...), with
    its children. *)
Inductive node : Type :=
  | Expression (body : node)
  | Constant (value : constant)
  | UnaryOp (op : unaryop) (operand : node)
  | BinOp (left : node) (op : binop) (right : node)
  | Name (id : string)
  | Attribute (value : node) (attr : string)
  | Call (func : node) (args : list node)
  | Other (children : list node).

(** ** [ast.parse(expr, mode="eval")]: the tokenizer

    The standard library's parser is modelled on the fragment of Python's
    expression grammar that arithmetic needs: numeric literals in every base,
    names and the keyword constants, quoted strings, the unary and binary
    operators with Python's precedences, parentheses, attribute access, calls
    with positional arguments, comments and line joining.  Any other input is
    a [SyntaxError] here; CPython either rejects it as well or builds a node
    that [_safe_eval_node] rejects. *)

Module Tokenizer.

Inductive token : Type :=
  | TNumber (c : constant)
  | TName (s : string)
  | TString (s : string)
  | TOp (op : binop)
  | TTilde
  | TLPar
  | TRPar
  | TComma
  | TDot
  | TNewline.

Definition code (c : ascii) : nat := nat_of_ascii c.

Definition is_digit (c : ascii) : bool :=
  ((48 <=? code c) && (code c <=? 57))%nat.

Definition is_alpha (c : ascii) : bool :=
  ((65 <=? code c) && (code c <=? 90) || (97 <=? code c) && (code c <=? 122)
   || (code c =? 95))%nat.

Definition is_ident_char (c : ascii) : bool := is_alpha c || is_digit c.

(** The value of a digit in base 16 or less. *)
Definition digit_value (c : ascii) : option Z :=
  let n := code c in
  if is_digit c then Some (Z.of_nat (n - 48))
  else if ((97 <=? n) && (n <=? 102))%nat then Some (Z.of_nat (n - 87))
  else if ((65 <=? n) && (n <=? 70))%nat then Some (Z.of_nat (n - 55))
  else None.

Definition is_digit_in (base : Z) (c : ascii) : bool :=
  match digit_value c with
  | Some d => d <? base
  | None => false
  end.

Definition is_underscore (c : ascii) : bool := (code c =? 95)%nat.

(** The longest prefix of [s] whose characters satisfy [p], and the rest. *)
Fixpoint span (p : ascii -> bool) (s : string) : string * string :=
  match s with
  | String c r =>
      if p c then let '(a, b) := span p r in (String c a, b)
      else (EmptyString, s)
  | EmptyString => (EmptyString, EmptyString)
  end.

(** A run of digits of [base] in which single underscores may stand between
    two digits, and after the base prefix when [lead] is set: its value and
    its number of digits, or [None] when an underscore is misplaced or there
    is no digit. *)
Fixpoint digit_run (base : Z) (s : string) (prev_digit : bool)
                   (acc : Z) (n : Z) : option (Z * Z) :=
  match s with
  | EmptyString => if prev_digit then Some (acc, n) else None
  | String c r =>
      if is_underscore c then
        if prev_digit then digit_run base r false acc n else None
      else
        match digit_value c with
        | Some d => digit_run base r true (acc * base + d) (n + 1)
        | None => None
        end
  end.

Definition digits_of (base : Z) (lead : bool) (s : string) : option (Z * Z) :=
  match s with
  | EmptyString => None
  | String c _ =>
      if is_underscore c && negb lead then None else digit_run base s lead 0 0
  end.

(** The float nearest to [m * 10^e], as the literal [m e] denotes it. *)
Definition float_of_decimal (m e : Z) : PyNum.pyfloat :=
  if 0 <=? e then PyNum.round_int (m * 10 ^ e)
  else PyNum.round_quotient m (10 ^ (- e)).

Definition run_char (base : Z) (c : ascii) : bool :=
  is_digit_in base c || is_underscore c.

(** The exponent part [e[+-]digits] at the head of [s], when there is one:
    its value and the rest. *)
Definition lex_exponent (s : string) : option (Z * string) :=
  match s with
  | String c r =>
      if ((code c =? 101) || (code c =? 69))%nat then
        let '(neg, r1) :=
          match r with
          | String sg r' =>
              if (code sg =? 45)%nat then (true, r')
              else if (code sg =? 43)%nat then (false, r')
              else (false, r)
          | EmptyString => (false, r)
          end in
        let '(ds, rest) := span (run_char 10) r1 in
        match digits_of 10 false ds with
        | Some (v, _) => Some (if neg then - v else v, rest)
        | None => None
        end
      else None
  | EmptyString => None
  end.

(** A literal may not be followed at once by a name character. *)
Definition ends_literal (rest : string) : bool :=
  match rest with
  | String c _ => negb (is_ident_char c)
  | EmptyString => true
  end.

(** The imaginary suffix. *)
Definition lex_suffix (f : PyNum.pyfloat) (rest : string)
  : option (constant * string) :=
  match rest with
  | String c r =>
      if ((code c =? 106) || (code c =? 74))%nat then
        if ends_literal r then Some (CImag f, r) else None
      else if ends_literal rest then Some (CFloat f, rest) else None
  | EmptyString => Some (CFloat f, rest)
  end.

(** The largest number of digits of a decimal integer literal
    ([sys.get_int_max_str_digits()]). *)
Definition int_max_str_digits : Z := 4300.

(** A decimal integer literal of text [ip], value [iv] and [n] digits: it has
    no leading zero unless it is zero, and at most [int_max_str_digits]
    digits (zero may be written with any number of them). *)
Definition decimal_integer (ip : string) (iv n : Z) (rest : string)
  : option (constant * string) :=
  let leading_zero :=
    match ip with
    | String z (String _ _) => (code z =? 48)%nat && negb (iv =? 0)
    | _ => false
    end in
  if leading_zero || ((int_max_str_digits <? n) && negb (iv =? 0)) then None
  else Some (CInt iv, rest).

(** A decimal literal whose integer part [ip] (its text, possibly empty) has
    been read; [s] starts at what follows it. *)
Definition lex_decimal (ip : string) (s : string) : option (constant * string) :=
  let int_part :=
    match ip with
    | EmptyString => Some (0, 0)
    | _ => digits_of 10 false ip
    end in
  match int_part with
  | None => None
  | Some (iv, inn) =>
      let '(has_dot, after_dot) :=
        match s with
        | String c r => if (code c =? 46)%nat then (true, r) else (false, s)
        | EmptyString => (false, s)
        end in
      let '(fp, after_frac) :=
        if has_dot then span (run_char 10) after_dot else (EmptyString, s) in
      let frac :=
        match fp with
        | EmptyString => Some (0, 0)
        | _ => digits_of 10 false fp
        end in
      match frac with
      | None => None
      | Some (fv, fn) =>
          if String.eqb ip "" && String.eqb fp "" then None
          else
            let m := iv * 10 ^ fn + fv in
            match lex_exponent after_frac with
            | Some (e, rest) => lex_suffix (float_of_decimal m (e - fn)) rest
            | None =>
                if has_dot then lex_suffix (float_of_decimal m (- fn)) after_frac
                else
                  match after_frac with
                  | String c r =>
                      if ((code c =? 106) || (code c =? 74))%nat then
                        if ends_literal r
                        then Some (CImag (float_of_decimal m 0), r) else None
                      else if negb (ends_literal after_frac) then None
                      else decimal_integer ip iv inn after_frac
                  | EmptyString => decimal_integer ip iv inn after_frac
                  end
            end
      end
  end.

(** A literal in base 16, 8 or 2, after its two-character prefix. *)
Definition lex_based (base : Z) (s : string) : option (constant * string) :=
  let '(ds, rest) := span (run_char base) s in
  match digits_of base true ds with
  | Some (v, _) => if ends_literal rest then Some (CInt v, rest) else None
  | None => None
  end.

(** A numeric literal at the head of [s], which starts with a digit or with
    a dot followed by a digit. *)
Definition lex_number (s : string) : option (constant * string) :=
  match s with
  | String z (String x r) =>
      if (code z =? 48)%nat then
        if ((code x =? 120) || (code x =? 88))%nat then lex_based 16 r
        else if ((code x =? 111) || (code x =? 79))%nat then lex_based 8 r
        else if ((code x =? 98) || (code x =? 66))%nat then lex_based 2 r
        else let '(ip, rest) := span (run_char 10) s in lex_decimal ip rest
      else let '(ip, rest) := span (run_char 10) s in lex_decimal ip rest
  | _ => let '(ip, rest) := span (run_char 10) s in lex_decimal ip rest
  end.

(** The text of a quoted string up to its closing [quote], and what follows;
    a backslash keeps the next character, a line end inside the string is an
    error. *)
Fixpoint lex_string (quote : ascii) (s : string) : option (string * string) :=
  match s with
  | EmptyString => None
  | String c r =>
      if Ascii.eqb c quote then Some (EmptyString, r)
      else if ((code c =? 10) || (code c =? 13))%nat then None
      else if (code c =? 92)%nat then
        match r with
        | String d r' =>
            match lex_string quote r' with
            | Some (body, rest) => Some (String c (String d body), rest)
            | None => None
            end
        | EmptyString => None
        end
      else
        match lex_string quote r with
        | Some (body, rest) => Some (String c body, rest)
        | None => None
        end
  end.

(** The rest of [s] from its first line end on. *)
Fixpoint skip_comment (s : string) : string :=
  match s with
  | String c r =>
      if ((code c =? 10) || (code c =? 13))%nat then s else skip_comment r
  | EmptyString => EmptyString
  end.

(** The deepest nesting of brackets the tokenizer accepts ([MAXLEVEL]): an
    opening parenthesis inside that many open ones is refused. *)
Definition max_level : nat := 200.

(** The operator at the head of [s], a character [c] then [r], and what
    follows it.  An operator followed by [=] is an assignment or a comparison,
    which is outside the fragment. *)
Definition lex_operator (c : ascii) (r : string) : option (token * string) :=
  let two (d : nat) :=
    match r with
    | String x r' => if (code x =? d)%nat then Some r' else None
    | EmptyString => None
    end in
  let single (t : token) (rest : string) :=
    match rest with
    | String x _ => if (code x =? 61)%nat then None else Some (t, rest)
    | EmptyString => Some (t, rest)
    end in
  match code c with
  | 42%nat => match two 42%nat with
              | Some r' => single (TOp Pow) r'
              | None => single (TOp Mult) r
              end
  | 47%nat => match two 47%nat with
              | Some r' => single (TOp FloorDiv) r'
              | None => single (TOp Div) r
              end
  | 60%nat => match two 60%nat with
              | Some r' => single (TOp LShift) r'
              | None => None
              end
  | 62%nat => match two 62%nat with
              | Some r' => single (TOp RShift) r'
              | None => None
              end
  | 37%nat => single (TOp Mod) r
  | 43%nat => single (TOp Add) r
  | 45%nat => single (TOp Sub) r
  | 64%nat => single (TOp MatMult) r
  | 38%nat => single (TOp BitAnd) r
  | 124%nat => single (TOp BitOr) r
  | 94%nat => single (TOp BitXor) r
  | 126%nat => Some (TTilde, r)
  | 44%nat => Some (TComma, r)
  | _ => None
  end.

(** The keyword constants. *)
Definition name_token (s : string) : token :=
  if String.eqb s "True" then TNumber (CBool true)
  else if String.eqb s "False" then TNumber (CBool false)
  else if String.eqb s "None" then TNumber CNone
  else TName s.

(** The tokens of [s].  [level] is the nesting of parentheses; [bol] says
    that no token of the current line has been read yet, [ind] that the line
    started with white space (an indented line is an error outside
    parentheses).  [fuel] bounds the number of steps by the length of the
    input. *)
Fixpoint tokens (fuel : nat) (level : nat) (bol ind : bool) (s : string)
  : option (list token) :=
  match fuel with
  | O => None
  | S fuel' =>
      match s with
      | EmptyString => if (level =? 0)%nat then Some [] else None
      | String c r =>
          let emit (t : token) (lvl : nat) (rest : string) :=
            if bol && ind && (level =? 0)%nat then None
            else
              match tokens fuel' lvl false false rest with
              | Some ts => Some (t :: ts)
              | None => None
              end in
          let n := code c in
          if ((n =? 32) || (n =? 9) || (n =? 12))%nat then
            tokens fuel' level bol (bol || ind) r
          else if ((n =? 10) || (n =? 13))%nat then
            if negb (level =? 0)%nat then tokens fuel' level bol ind r
            else if bol then tokens fuel' level true false r
            else
              match tokens fuel' level true false r with
              | Some ts => Some (TNewline :: ts)
              | None => None
              end
          else if (n =? 35)%nat then tokens fuel' level bol ind (skip_comment r)
          else if (n =? 92)%nat then
            match r with
            | String d r' =>
                if (code d =? 10)%nat then tokens fuel' level bol ind r'
                else None
            | EmptyString => None
            end
          else if (n =? 40)%nat then
            if (max_level <=? level)%nat then None
            else emit TLPar (S level) r
          else if (n =? 41)%nat then
            match level with
            | O => None
            | S l => emit TRPar l r
            end
          else if is_digit c then
            match lex_number s with
            | Some (k, rest) => emit (TNumber k) level rest
            | None => None
            end
          else if (n =? 46)%nat then
            match r with
            | String d r' =>
                if is_digit d then
                  match lex_number s with
                  | Some (k, rest) => emit (TNumber k) level rest
                  | None => None
                  end
                else
                  match r with
                  | String d1 (String d2 r2) =>
                      if ((code d1 =? 46) && (code d2 =? 46))%nat
                      then emit (TNumber CEllipsis) level r2
                      else emit TDot level r
                  | _ => emit TDot level r
                  end
            | EmptyString => emit TDot level r
            end
          else if is_alpha c then
            let '(w, rest) := span is_ident_char s in
            emit (name_token w) level rest
          else if ((n =? 39) || (n =? 34))%nat then
            match lex_string c r with
            | Some (body, rest) => emit (TString body) level rest
            | None => None
            end
          else
            match lex_operator c r with
            | Some (t, rest) => emit t level rest
            | None => None
            end
      end
  end.

(** The line ends of a source text are read the same: a carriage return,
    with the line feed that follows it if there is one, is a line feed. *)
Fixpoint translate_newlines (s : string) : string :=
  match s with
  | EmptyString => EmptyString
  | String c r =>
      if (code c =? 13)%nat then
        match r with
        | String d r' =>
            if (code d =? 10)%nat then String d (translate_newlines r')
            else String (ascii_of_nat 10) (translate_newlines r)
        | EmptyString => String (ascii_of_nat 10) EmptyString
        end
      else String c (translate_newlines r)
  end.

(** The tokens of a source text. *)
Definition tokenize (s : string) : option (list token) :=
  let text := translate_newlines s in
  tokens (S (String.length text)) 0 true false text.

End Tokenizer.

(** ** [ast.parse(expr, mode="eval")]: the parser *)

Module Parser.
Import Tokenizer.

(** The grammar level at which a binary operator is parsed, from
    [bitwise_or] (0) to [term] (5); [**] belongs to [power]. *)
Definition binop_level (op : binop) : nat :=
  match op with
  | BitOr => 0
  | BitXor => 1
  | BitAnd => 2
  | LShift | RShift => 3
  | Add | Sub => 4
  | Mult | Div | FloorDiv | Mod | MatMult => 5
  | Pow => 7
  end.

(** Adjacent string literals are one constant. *)
Fixpoint strings (acc : string) (ts : list token) : string * list token :=
  match ts with
  | TString s :: rest => strings (acc ++ s) rest
  | _ => (acc, ts)
  end.

(** [parse_level fuel lvl ts] reads from [ts] an expression of grammar level
    [lvl]: 0 to 5 are the left-associative binary operators, 6 is [factor]
    (the unary operators), 7 is [power], 8 is [primary] (an atom and its
    trailers).  [parse_loop] continues a left-associative chain,
    [parse_trailers] reads attribute accesses and calls, [parse_args] the
    arguments of a call up to its closing parenthesis. *)
Fixpoint parse_level (fuel : nat) (lvl : nat) (ts : list token)
  : option (node * list token) :=
  match fuel with
  | O => None
  | S fuel' =>
      match lvl with
      | 6%nat =>
          match ts with
          | TOp Add :: r =>
              match parse_level fuel' 6 r with
              | Some (e, r') => Some (UnaryOp UAdd e, r')
              | None => None
              end
          | TOp Sub :: r =>
              match parse_level fuel' 6 r with
              | Some (e, r') => Some (UnaryOp USub e, r')
              | None => None
              end
          | TTilde :: r =>
              match parse_level fuel' 6 r with
              | Some (e, r') => Some (UnaryOp Invert e, r')
              | None => None
              end
          | _ => parse_level fuel' 7 ts
          end
      | 7%nat =>
          match parse_level fuel' 8 ts with
          | Some (b, TOp Pow :: r) =>
              match parse_level fuel' 6 r with
              | Some (e, r') => Some (BinOp b Pow e, r')
              | None => None
              end
          | other => other
          end
      | 8%nat =>
          match ts with
          | TNumber c :: r => parse_trailers fuel' (Constant c) r
          | TName s :: r => parse_trailers fuel' (Name s) r
          | TString s :: r =>
              let '(text, r') := strings s r in
              parse_trailers fuel' (Constant (CStr text)) r'
          | TLPar :: r =>
              match parse_level fuel' 0 r with
              | Some (e, TRPar :: r') => parse_trailers fuel' e r'
              | _ => None
              end
          | _ => None
          end
      | _ =>
          match parse_level fuel' (S lvl) ts with
          | Some (lhs, r) => parse_loop fuel' lvl lhs r
          | None => None
          end
      end
  end

with parse_loop (fuel : nat) (lvl : nat) (lhs : node) (ts : list token)
  : option (node * list token) :=
  match fuel with
  | O => None
  | S fuel' =>
      match ts with
      | TOp op :: r =>
          if (binop_level op =? lvl)%nat then
            match parse_level fuel' (S lvl) r with
            | Some (rhs, r') => parse_loop fuel' lvl (BinOp lhs op rhs) r'
            | None => None
            end
          else Some (lhs, ts)
      | _ => Some (lhs, ts)
      end
  end

with parse_trailers (fuel : nat) (e : node) (ts : list token)
  : option (node * list token) :=
  match fuel with
  | O => None
  | S fuel' =>
      match ts with
      | TDot :: TName a :: r => parse_trailers fuel' (Attribute e a) r
      | TDot :: _ => None
      | TLPar :: r =>
          match parse_args fuel' r with
          | Some (args, r') => parse_trailers fuel' (Call e args) r'
          | None => None
          end
      | _ => Some (e, ts)
      end
  end

with parse_args (fuel : nat) (ts : list token)
  : option (list node * list token) :=
  match fuel with
  | O => None
  | S fuel' =>
      match ts with
      | TRPar :: r => Some ([], r)
      | _ =>
          match parse_level fuel' 0 ts with
          | Some (a, TRPar :: r) => Some ([a], r)
          | Some (a, TComma :: r) =>
              match parse_args fuel' r with
              | Some (rest, r') => Some (a :: rest, r')
              | None => None
              end
          | _ => None
          end
      end
  end.

Definition all_newlines (ts : list token) : bool :=
  forallb (fun t => match t with TNewline => true | _ => false end) ts.

(** [ast.parse(source, mode="eval")]: an [Expression] or a [SyntaxError]. *)
Definition ast_parse (source : string) : outcome node :=
  match tokenize source with
  | None => raise SyntaxError "invalid syntax (<unknown>, line 1)"
  | Some ts =>
      match parse_level (12 * S (List.length ts)) 0 ts with
      | Some (e, rest) =>
          if all_newlines rest then Ret (Expression e)
          else raise SyntaxError "invalid syntax (<unknown>, line 1)"
      | None => raise SyntaxError "invalid syntax (<unknown>, line 1)"
      end
  end.

End Parser.

(** ** [try: ... except Exception as e: ...] *)

Definition try_except_Exception {A : Type} (body : outcome A)
                                (handler : exn -> outcome A) : outcome A :=
  match body with
  | Ret a => Ret a
  | Raise e => if is_Exception (exn_cls e) then handler e else Raise e
  end.

(** [try: ... except TypeError: ...] *)
Definition try_except_TypeError {A : Type} (body : outcome A)
                                (handler : outcome A) : outcome A :=
  match body with
  | Ret a => Ret a
  | Raise e => if exn_class_eqb (exn_cls e) TypeError then handler else Raise e
  end.

(** ** [backend/tools/calculator.py] *)

Module Calculator.

(** [type(op) in _ALLOWED_BIN_OPS] *)
Definition _ALLOWED_BIN_OPS (op : binop) : bool :=
  match op with
  | Add | Sub | Mult | Div | Mod | Pow => true
  | _ => false
  end.

(** [type(op) in _ALLOWED_UNARY_OPS] *)
Definition _ALLOWED_UNARY_OPS (op : unaryop) : bool :=
  match op with
  | UAdd | USub => true
  | _ => false
  end.

(** [isinstance(value, (int, float))], with the value as a number: [bool]
    is a subclass of [int]. *)
Definition int_or_float (c : constant) : option number :=
  match c with
  | CBool b => Some (NBool b)
  | CInt z => Some (NInt z)
  | CFloat f => Some (NFloat f)
  | _ => None
  end.

Section WithPlatform.
Variable P : Platform.

(** The guard on exponentiation:
    [abs(left) > 1e6 or abs(right) > 12]. *)
Definition pow_guard (l r : number) : outcome bool :=
  big_base <- Operator.abs_gt P l 1000000 ;;
  if big_base then Ret true else Operator.abs_gt P r 12.

Fixpoint _safe_eval_node (n : node) (depth : nat) : outcome number :=
  if (20 <? depth)%nat then raise ValueError "Expression too complex"
  else
    match n with
    | Expression body => _safe_eval_node body (depth + 1)
    | Constant value =>
        match int_or_float value with
        | Some v => Ret v
        | None => raise ValueError "Only numbers are allowed"
        end
    | UnaryOp op operand =>
        if _ALLOWED_UNARY_OPS op then
          v <- _safe_eval_node operand (depth + 1) ;;
          Operator.apply_unaryop op v
        else raise ValueError "Unsupported expression"
    | BinOp lhs op rhs =>
        if _ALLOWED_BIN_OPS op then
          l <- _safe_eval_node lhs (depth + 1) ;;
          r <- _safe_eval_node rhs (depth + 1) ;;
          match op with
          | Pow =>
              too_large <- pow_guard l r ;;
              if too_large then raise ValueError "Exponent too large"
              else Operator.apply_binop P op l r
          | _ => Operator.apply_binop P op l r
          end
        else raise ValueError "Unsupported expression"
    | _ => raise ValueError "Unsupported expression"
    end.

(** [if isinstance(result, float) and result == 0: result = 0.0] *)
Definition normalize_zero (result : number) : number :=
  match result with
  | NFloat f => if PyNum.is_zero f then NFloat PyNum.fzero else result
  | _ => result
  end.

(** [(expression or "").strip()]: only a [str] has [strip]. *)
Definition stripped (expression : pyval) : outcome string :=
  match PyVal.por expression (VStr "") with
  | VStr s => Ret (PyStr.strip s)
  | v => raise AttributeError
           ("'" ++ PyVal.type_name v ++ "' object has no attribute 'strip'")
  end.

Definition calculate (expression : pyval) : outcome pyval :=
  try_except_Exception
    (expr <- stripped expression ;;
     if String.eqb expr "" then Ret (VDict [("error", VStr "Empty expression")])
     else
       let expr := PyStr.replace_char "^"%char "**" expr in
       tree <- Parser.ast_parse expr ;;
       result <- _safe_eval_node tree 0 ;;
       Ret (VDict [("result", PyVal.of_number (normalize_zero result))]))
    (fun e => Ret (VDict [("error", VStr (exn_msg e))])).

End WithPlatform.
End Calculator.

(** ** The [json] module

    [json.dumps] with its default settings ([ensure_ascii], the separators
    [", "] and [": "]) and [json.loads] in its default strict mode.  A [\u]
    escape above [00ff] denotes a character outside the strings modelled here
    and is refused by [loads]. *)

Module Json.
Import Tokenizer.

Definition str_of_int (z : Z) : string := NilZero.string_of_int (Z.to_int z).

Definition hex_digit (n : nat) : ascii :=
  if (n <? 10)%nat then ascii_of_nat (48 + n) else ascii_of_nat (87 + n).

Definition chr (n : nat) : string := String (ascii_of_nat n) EmptyString.

(** The escape of one character of a string, as [ensure_ascii] writes it. *)
Definition escape_char (c : ascii) : string :=
  let n := code c in
  if (n =? 34)%nat then chr 92 ++ chr 34
  else if (n =? 92)%nat then chr 92 ++ chr 92
  else if (n =? 10)%nat then chr 92 ++ "n"
  else if (n =? 13)%nat then chr 92 ++ "r"
  else if (n =? 9)%nat then chr 92 ++ "t"
  else if (n =? 8)%nat then chr 92 ++ "b"
  else if (n =? 12)%nat then chr 92 ++ "f"
  else if ((32 <=? n) && (n <=? 126))%nat then String c EmptyString
  else chr 92 ++ "u00"
       ++ String (hex_digit (n / 16)) (String (hex_digit (n mod 16)) EmptyString).

Fixpoint escape (s : string) : string :=
  match s with
  | EmptyString => EmptyString
  | String c r => escape_char c ++ escape r
  end.

(** A string as a JSON string literal. *)
Definition quote (s : string) : string := chr 34 ++ escape s ++ chr 34.

(** The number of decimal digits of [z]. *)
Definition decimal_digits (z : Z) : Z :=
  Z.of_nat (String.length (str_of_int (Z.abs z))).

(** The outcomes of a list of computations, in order: the first exception
    stops the list. *)
Fixpoint sequence {A : Type} (l : list (outcome A)) : outcome (list A) :=
  match l with
  | [] => Ret []
  | m :: rest => a <- m ;; b <- sequence rest ;; Ret (a :: b)
  end.

(** A member of an object: its key, a colon, its value. *)
Definition member (key : string) (value : outcome string) : outcome string :=
  a <- value ;; Ret (quote key ++ ": " ++ a).

Section WithPlatform.
Variable P : Platform.

Definition dumps_float (f : PyNum.pyfloat) : string :=
  match f with
  | S754_nan => "NaN"
  | S754_infinity false => "Infinity"
  | S754_infinity true => "-Infinity"
  | _ => float_repr P f
  end.

(** [json.dumps(v)]: the items of a list or a dict are written in order, and
    the first one that cannot be written raises. *)
Fixpoint dumps (v : pyval) : outcome string :=
  match v with
  | VNone => Ret "null"
  | VBool true => Ret "true"
  | VBool false => Ret "false"
  | VInt z =>
      if int_max_str_digits <? decimal_digits z
      then raise ValueError
             ("Exceeds the limit (4300 digits) for integer string conversion; "
              ++ "use sys.set_int_max_str_digits() to increase the limit")
      else Ret (str_of_int z)
  | VFloat f => Ret (dumps_float f)
  | VComplex _ _ =>
      raise TypeError "Object of type complex is not JSON serializable"
  | VStr s => Ret (quote s)
  | VList items =>
      parts <- sequence (map dumps items) ;;
      Ret ("[" ++ PyStr.join ", " parts ++ "]")
  | VDict items =>
      parts <- sequence
                 (map (fun kv => member (fst kv) (dumps (snd kv))) items) ;;
      Ret ("{" ++ PyStr.join ", " parts ++ "}")
  end.

End WithPlatform.

(** White space between JSON tokens. *)
Definition is_ws (c : ascii) : bool :=
  let n := code c in ((n =? 32) || (n =? 9) || (n =? 10) || (n =? 13))%nat.

Fixpoint skip_ws (s : string) : string :=
  match s with
  | String c r => if is_ws c then skip_ws r else s
  | EmptyString => EmptyString
  end.

(** The four hexadecimal digits of a [\u] escape, as a code point below 256. *)
Definition hex4 (s : string) : option (ascii * string) :=
  match s with
  | String a (String b (String c (String d r))) =>
      match digit_value a, digit_value b, digit_value c, digit_value d with
      | Some 0, Some 0, Some x, Some y =>
          Some (ascii_of_nat (Z.to_nat (16 * x + y)), r)
      | _, _, _, _ => None
      end
  | _ => None
  end.

(** The body of a JSON string, after its opening quote: the decoded text
    and what follows the closing quote. *)
Fixpoint parse_string (fuel : nat) (s : string) : option (string * string) :=
  match fuel with
  | O => None
  | S fuel' =>
      match s with
      | EmptyString => None
      | String c r =>
          let n := code c in
          if (n =? 34)%nat then Some (EmptyString, r)
          else if (n <? 32)%nat then None
          else if (n =? 92)%nat then
            match r with
            | String e r' =>
                let m := code e in
                let plain (k : nat) :=
                  match parse_string fuel' r' with
                  | Some (body, rest) => Some (String (ascii_of_nat k) body, rest)
                  | None => None
                  end in
                if (m =? 34)%nat then plain 34%nat
                else if (m =? 92)%nat then plain 92%nat
                else if (m =? 47)%nat then plain 47%nat
                else if (m =? 98)%nat then plain 8%nat
                else if (m =? 102)%nat then plain 12%nat
                else if (m =? 110)%nat then plain 10%nat
                else if (m =? 114)%nat then plain 13%nat
                else if (m =? 116)%nat then plain 9%nat
                else if (m =? 117)%nat then
                  match hex4 r' with
                  | Some (ch, r'') =>
                      match parse_string fuel' r'' with
                      | Some (body, rest) => Some (String ch body, rest)
                      | None => None
                      end
                  | None => None
                  end
                else None
            | EmptyString => None
            end
          else
            match parse_string fuel' r with
            | Some (body, rest) => Some (String c body, rest)
            | None => None
            end
      end
  end.

(** [prefix] stripped from the head of [s]. *)
Fixpoint strip_prefix (prefix s : string) : option string :=
  match prefix, s with
  | EmptyString, _ => Some s
  | String a p, String b r => if Ascii.eqb a b then strip_prefix p r else None
  | _, EmptyString => None
  end.

(** A JSON number at the head of [s], which starts with a digit; [neg] says
    that a minus sign came before it. *)
Definition parse_number (neg : bool) (s : string) : option (pyval * string) :=
  let '(ip, r1) := span is_digit s in
  let leading_zero :=
    match ip with
    | String z (String _ _) => (code z =? 48)%nat
    | _ => false
    end in
  (* after a leading zero the integer part ends: "01" is 0 then extra data *)
  let '(ip, r1) :=
    if leading_zero
    then ("0", match s with String _ r => r | EmptyString => s end)
    else (ip, r1) in
  match digits_of 10 false ip with
  | None => None
  | Some (iv, inn) =>
      let '(fp, r2) :=
        match r1 with
        | String c r =>
            if (code c =? 46)%nat then
              let '(ds, rest) := span is_digit r in
              match ds with
              | EmptyString => (EmptyString, r1)
              | _ => (ds, rest)
              end
            else (EmptyString, r1)
        | EmptyString => (EmptyString, r1)
        end in
      let '(fv, fn) :=
        match digits_of 10 false fp with
        | Some x => x
        | None => (0, 0)
        end in
      let exponent :=
        match r2 with
        | String c r =>
            if ((code c =? 101) || (code c =? 69))%nat then
              let '(sg, r') :=
                match r with
                | String x r' =>
                    if (code x =? 45)%nat then (true, r')
                    else if (code x =? 43)%nat then (false, r')
                    else (false, r)
                | EmptyString => (false, r)
                end in
              let '(ds, rest) := span is_digit r' in
              match digits_of 10 false ds with
              | Some (e, _) => Some (if sg then - e else e, rest)
              | None => None
              end
            else None
        | EmptyString => None
        end in
      let m := iv * 10 ^ fn + fv in
      let signed (f : PyNum.pyfloat) := if neg then SFopp f else f in
      match exponent with
      | Some (e, rest) => Some (VFloat (signed (float_of_decimal m (e - fn))), rest)
      | None =>
          match fp with
          | EmptyString =>
              if int_max_str_digits <? inn then None
              else Some (VInt (if neg then - iv else iv), r2)
          | _ => Some (VFloat (signed (float_of_decimal m (- fn))), r2)
          end
      end
  end.

Definition nan_or_infinity (s : string) : option (pyval * string) :=
  match strip_prefix "NaN" s with
  | Some r => Some (VFloat S754_nan, r)
  | None =>
      match strip_prefix "Infinity" s with
      | Some r => Some (VFloat (S754_infinity false), r)
      | None =>
          match strip_prefix "-Infinity" s with
          | Some r => Some (VFloat (S754_infinity true), r)
          | None => None
          end
      end
  end.

(** The members of an object whose first member is [key: v] and whose
    other members are [ms]: a key that comes again keeps its first place and
    takes its last value, as in [dict(pairs)]. *)
Definition add_member (key : string) (v : pyval) (ms : list (string * pyval))
  : list (string * pyval) :=
  (key, match PyVal.lookup key ms with Some w => w | None => v end)
  :: filter (fun kv => negb (String.eqb (fst kv) key)) ms.

(** [parse_value fuel s] reads one JSON value at the head of [s];
    [parse_elements] reads the rest of an array after its first bracket or a
    comma, [parse_members] the rest of an object. *)
Fixpoint parse_value (fuel : nat) (s : string) : option (pyval * string) :=
  match fuel with
  | O => None
  | S fuel' =>
      match s with
      | EmptyString => None
      | String c r =>
          let n := code c in
          if (n =? 34)%nat then
            match parse_string (S (String.length r)) r with
            | Some (text, rest) => Some (VStr text, rest)
            | None => None
            end
          else if (n =? 123)%nat then
            match skip_ws r with
            | String d r' =>
                if (code d =? 125)%nat then Some (VDict [], r')
                else
                  match parse_members fuel' (skip_ws r) with
                  | Some (items, rest) => Some (VDict items, rest)
                  | None => None
                  end
            | EmptyString => None
            end
          else if (n =? 91)%nat then
            match skip_ws r with
            | String d r' =>
                if (code d =? 93)%nat then Some (VList [], r')
                else
                  match parse_elements fuel' (skip_ws r) with
                  | Some (items, rest) => Some (VList items, rest)
                  | None => None
                  end
            | EmptyString => None
            end
          else if is_digit c then parse_number false s
          else if (n =? 45)%nat then
            match r with
            | String d _ =>
                if is_digit d then parse_number true r else nan_or_infinity s
            | EmptyString => None
            end
          else
            match strip_prefix "null" s with
            | Some rest => Some (VNone, rest)
            | None =>
                match strip_prefix "true" s with
                | Some rest => Some (VBool true, rest)
                | None =>
                    match strip_prefix "false" s with
                    | Some rest => Some (VBool false, rest)
                    | None => nan_or_infinity s
                    end
                end
            end
      end
  end

with parse_elements (fuel : nat) (s : string) : option (list pyval * string) :=
  match fuel with
  | O => None
  | S fuel' =>
      match parse_value fuel' s with
      | Some (v, rest) =>
          match skip_ws rest with
          | String d r' =>
              if (code d =? 93)%nat then Some ([v], r')
              else if (code d =? 44)%nat then
                match parse_elements fuel' (skip_ws r') with
                | Some (vs, rest') => Some (v :: vs, rest')
                | None => None
                end
              else None
          | EmptyString => None
          end
      | None => None
      end
  end

with parse_members (fuel : nat) (s : string)
  : option (list (string * pyval) * string) :=
  match fuel with
  | O => None
  | S fuel' =>
      match s with
      | String q r =>
          if (code q =? 34)%nat then
            match parse_string (S (String.length r)) r with
            | Some (key, after_key) =>
                match skip_ws after_key with
                | String colon after_colon =>
                    if (code colon =? 58)%nat then
                      match parse_value fuel' (skip_ws after_colon) with
                      | Some (v, rest) =>
                          match skip_ws rest with
                          | String d r' =>
                              if (code d =? 125)%nat then Some ([(key, v)], r')
                              else if (code d =? 44)%nat then
                                match parse_members fuel' (skip_ws r') with
                                | Some (ms, rest') =>
                                    Some (add_member key v ms, rest')
                                | None => None
                                end
                              else None
                          | EmptyString => None
                          end
                      | None => None
                      end
                    else None
                | EmptyString => None
                end
            | None => None
            end
          else None
      | EmptyString => None
      end
  end.

(** [json.loads(v)]: [v] must be a [str]; the error of a text that is not
    JSON is a [JSONDecodeError], a subclass of [ValueError]. *)
Definition loads (v : pyval) : outcome pyval :=
  match v with
  | VStr s =>
      match parse_value (2 * S (String.length s)) (skip_ws s) with
      | Some (x, rest) =>
          match skip_ws rest with
          | EmptyString => Ret x
          | _ => raise ValueError "Extra data"
          end
      | None => raise ValueError "Expecting value"
      end
  | _ => raise TypeError
           ("the JSON object must be str, bytes or bytearray, not "
            ++ PyVal.type_name v)
  end.

End Json.

(** ** Calling a Python function

    A tool of the registry is called either with the parsed arguments
    unpacked as keyword arguments or with one positional argument. *)

Inductive call_args : Type :=
  | Keywords (kw : list (string * pyval))
  | Positional (v : pyval).

Definition capability : Type := call_args -> outcome pyval.

Module Signature.

(** The names as the message about missing arguments lists them:
    ['a'], ['a' and 'b'], ['a', 'b', and 'c']. *)
Fixpoint listed_names (names : list string) : string :=
  match names with
  | [] => ""
  | [a] => "and '" ++ a ++ "'"
  | a :: rest => "'" ++ a ++ "', " ++ listed_names rest
  end.

Definition quoted_names (names : list string) : string :=
  match names with
  | [a] => "'" ++ a ++ "'"
  | [a; b] => "'" ++ a ++ "' and '" ++ b ++ "'"
  | _ => listed_names names
  end.

(** The [TypeError] of a call that leaves required parameters without a
    value. *)
Definition missing_arguments_error {A : Type} (fname : string)
                                   (missing : list string) : outcome A :=
  raise TypeError
    (fname ++ "() missing "
     ++ NilZero.string_of_uint (Nat.to_uint (List.length missing))
     ++ " required positional argument"
     ++ (match missing with [_] => "" | _ => "s" end)
     ++ ": " ++ quoted_names missing).

(** The value bound to each parameter of a function whose parameters are
    [required] then [optional] (these default to [None]), or the [TypeError]
    of a call that does not match: an unexpected keyword, a missing required
    argument, too many positional arguments. *)
Definition bind_args (fname : string) (required optional : list string)
                     (args : call_args) : outcome (list pyval) :=
  let params := (required ++ optional)%list in
  match args with
  | Keywords kw =>
      match filter (fun kv => negb (PyStr.mem (fst kv) params)) kw with
      | (k, _) :: _ =>
          raise TypeError
            (fname ++ "() got an unexpected keyword argument '" ++ k ++ "'")
      | [] =>
          match filter (fun p => match PyVal.lookup p kw with
                                 | Some _ => false | None => true end) required with
          | (_ :: _) as missing => missing_arguments_error fname missing
          | [] =>
              Ret (map (fun p => match PyVal.lookup p kw with
                                 | Some v => v | None => VNone end) params)
          end
      end
  | Positional v =>
      match params with
      | [] => raise TypeError
                (fname ++ "() takes 0 positional arguments but 1 was given")
      | _ :: others =>
          match skipn 1 required with
          | (_ :: _) as missing => missing_arguments_error fname missing
          | [] => Ret (v :: map (fun _ => VNone) others)
          end
      end
  end.

(** The call of [f] with [arguments] unpacked as keyword arguments: what is
    unpacked must be a mapping. *)
Definition call_keywords (f : capability) (arguments : pyval) : outcome pyval :=
  match arguments with
  | VDict kw => f (Keywords kw)
  | _ => raise TypeError
           ("argument after ** must be a mapping, not "
            ++ PyVal.type_name arguments)
  end.

End Signature.

(** ** [backend/tools/plaid_tool.py] *)

Module PlaidTool.

(** The process environment the tool reads: the variables [os.getenv] sees
    and whether the [plaid] package can be imported. *)
Record Env : Type := {
  getenv : string -> option string;
  plaid_installed : bool
}.

(** The Plaid client: the host it talks to and its credentials. *)
Record client : Type := {
  host : string; client_id : string; secret : string
}.

(** The Plaid service and the file system, as the two branches of
    [get_financial_info] use them once the request type is known:
    [balances client friendly token] is the summary
    [_summarize_balances(friendly, _fetch_balances(client, token))] or the
    exception raised on the way, and [transactions client selected
    start_date end_date] is the whole of the transactions branch (dates parsed,
    transactions fetched, file written). *)
Record Backend : Type := {
  balances : client -> string -> string -> outcome string;
  transactions :
    client -> list (string * string) -> pyval -> pyval -> outcome pyval;
  (** [friendly.title()] *)
  title : string -> string
}.

Definition FRIENDLY_TO_ENV : list (string * string) :=
  [("discover", "PLAID_ACCESS_TOKEN_DISCOVER");
   ("huntington", "PLAID_ACCESS_TOKEN_HUNTINGTON");
   ("ally", "PLAID_ACCESS_TOKEN_ALLY");
   ("pnc", "PLAID_ACCESS_TOKEN_PNC")].

Definition NAME_SYNONYMS : list (string * list string) :=
  [("discover", ["discover"; "discover credit card"]);
   ("huntington", ["huntington"; "huntington national bank"]);
   ("ally", ["ally"; "ally bank"; "ally money market";
             "ally money market account"]);
   ("pnc", ["pnc"; "pnc bank"; "pnc checking"; "pnc savings"])].

(** The first canonical name among [table] one of whose variants is [s]. *)
Fixpoint find_synonym (s : string) (table : list (string * list string))
  : option string :=
  match table with
  | [] => None
  | (canonical, variants) :: rest =>
      if PyStr.mem s variants then Some canonical else find_synonym s rest
  end.

Definition _normalize_account_name (name : string) : option string :=
  if String.eqb name "" then None
  else
    let s := PyStr.lower (PyStr.strip name) in
    if String.eqb s "all" then Some "all"
    else
      match find_synonym s NAME_SYNONYMS with
      | Some canonical => Some canonical
      | None =>
          if PyStr.mem s (map fst FRIENDLY_TO_ENV) then Some s else None
      end.

Section WithEnv.
Variable E : Env.

(** The accounts whose token is set (and not empty), in the order of
    [FRIENDLY_TO_ENV]. *)
Definition available : list (string * string) :=
  flat_map (fun fe =>
              match getenv E (snd fe) with
              | Some token =>
                  if String.eqb token "" then [] else [(fst fe, token)]
              | None => []
              end) FRIENDLY_TO_ENV.

Definition lookup_token (friendly : string) : option string :=
  match find (fun ft => String.eqb (fst ft) friendly) available with
  | Some (_, token) => Some token
  | None => None
  end.

Definition pair_eqb (a b : string * string) : bool :=
  String.eqb (fst a) (fst b) && String.eqb (snd a) (snd b).

(** [_normalize_account_name(str(n))] for an element [n] of the list: the
    text of a value that is no string ([None], a number, a list, ...) is
    never an account name. *)
Definition normalize_item (n : pyval) : option string :=
  match n with
  | VStr s => _normalize_account_name s
  | _ => None
  end.

(** The loop over a list of names: [all] stops it. *)
Fixpoint resolve_names (names : list pyval) (resolved : list (string * string))
  : list (string * string) :=
  match names with
  | [] => resolved
  | n :: rest =>
      match normalize_item n with
      | Some norm =>
          if String.eqb norm "all" then available
          else
            match lookup_token norm with
            | Some token =>
                if existsb (pair_eqb (norm, token)) resolved
                then resolve_names rest resolved
                else resolve_names rest (resolved ++ [(norm, token)])%list
            | None => resolve_names rest resolved
            end
      | None => resolve_names rest resolved
      end
  end.

Definition no_accounts_message : string :=
  "No accounts resolved. Allowed names: ally, discover, huntington, pnc. "
  ++ "Tokens present for: "
  ++ (match map fst available with
      | [] => "none"
      | names =>
          PyStr.join ", "
            (filter (fun n => PyStr.mem n names)
                    ["ally"; "discover"; "huntington"; "pnc"])
      end)
  ++ ". Use 'all' to include all with tokens.".

Definition _resolve_selected_accounts (account_names : pyval)
  : outcome (list (string * string)) :=
  resolved <-
    match account_names with
    | VStr s =>
        match _normalize_account_name s with
        | Some norm =>
            if String.eqb norm "all" then Ret available
            else
              match lookup_token norm with
              | Some token => Ret [(norm, token)]
              | None => Ret []
              end
        | None => Ret []
        end
    | VList names => Ret (resolve_names names [])
    | VDict items => Ret (resolve_names (map (fun kv => VStr (fst kv)) items) [])
    | v => raise TypeError
             ("'" ++ PyVal.type_name v ++ "' object is not iterable")
    end ;;
  match resolved with
  | [] => raise ValueError no_accounts_message
  | _ => Ret resolved
  end.

Definition nonempty (v : option string) : option string :=
  match v with
  | Some s => if String.eqb s "" then None else Some s
  | None => None
  end.

Definition _init_plaid_client : outcome client :=
  if negb (plaid_installed E) then
    raise RuntimeError
      "Missing dependency 'plaid-python'. Install with: pip install plaid-python"
  else
    let env :=
      PyStr.lower (PyStr.strip
        (match nonempty (getenv E "PLAID_ENV") with
         | Some s => s
         | None => "sandbox"
         end)) in
    match nonempty (getenv E "PLAID_CLIENT_ID"), nonempty (getenv E "PLAID_SECRET") with
    | Some cid, Some sec =>
        let h := if String.eqb env "production" then "Production"
                 else if String.eqb env "development" then "Development"
                 else "Sandbox" in
        Ret {| host := h; client_id := cid; secret := sec |}
    | _, _ =>
        raise RuntimeError
          "PLAID_CLIENT_ID and PLAID_SECRET must be set in environment"
    end.

Variable B : Backend.

(** [(request_type or "").strip().lower()]: only a [str] has [strip]. *)
Definition normalized_request_type (request_type : pyval) : outcome string :=
  match PyVal.por request_type (VStr "") with
  | VStr s => Ret (PyStr.lower (PyStr.strip s))
  | v => raise AttributeError
           ("'" ++ PyVal.type_name v ++ "' object has no attribute 'strip'")
  end.

(** The loop of the balances branch: one summary per selected account; a
    failure of one account becomes its line. *)
Fixpoint balance_summaries (c : client) (selected : list (string * string))
  : outcome (list string) :=
  match selected with
  | [] => Ret []
  | (friendly, token) :: rest =>
      line <- try_except_Exception (balances B c friendly token)
                (fun e => Ret (title B friendly ++ ": error fetching balances: "
                               ++ exn_msg e)) ;;
      others <- balance_summaries c rest ;;
      Ret (line :: others)
  end.

Definition invalid_request_type : pyval :=
  VDict [("error", VStr "Invalid request_type. Use 'balance' or 'transactions'.")].

Definition get_financial_info (account_names request_type
                               start_date end_date : pyval) : outcome pyval :=
  try_except_Exception
    (c <- _init_plaid_client ;;
     selected <- _resolve_selected_accounts account_names ;;
     rtype <- normalized_request_type request_type ;;
     if negb (PyStr.mem rtype
                ["balance"; "balances"; "transactions"; "txns"; "txn"])
     then Ret invalid_request_type
     else if PyStr.mem rtype ["balance"; "balances"] then
       summaries <- balance_summaries c selected ;;
       Ret (VStr (PyStr.join (Json.chr 10 ++ Json.chr 10) summaries))
     else transactions B c selected start_date end_date)
    (fun e => Ret (VDict [("error", VStr (exn_msg e))])).

End WithEnv.
End PlaidTool.

(** ** [backend/tools/function_mapper.py] *)

(** What the tools need of the world around them. *)
Record World : Type := {
  platform : Platform;
  env : PlaidTool.Env;
  backend : PlaidTool.Backend
}.

Module FunctionMapper.

(** [calculate(expression)] as the registry holds it. *)
Definition calculate (W : World) : capability :=
  fun args =>
    bound <- Signature.bind_args "calculate" ["expression"] [] args ;;
    match bound with
    | [expression] => Calculator.calculate (platform W) expression
    | _ => raise TypeError "calculate() takes 1 positional argument"
    end.

(** [get_financial_info(account_names, request_type, start_date=None,
    end_date=None)] as the registry holds it. *)
Definition get_financial_info (W : World) : capability :=
  fun args =>
    bound <- Signature.bind_args "get_financial_info"
               ["account_names"; "request_type"] ["start_date"; "end_date"] args ;;
    match bound with
    | [account_names; request_type; start_date; end_date] =>
        PlaidTool.get_financial_info (env W) (backend W)
          account_names request_type start_date end_date
    | _ => raise TypeError "get_financial_info() takes 4 arguments"
    end.

Definition FUNCTION_MAP (W : World) : list (string * capability) :=
  [("calculate", calculate W);
   ("get_financial_info", get_financial_info W)].

End FunctionMapper.

(** ** [backend/main.py]: the function dispatcher *)

Module Main.

(** The connection [ws], as the dispatcher uses it: the messages sent so
    far, and whether the connection is closed ([send] then raises). *)
Record socket : Type := { closed : bool; sent : list string }.

(** [await ws.send(msg)] *)
Definition send (ws : socket) (msg : string) : outcome unit * socket :=
  if closed ws then (raise ConnectionClosed "no close frame received or sent", ws)
  else (Ret tt, {| closed := false; sent := (sent ws ++ [msg])%list |}).

(** The local variables of [_handle_function_call_request] that its handler
    looks up in [locals()]: [None] while a variable is not yet bound. *)
Record locals : Type := {
  func_name : option pyval;
  func_id : option pyval
}.

Definition no_locals : locals := {| func_name := None; func_id := None |}.

(** [for x in v]: the elements a value yields. *)
Definition iterate (v : pyval) : outcome (list pyval) :=
  match v with
  | VList items => Ret items
  | VDict items => Ret (map (fun kv => VStr (fst kv)) items)
  | VStr s => Ret (map (fun c => VStr (String c EmptyString)) (list_ascii_of_string s))
  | _ => raise TypeError
           ("'" ++ PyVal.type_name v ++ "' object is not iterable")
  end.

Section WithRegistry.
Variable P : Platform.
Variable FUNCTION_MAP : list (string * capability).

(** [FUNCTION_MAP[name]] for a name that is a string. *)
Fixpoint registry_get (name : string) (m : list (string * capability))
  : option capability :=
  match m with
  | [] => None
  | (k, f) :: rest => if String.eqb k name then Some f else registry_get name rest
  end.

(** [func_name in FUNCTION_MAP], with the tool when the name is there: a
    list or a dict cannot be hashed, and no other value equals a key. *)
Definition registry_find (name : pyval) : outcome (option capability) :=
  match name with
  | VStr s => Ret (registry_get s FUNCTION_MAP)
  | VList _ | VDict _ =>
      raise TypeError ("unhashable type: '" ++ PyVal.type_name name ++ "'")
  | _ => Ret None
  end.

(** The text of [func_name] inside an f-string, for the values that can be
    looked up in a dict (a list or a dict raises before it is formatted). *)
Definition format_name (name : pyval) : string :=
  match name with
  | VNone => "None"
  | VBool true => "True"
  | VBool false => "False"
  | VInt z => Json.str_of_int z
  | VFloat S754_nan => "nan"
  | VFloat (S754_infinity false) => "inf"
  | VFloat (S754_infinity true) => "-inf"
  | VFloat f => float_repr P f
  | VStr s => s
  | _ => PyVal.type_name name
  end.

Definition _create_function_call_response (id name result : pyval)
  : outcome pyval :=
  content <- Json.dumps P result ;;
  Ret (VDict [("type", VStr "FunctionCallResponse");
              ("id", id);
              ("name", name);
              ("content", VStr content)]).

(** [json.loads(function_call.get("arguments", "{}"))], an empty dict when
    that raises. *)
Definition parse_arguments (function_call : pyval) : outcome pyval :=
  try_except_Exception
    (a <- PyVal.get_default function_call "arguments" (VStr "{}") ;;
     Json.loads a)
    (fun _ => Ret (VDict [])).

(** [arguments.get("expression") or arguments.get("query")
    or arguments.get("input")] *)
Definition fallback_argument (arguments : pyval) : outcome pyval :=
  e <- PyVal.get arguments "expression" ;;
  if PyVal.truthy e then Ret e
  else
    q <- PyVal.get arguments "query" ;;
    if PyVal.truthy q then Ret q
    else PyVal.get arguments "input".

(** The call of a tool found in the registry: with the arguments as
    keywords, and on a [TypeError] once more with one positional argument.
    (The [print] before the first call writes to the console only and is left
    out.) *)
Definition invoke (f : capability) (arguments : pyval) : outcome pyval :=
  try_except_TypeError
    (Signature.call_keywords f arguments)
    (expr <- fallback_argument arguments ;; f (Positional expr)).

(** The result of one entry, once its name, id and arguments are known. *)
Definition entry_result (name arguments : pyval) : outcome pyval :=
  found <- registry_find name ;;
  match found with
  | Some f => invoke f arguments
  | None =>
      Ret (VDict [("error", VStr ("Unknown function: " ++ format_name name))])
  end.

(** The body of the loop up to the message it is about to send, with the
    local variables as the body leaves them. *)
Definition entry_reply (function_call : pyval) (L : locals)
  : outcome string * locals :=
  match PyVal.get function_call "name" with
  | Raise e => (Raise e, L)
  | Ret name =>
      let L1 := {| func_name := Some name; func_id := func_id L |} in
      match PyVal.get function_call "id" with
      | Raise e => (Raise e, L1)
      | Ret id =>
          let L2 := {| func_name := Some name; func_id := Some id |} in
          (arguments <- parse_arguments function_call ;;
           result <- entry_result name arguments ;;
           response <- _create_function_call_response id name result ;;
           Json.dumps P response,
           L2)
      end
  end.

(** The [for] loop: it stops at the first exception. *)
Fixpoint dispatch_loop (entries : list pyval) (L : locals) (ws : socket)
  : outcome unit * locals * socket :=
  match entries with
  | [] => (Ret tt, L, ws)
  | function_call :: rest =>
      match entry_reply function_call L with
      | (Raise e, L') => (Raise e, L', ws)
      | (Ret msg, L') =>
          match send ws msg with
          | (Raise e, ws') => (Raise e, L', ws')
          | (Ret _, ws') => dispatch_loop rest L' ws'
          end
      end
  end.

(** [x if "x" in locals() else "unknown"] *)
Definition local_or_unknown (x : option pyval) : pyval :=
  match x with
  | Some v => v
  | None => VStr "unknown"
  end.

(** The handler of the outer [try]: one reply that reports the failure. *)
Definition failure_reply (e : exn) (L : locals) : outcome string :=
  err <- _create_function_call_response
           (local_or_unknown (func_id L)) (local_or_unknown (func_name L))
           (VDict [("error", VStr ("Function call failed: " ++ exn_msg e))]) ;;
  Json.dumps P err.

Definition _handle_function_call_request (decoded : pyval) (ws : socket)
  : outcome unit * socket :=
  let '(r, L, ws1) :=
    match (fs <- PyVal.get_default decoded "functions" (VList []) ;; iterate fs) with
    | Raise e => (Raise e, no_locals, ws)
    | Ret entries => dispatch_loop entries no_locals ws
    end in
  match r with
  | Ret _ => (Ret tt, ws1)
  | Raise e =>
      if is_Exception (exn_cls e) then
        match failure_reply e L with
        | Raise e' => (Raise e', ws1)
        | Ret msg => send ws1 msg
        end
      else (Raise e, ws1)
  end.

(** The branch of [audio_receiver] for a message that is text: it is parsed,
    a [FunctionCallRequest] is dispatched, and every exception is dropped. *)
Definition on_text_message (message : string) (ws : socket)
  : outcome unit * socket :=
  match Json.loads (VStr message) with
  | Raise e => if is_Exception (exn_cls e) then (Ret tt, ws) else (Raise e, ws)
  | Ret decoded =>
      match PyVal.get decoded "type" with
      | Raise e => if is_Exception (exn_cls e) then (Ret tt, ws) else (Raise e, ws)
      | Ret (VStr t) =>
          if String.eqb t "FunctionCallRequest" then
            match _handle_function_call_request decoded ws with
            | (Raise e, ws') =>
                if is_Exception (exn_cls e) then (Ret tt, ws') else (Raise e, ws')
            | done => done
            end
          else (Ret tt, ws)
      | Ret _ => (Ret tt, ws)
      end
  end.

End WithRegistry.

(** The dispatcher with the registry of [function_mapper.py]. *)
Definition handle_text (W : World) : string -> socket -> outcome unit * socket :=
  on_text_message (platform W) (FunctionMapper.FUNCTION_MAP W).

End Main.

(** ** [backend/main.py]: the [finally] block of [run_agent]

    The calls the block makes on the two audio streams and on the audio
    library, in order.  A call that fails raises an exception that derives
    from [Exception]; each stream is released inside its own [try], whose
    handler drops the exception. *)

Module Teardown.

Inductive call : Type :=
  | StopInput | CloseInput | StopOutput | CloseOutput | TerminateAudio.

(** [try: if stream is not None: stream.stop_stream(); stream.close()
    except Exception: pass]: the calls made, given which calls fail. *)
Definition release (opened : bool) (stop close : call) (fails : call -> bool)
  : list call :=
  if opened then
    if fails stop then [stop] else [stop; close]
  else [].

(** The [finally] block: [in_stream] and [out_stream] say which streams
    were opened. *)
Definition finally_block (in_stream out_stream : bool) (fails : call -> bool)
  : list call :=
  (release in_stream StopInput CloseInput fails
   ++ release out_stream StopOutput CloseOutput fails
   ++ [TerminateAudio])%list.

End Teardown.

(** ** [backend/tools/plaid_tool.py]: the pages of [_fetch_transactions]

    The Plaid service is a parameter: what [client.transactions_get]
    answers, as a dict, to the request for [count] transactions from
    [offset] on (the access token and the two dates are the same in every
    request of one call).  The loop of the source has no bound, so the
    model takes the number of requests it may make: [None] says that the
    loop is still running after that many. *)

Module PlaidFetch.

(** [n >= f] for an [int] and a [float]: Python compares the exact values. *)
Definition int_ge_float (n : Z) (f : PyNum.pyfloat) : bool :=
  match f with
  | S754_nan => false
  | S754_infinity negative => negative
  | S754_zero _ => 0 <=? n
  | S754_finite negative m e =>
      let mz := if negative then Z.neg m else Z.pos m in
      if 0 <=? e then mz * 2 ^ e <=? n else mz <=? n * 2 ^ (- e)
  end.

(** [n >= total] for an [int] [n] *)
Definition int_ge (n : Z) (total : pyval) : outcome bool :=
  match total with
  | VInt z => Ret (z <=? n)
  | VBool b => Ret ((if b then 1 else 0) <=? n)
  | VFloat f => Ret (int_ge_float n f)
  | v => raise TypeError
           ("'>=' not supported between instances of 'int' and '"
            ++ PyVal.type_name v ++ "'")
  end.

(** [data.get(key, default)] on the items of a dict *)
Definition dict_get (data : list (string * pyval)) (key : string)
                    (default : pyval) : pyval :=
  match PyVal.lookup key data with
  | Some x => x
  | None => default
  end.

Definition count : nat := 100.

Section WithService.
Variable transactions_get : nat -> nat -> outcome (list (string * pyval)).

(** The [while True] loop, entered with the transactions collected so far,
    the accounts of the first answer that had some, and the offset of the
    next request. *)
Fixpoint fetch_loop (requests : nat) (all_transactions : list pyval)
                    (accounts_cache : pyval) (offset : nat)
  : option (outcome pyval) :=
  match requests with
  | O => None
  | S requests' =>
      match transactions_get count offset with
      | Raise e => Some (Raise e)
      | Ret data =>
          let accounts_cache :=
            match accounts_cache with
            | VNone => dict_get data "accounts" (VList [])
            | _ => accounts_cache
            end in
          match Main.iterate (dict_get data "transactions" (VList [])) with
          | Raise e => Some (Raise e)
          | Ret txns =>
              let all_transactions := (all_transactions ++ txns)%list in
              let len := Z.of_nat (List.length all_transactions) in
              match int_ge len (dict_get data "total_transactions" (VInt len)) with
              | Raise e => Some (Raise e)
              | Ret true =>
                  Some (Ret (VDict [("accounts",
                                     PyVal.por accounts_cache (VList []));
                                    ("transactions", VList all_transactions)]))
              | Ret false =>
                  fetch_loop requests' all_transactions accounts_cache
                             (List.length all_transactions)
              end
          end
      end
  end.

Definition _fetch_transactions (requests : nat) : option (outcome pyval) :=
  fetch_loop requests [] VNone 0%nat.

End WithService.
End PlaidFetch.

(** ** [backend/main.py]: [audio_receiver]

    The messages the connection delivers until it ends are a list; the
    output stream is a parameter that says which write fails, given the
    frames written before. *)

Module Receiver.
Import Main.

(** A message of the connection: [bytes] (audio) or [str]. *)
Inductive message : Type :=
  | Binary (data : list Byte.byte)
  | Text (text : string).

Section WithSpeaker.
Variable W : World.
Variable write : list (list Byte.byte) -> list Byte.byte -> option exn.

(** The [async for] loop; [played] lists the frames written to the output
    stream so far. *)
Fixpoint audio_receiver (messages : list message) (ws : socket)
                        (played : list (list Byte.byte))
  : outcome unit * socket * list (list Byte.byte) :=
  match messages with
  | [] => (Ret tt, ws, played)
  | Binary data :: rest =>
      match write played data with
      | Some e => (Raise e, ws, played)
      | None => audio_receiver rest ws (played ++ [data])%list
      end
  | Text text :: rest =>
      match handle_text W text ws with
      | (Raise e, ws') => (Raise e, ws', played)
      | (Ret _, ws') => audio_receiver rest ws' played
      end
  end.

End WithSpeaker.
End Receiver.

(** ** [backend/main.py]: [load_config]

    The three files are parameters: what reading each one gives, its text
    or the exception of [open].  [json.load] builds a fresh tree, so the
    assignments through [config["agent"]] change that tree in place; here
    they rebuild it along the path. *)

Module Config.

Record Files : Type := {
  (** [config.json], beside [main.py] *)
  config_json : outcome string;
  (** [prompts/system_prompt.txt] *)
  system_prompt : outcome string;
  (** [prompts/greeting.txt] *)
  greeting : outcome string
}.

(** [v[key]] for a [str] key.  (The keys of the source are plain words:
    the text of a [KeyError] is the key between apostrophes.) *)
Definition getitem (v : pyval) (key : string) : outcome pyval :=
  match v with
  | VDict d =>
      match PyVal.lookup key d with
      | Some x => Ret x
      | None => raise OtherException ("'" ++ key ++ "'")
      end
  | VList _ => raise TypeError "list indices must be integers or slices, not str"
  | VStr _ => raise TypeError "string indices must be integers, not 'str'"
  | _ => raise TypeError ("'" ++ PyVal.type_name v ++ "' object is not subscriptable")
  end.

(** [v[key] = x] for a [str] key: the object [v] afterwards. *)
Definition setitem (v : pyval) (key : string) (x : pyval) : outcome pyval :=
  match v with
  | VDict d => Ret (VDict (PyVal.store key x d))
  | VList _ => raise TypeError "list indices must be integers or slices, not str"
  | _ => raise TypeError
           ("'" ++ PyVal.type_name v ++ "' object does not support item assignment")
  end.

(** [v[k1]...[kn][key] = x]: the object [v] afterwards. *)
Fixpoint assign (v : pyval) (path : list string) (key : string) (x : pyval)
  : outcome pyval :=
  match path with
  | [] => setitem v key x
  | k :: rest =>
      inner <- getitem v k ;;
      inner' <- assign inner rest key x ;;
      setitem v k inner'
  end.

Definition load_config (F : Files) : outcome pyval :=
  text <- config_json F ;;
  config <- Json.loads (VStr text) ;;
  prompt <- system_prompt F ;;
  config <- assign config ["agent"; "think"] "prompt" (VStr (PyStr.strip prompt)) ;;
  text <- greeting F ;;
  assign config ["agent"] "greeting" (VStr (PyStr.strip text)).

End Config.

(** ** [backend/main.py]: [sts_connect] and [run_agent]

    [run_agent] is followed through the calls it makes on the world around
    it: the audio library, the connection, and the two tasks it waits for.
    Each call is an event; the world says which events fail, and with which
    exception.  What the two tasks do while they run is not followed here:
    waiting for them is the one event [Relay]. *)

Module Agent.
Import Teardown.

Inductive event : Type :=
  | StartAudio
  | OpenInput
  | OpenOutput
  | Connect (url : string) (subprotocols : list string)
  | Send (text : string)
  | Relay
  | Disconnect
  | Release (c : call).

Record Stage : Type := {
  getenv : string -> option string;
  files : Config.Files;
  (** the exception an event raises, when it fails *)
  fails : event -> option exn
}.

(** [sts_connect()]: the connection it asks for. *)
Definition sts_connect (getenv : string -> option string)
  : outcome (string * list string) :=
  match getenv "DEEPGRAM_API_KEY" with
  | Some api_key =>
      if String.eqb api_key "" then
        raise OtherException "DEEPGRAM_API_KEY not found"
      else Ret ("wss://agent.deepgram.com/v1/agent/converse", ["token"; api_key])
  | None => raise OtherException "DEEPGRAM_API_KEY not found"
  end.

Section WithStage.
Variable P : Platform.
Variable S : Stage.

(** The exception that leaves [try: ... except Exception: pass]: one that
    does not derive from [Exception]. *)
Definition escaping (e : exn) : option exn :=
  if is_Exception (exn_cls e) then None else Some e.

(** [try: if stream is not None: stream.stop_stream(); stream.close()
    except Exception: pass]: the exception that leaves it, if any, and the
    calls made. *)
Definition release_stream (opened : bool) (stop close : call)
  : option exn * list event :=
  if opened then
    match fails S (Release stop) with
    | Some e => (escaping e, [Release stop])
    | None =>
        match fails S (Release close) with
        | Some e => (escaping e, [Release stop; Release close])
        | None => (None, [Release stop; Release close])
        end
    end
  else (None, []).

(** The [finally] block: an exception that leaves the release of a stream
    leaves the block, and what comes after it is not done. *)
Definition finally_calls (in_stream out_stream : bool)
  : option exn * list event :=
  match release_stream in_stream StopInput CloseInput with
  | (Some e, calls) => (Some e, calls)
  | (None, calls) =>
      match release_stream out_stream StopOutput CloseOutput with
      | (Some e, more) => (Some e, (calls ++ more)%list)
      | (None, more) =>
          (fails S (Release TerminateAudio),
           (calls ++ more ++ [Release TerminateAudio])%list)
      end
  end.

(** The body of [async with]: the result and the events, in order. *)
Definition session : outcome unit * list event :=
  match (config_message <- Config.load_config (files S) ;;
         Json.dumps P config_message) with
  | Raise e => (Raise e, [])
  | Ret text =>
      match fails S (Send text) with
      | Some e => (Raise e, [Send text])
      | None =>
          match fails S Relay with
          | Some e => (Raise e, [Send text; Relay])
          | None => (Ret tt, [Send text; Relay])
          end
      end
  end.

(** [async with sts_connect() as ws: ...]: the connection is closed when the
    body is left, also by an exception. *)
Definition connected : outcome unit * list event :=
  match sts_connect (getenv S) with
  | Raise e => (Raise e, [])
  | Ret (url, subprotocols) =>
      match fails S (Connect url subprotocols) with
      | Some e => (Raise e, [Connect url subprotocols])
      | None =>
          (match fails S Disconnect with
           | Some e => Raise e
           | None => fst session
           end,
           (Connect url subprotocols :: snd session ++ [Disconnect])%list)
      end
  end.

(** The [try] block: its result, its events, and which streams it opened. *)
Definition try_block : outcome unit * list event * bool * bool :=
  match fails S OpenInput with
  | Some e => (Raise e, [OpenInput], false, false)
  | None =>
      match fails S OpenOutput with
      | Some e => (Raise e, [OpenInput; OpenOutput], true, false)
      | None =>
          (fst connected, OpenInput :: OpenOutput :: snd connected, true, true)
      end
  end.

(** [pa = pyaudio.PyAudio()] comes before the [try]: when it fails, nothing
    else is done. *)
Definition run_agent : outcome unit * list event :=
  match fails S StartAudio with
  | Some e => (Raise e, [StartAudio])
  | None =>
      match try_block with
      | (result, events, in_stream, out_stream) =>
          (match fst (finally_calls in_stream out_stream) with
           | Some e => Raise e
           | None => result
           end,
           (StartAudio :: events
            ++ snd (finally_calls in_stream out_stream))%list)
      end
  end.

End WithStage.
End Agent.

(** ** [backend/tools/plaid_tool.py]: [_parse_date]

    [datetime.strptime(d, "%Y-%m-%d")] matches [d] against the regular
    expression of the format, four digits for [%Y], then for [%m] and [%d]
    the alternatives below in this order, and wants nothing left after the
    match; [.date()] of the result is a day of the calendar, from the year 1
    to the year 9999. *)

Module PlaidDates.

Record date : Type := { year : Z; month : Z; day : Z }.

Definition is_leap (y : Z) : bool :=
  (y mod 4 =? 0) && (negb (y mod 100 =? 0) || (y mod 400 =? 0)).

Definition days_in_month (y m : Z) : Z :=
  if m =? 2 then (if is_leap y then 29 else 28)
  else if (m =? 4) || (m =? 6) || (m =? 9) || (m =? 11) then 30
  else 31.

(** What [datetime] accepts as year, month and day. *)
Definition valid_date (y m d : Z) : bool :=
  (1 <=? y) && (y <=? 9999) && (1 <=? m) && (m <=? 12)
  && (1 <=? d) && (d <=? days_in_month y m).

(** The value of a decimal digit. *)
Definition digit (c : ascii) : option Z :=
  let n := nat_of_ascii c in
  if ((48 <=? n) && (n <=? 57))%nat then Some (Z.of_nat (n - 48)) else None.

(** A digit between [lo] and [hi]. *)
Definition digit_in (lo hi : Z) (c : ascii) : option Z :=
  match digit c with
  | Some v => if (lo <=? v) && (v <=? hi) then Some v else None
  | None => None
  end.

(** [%Y]: four digits; the year and what follows them. *)
Definition match_Y (s : string) : option (Z * string) :=
  match s with
  | String a (String b (String c (String d rest))) =>
      match digit a, digit b, digit c, digit d with
      | Some a, Some b, Some c, Some d =>
          Some (1000 * a + 100 * b + 10 * c + d, rest)
      | _, _, _, _ => None
      end
  | _ => None
  end.

(** Two characters: [first] then a digit between [lo] and [hi]; the number
    they spell, when [first] is the digit [tens] (or a space, for zero). *)
Definition two (first : ascii) (tens lo hi : Z) (s : string)
  : list (Z * string) :=
  match s with
  | String a (String b rest) =>
      if Ascii.eqb a first then
        match digit_in lo hi b with
        | Some v => [(10 * tens + v, rest)]
        | None => []
        end
      else []
  | _ => []
  end.

(** One digit between 1 and 9. *)
Definition one (s : string) : list (Z * string) :=
  match s with
  | String a rest =>
      match digit_in 1 9 a with
      | Some v => [(v, rest)]
      | None => []
      end
  | EmptyString => []
  end.

(** [%m]: [1[0-2]|0[1-9]|[1-9]], the ways to match in the order tried. *)
Definition match_m (s : string) : list (Z * string) :=
  (two "1" 1 0 2 s ++ two "0" 0 1 9 s ++ one s)%list.

(** [%d]: [3[0-1]|[1-2]\d|0[1-9]|[1-9]| [1-9]] *)
Definition match_d (s : string) : list (Z * string) :=
  (two "3" 3 0 1 s ++ two "1" 1 0 9 s ++ two "2" 2 0 9 s
   ++ two "0" 0 1 9 s ++ one s ++ two " " 0 1 9 s)%list.

Definition dash (s : string) : list string :=
  match s with
  | String "-" rest => [rest]
  | _ => []
  end.

(** The matches of [-%m-%d] at the start of [s], in the order tried. *)
Definition match_md (s : string) : list (Z * Z * string) :=
  flat_map (fun r1 =>
    flat_map (fun m =>
      flat_map (fun r2 =>
        map (fun d => (fst m, fst d, snd d)) (match_d r2))
        (dash (snd m)))
      (match_m r1))
    (dash s).

(** [datetime.strptime(s, "%Y-%m-%d").date()], [None] for its [ValueError]. *)
Definition strptime (s : string) : option date :=
  match match_Y s with
  | Some (y, rest) =>
      match match_md rest with
      | (m, d, EmptyString) :: _ =>
          if valid_date y m d then Some {| year := y; month := m; day := d |}
          else None
      | _ => None
      end
  | None => None
  end.

Definition _parse_date (d : pyval) : outcome (option date) :=
  if negb (PyVal.truthy d) then Ret None
  else
    match d with
    | VStr s =>
        match strptime s with
        | Some parsed => Ret (Some parsed)
        | None => raise ValueError "Dates must be in YYYY-MM-DD format"
        end
    | _ => raise ValueError "Dates must be in YYYY-MM-DD format"
    end.

End PlaidDates.

(** * Specification

    The definitions below state what the claims about the code say; they are
    written from the specification's words, and the theorems that follow
    compare them with the embedding above. *)

(** ** Arithmetic expressions and their value *)

Module ArithSpec.

(** Nesting bounded to 20 levels: a node at depth [depth] and all the nodes
    below it lie at depth 20 or less, the [Expression] root being at depth
    0. *)
Fixpoint fits (n : node) (depth : nat) : bool :=
  (depth <=? 20)%nat &&
  match n with
  | Expression body => fits body (depth + 1)
  | UnaryOp _ operand => fits operand (depth + 1)
  | BinOp l _ r => fits l (depth + 1) && fits r (depth + 1)
  | _ => true
  end.

(** The operators of the calculator other than the power. *)
Definition plain_binop (op : binop) : bool :=
  match op with
  | Add | Sub | Mult | Div | Mod => true
  | _ => false
  end.

Section WithPlatform.
Variable P : Platform.

(** The value of an arithmetic expression: [evaluates e v] holds when [e] is
    built from numeric literals, unary signs and the operators
    [+ - * / % **], every operator application is defined, every power has a
    base of magnitude at most 10^6 and an exponent of magnitude at most 12,
    and [v] is the number Python's arithmetic gives. *)
Inductive evaluates : node -> number -> Prop :=
  | ev_literal (c : constant) (v : number) :
      Calculator.int_or_float c = Some v ->
      evaluates (Constant c) v
  | ev_sign (op : unaryop) (e : node) (v w : number) :
      Calculator._ALLOWED_UNARY_OPS op = true ->
      evaluates e v ->
      Operator.apply_unaryop op v = Ret w ->
      evaluates (UnaryOp op e) w
  | ev_binary (op : binop) (l r : node) (a b w : number) :
      plain_binop op = true ->
      evaluates l a ->
      evaluates r b ->
      Operator.apply_binop P op a b = Ret w ->
      evaluates (BinOp l op r) w
  | ev_power (l r : node) (a b w : number) :
      evaluates l a ->
      evaluates r b ->
      Operator.abs_gt P a 1000000 = Ret false ->
      Operator.abs_gt P b 12 = Ret false ->
      Operator.apply_binop P Pow a b = Ret w ->
      evaluates (BinOp l Pow r) w.

(** [reaches root d target d']: the evaluation of [root] at depth [d] comes
    to evaluate the node [target], at depth [d'].  The right operand of an
    operator is reached only when the left one has a value. *)
Inductive reaches : node -> nat -> node -> nat -> Prop :=
  | reach_here (n : node) (d : nat) : reaches n d n d
  | reach_body (body t : node) (d d' : nat) :
      (d <= 20)%nat ->
      reaches body (d + 1) t d' ->
      reaches (Expression body) d t d'
  | reach_operand (op : unaryop) (e t : node) (d d' : nat) :
      (d <= 20)%nat ->
      Calculator._ALLOWED_UNARY_OPS op = true ->
      reaches e (d + 1) t d' ->
      reaches (UnaryOp op e) d t d'
  | reach_left (op : binop) (l r t : node) (d d' : nat) :
      (d <= 20)%nat ->
      Calculator._ALLOWED_BIN_OPS op = true ->
      reaches l (d + 1) t d' ->
      reaches (BinOp l op r) d t d'
  | reach_right (op : binop) (l r t : node) (a : number) (d d' : nat) :
      (d <= 20)%nat ->
      Calculator._ALLOWED_BIN_OPS op = true ->
      Calculator._safe_eval_node P l (d + 1) = Ret a ->
      reaches r (d + 1) t d' ->
      reaches (BinOp l op r) d t d'.

End WithPlatform.





(** The exact value of an expression over integer literals, unary signs and
    the operators [+ - * % **]: [%] is the remainder of the floored division
    and needs a divisor that is not zero; a power needs a base of magnitude at
    most 10^6 and an exponent between 0 and 12. *)
Fixpoint int_value (n : node) : option Z :=
  match n with
  | Constant (CInt z) => Some z
  | UnaryOp UAdd e => int_value e
  | UnaryOp USub e =>
      match int_value e with
      | Some z => Some (- z)
      | None => None
      end
  | BinOp l op r =>
      match int_value l, int_value r with
      | Some a, Some b =>
          match op with
          | Add => Some (a + b)
          | Sub => Some (a - b)
          | Mult => Some (a * b)
          | Mod => if b =? 0 then None else Some (a mod b)
          | Pow =>
              if (0 <=? b) && (b <=? 12) && (Z.abs a <=? 1000000)
              then Some (a ^ b) else None
          | _ => None
          end
      | _, _ => None
      end
  | _ => None
  end.

(** What [calculate] parses: the text stripped, with [^] replaced by the
    power operator. *)
Definition source_of (s : string) : string :=
  PyStr.replace_char "^"%char "**" (PyStr.strip s).

(** [expr.replace("^", "**")] *)
Definition caret (s : string) : string := PyStr.replace_char "^"%char "**" s.

(** An error result and a success result. *)
Definition error_result (msg : string) : pyval := VDict [("error", VStr msg)].
Definition ok_result (v : pyval) : pyval := VDict [("result", v)].

End ArithSpec.

(** ** The text of JSON objects whose values are strings *)

Module JsonSpec.
Import Json.

(** The double quote. *)
Definition dq : ascii := ascii_of_nat 34.

(** The text of one member [key: value] followed by [tail], written so
    that each quoted string is followed by the rest of the text. *)
Definition member_text (k v : string) (tail : string) : string :=
  String dq (escape k ++ String dq (": " ++ String dq (escape v ++ String dq tail))).

(** The members of an object, separated by commas, followed by [tail]. *)
Fixpoint members_text (kvs : list (string * string)) (tail : string) : string :=
  match kvs with
  | [] => tail
  | (k, v) :: more =>
      member_text k v
        (match more with [] => tail | _ => ", " ++ members_text more tail end)
  end.

(** The items of the dict whose keys and string values are [kvs]. *)
Definition smap (kvs : list (string * string)) : list (string * pyval) :=
  map (fun kv => (fst kv, VStr (snd kv))) kvs.

(** One member as [json.dumps] writes it. *)
Definition member_string (kv : string * string) : string :=
  quote (fst kv) ++ ": " ++ quote (snd kv).

(** The text [json.dumps] writes for an object whose values are strings. *)
Definition object_text (kvs : list (string * string)) : string :=
  "{" ++ PyStr.join ", " (map member_string kvs) ++ "}".

(** Every backslash of [s] that is followed by [u] is followed by [u00]: an
    escape of four hexadecimal digits then names a code point below 256.
    (A backslash that is itself escaped is counted too, which only leaves
    out more texts.) *)
Fixpoint latin1_escapes (s : string) : bool :=
  match s with
  | EmptyString => true
  | String c r =>
      (if (Tokenizer.code c =? 92)%nat then
         match r with
         | String u (String a (String b _)) =>
             negb (Tokenizer.code u =? 117)%nat
             || ((Tokenizer.code a =? 48) && (Tokenizer.code b =? 48))%nat
         | String u _ => negb (Tokenizer.code u =? 117)%nat
         | EmptyString => true
         end
       else true)
      && latin1_escapes r
  end.

(** The number of opening brackets and braces of [s]. *)
Fixpoint brackets (s : string) : nat :=
  match s with
  | EmptyString => 0
  | String c r =>
      (if ((Tokenizer.code c =? 91) || (Tokenizer.code c =? 123))%nat
       then 1 else 0) + brackets r
  end.

(** The texts on which [Json.loads] stands for [json.loads]: the strings
    of this development hold code points below 256 only, so the text must
    not name another one by an escape; and [json.loads] gives up with a
    [RecursionError] on arrays and objects nested about a thousand deep,
    which a text with fewer brackets cannot reach. *)
Definition within_model (s : string) : bool :=
  latin1_escapes s && (brackets s <? 500)%nat.

End JsonSpec.

(** ** The dispatcher's replies and its fallback argument *)

Module DispatchSpec.

(** The keys the fallback looks at, in priority order. *)
Definition fallback_keys : list string := ["expression"; "query"; "input"].

(** [arguments.get(key)] on the parsed arguments. *)
Definition value_of (key : string) (kw : list (string * pyval)) : pyval :=
  match PyVal.lookup key kw with
  | Some v => v
  | None => VNone
  end.

(** The value of the first of [keys] that is present in the arguments,
    whatever its value; [None] when none is present. *)
Fixpoint first_present (keys : list string) (kw : list (string * pyval))
  : pyval :=
  match keys with
  | [] => VNone
  | k :: rest =>
      match PyVal.lookup k kw with
      | Some v => v
      | None => first_present rest kw
      end
  end.

(** The first value among those of [keys] that is true in Python's sense,
    and the value of the last key when none is. *)
Fixpoint first_truthy (keys : list string) (kw : list (string * pyval))
  : pyval :=
  match keys with
  | [] => VNone
  | [k] => value_of k kw
  | k :: rest =>
      if PyVal.truthy (value_of k kw) then value_of k kw
      else first_truthy rest kw
  end.

(** A Function Call Reply:
    [{type: "FunctionCallResponse", id, name, content}]. *)
Definition response (id name : pyval) (content : string) : pyval :=
  VDict [("type", VStr "FunctionCallResponse");
         ("id", id);
         ("name", name);
         ("content", VStr content)].

(** The Tool Result of a failure. *)
Definition error_object (msg : string) : pyval := VDict [("error", VStr msg)].

(** A Function Call entry [{id, name, arguments}] whose fields are strings. *)
Definition entry (id name arguments : string) : pyval :=
  VDict [("id", VStr id); ("name", VStr name); ("arguments", VStr arguments)].

(** A Control Message of variant [FunctionCallRequest]. *)
Definition request (entries : list pyval) : pyval :=
  VDict [("type", VStr "FunctionCallRequest"); ("functions", VList entries)].

(** The text of a Function Call Reply whose id and name are strings, as
    [json.dumps] writes it. *)
Definition reply_text (i n content : string) : string :=
  JsonSpec.object_text
    [("type", "FunctionCallResponse"); ("id", i); ("name", n);
     ("content", content)].

(** The text of the Tool Result of a failure. *)
Definition error_text (msg : string) : string :=
  JsonSpec.object_text [("error", msg)].

End DispatchSpec.

(** ** A world for the examples

    The examples below are evaluated in a world with no credentials, no
    [plaid] package and a platform whose C library functions are never
    reached: every example computes on integers and strings only. *)

Module Examples.

Definition example_platform : Platform := {|
  float_pow := fun _ _ => PowOverflow;
  complex_arith := fun _ _ _ => COverflow;
  complex_abs := fun _ _ => None;
  float_repr := fun _ => "nan"
|}.

Definition bare_env : PlaidTool.Env := {|
  PlaidTool.getenv := fun _ => None;
  PlaidTool.plaid_installed := false
|}.

Definition no_backend : PlaidTool.Backend := {|
  PlaidTool.balances := fun _ _ _ => raise OtherException "no network";
  PlaidTool.transactions := fun _ _ _ _ => raise OtherException "no network";
  PlaidTool.title := fun s => s
|}.

(** An environment with the credentials and the token of one account, and a
    backend that answers with canned data. *)
Definition linked_env : PlaidTool.Env := {|
  PlaidTool.getenv := fun name =>
    if String.eqb name "PLAID_CLIENT_ID" then Some "client"
    else if String.eqb name "PLAID_SECRET" then Some "secret"
    else if String.eqb name "PLAID_ACCESS_TOKEN_PNC" then Some "access-pnc"
    else None;
  PlaidTool.plaid_installed := true
|}.

Definition canned_backend : PlaidTool.Backend := {|
  PlaidTool.balances := fun _ friendly _ => Ret (friendly ++ ": no accounts");
  PlaidTool.transactions := fun _ _ _ _ =>
    Ret (VDict [("transactions_file", VStr "/backend/tmp/plaid_transactions.json")]);
  PlaidTool.title := fun s => s
|}.

Definition example_world : World := {|
  platform := example_platform;
  env := bare_env;
  backend := no_backend
|}.

(** A JSON text written with apostrophes in the place of double quotes. *)
Definition json_text (s : string) : string :=
  PyStr.replace_char "'"%char (Json.chr 34) s.

(** A tool that expects one positional value and returns it: its
    parameter is named [text]. *)
Definition positional_only : capability :=
  fun args =>
    bound <- Signature.bind_args "positional_only" ["text"] [] args ;;
    match bound with
    | [text] => Ret text
    | _ => raise TypeError "positional_only() takes 1 positional argument"
    end.

(** A tool that fails whatever it is given. *)
Definition failing : capability :=
  fun _ => raise ValueError "boom".

Definition open_socket : Main.socket :=
  {| Main.closed := false; Main.sent := [] |}.

End Examples.

(** * Verification *)

(** ** Outcomes that only raise what [except Exception] catches *)

Definition catchable {A : Type} (m : outcome A) : Prop :=
  forall e, m = Raise e -> is_Exception (exn_cls e) = true.

Lemma catchable_ret {A : Type} (a : A) : catchable (Ret a).
Proof. intros e H. discriminate H. Qed.

Lemma catchable_raise {A : Type} (c : exn_class) (msg : string) :
  is_Exception c = true -> catchable (@raise A c msg).
Proof. intros Hc e H. unfold raise in H. injection H as <-. exact Hc. Qed.

Lemma catchable_bind {A B : Type} (m : outcome A) (k : A -> outcome B) :
  catchable m -> (forall a, catchable (k a)) -> catchable (bind m k).
Proof.
  intros Hm Hk e H. destruct m as [a | e']; simpl in H.
  - exact (Hk a e H).
  - injection H as <-. apply Hm. reflexivity.
Qed.

Lemma catchable_if {A : Type} (b : bool) (x y : outcome A) :
  catchable x -> catchable y -> catchable (if b then x else y).
Proof. destruct b; auto. Qed.

Create HintDb catchable.
#[export] Hint Resolve catchable_ret catchable_raise catchable_bind catchable_if
  : catchable.

(** Closes a [catchable] goal about a function made of matches, binds and
    raises of known classes. *)
Ltac catchable_cases :=
  repeat first
    [ apply catchable_ret
    | apply catchable_raise; reflexivity
    | apply catchable_bind; [ | intro ]
    | apply catchable_if
    | match goal with
      | |- catchable (match ?x with _ => _ end) => destruct x
      | |- catchable (let '(_, _) := ?x in _) => destruct x
      end ].

(** ** The operators raise only catchable exceptions *)

Module OperatorFacts.
Import Operator.

Lemma float_of_int_catchable (z : Z) : catchable (PyNum.float_of_int z).
Proof. unfold PyNum.float_of_int. catchable_cases. Qed.

Lemma int_true_divide_catchable (a b : Z) : catchable (PyNum.int_true_divide a b).
Proof. unfold PyNum.int_true_divide. catchable_cases. Qed.

Lemma float_rem_catchable (x y : PyNum.pyfloat) : catchable (PyNum.float_rem x y).
Proof. unfold PyNum.float_rem. catchable_cases. Qed.

Lemma to_float_catchable (o : operand) : catchable (to_float o).
Proof. destruct o; simpl; auto using float_of_int_catchable with catchable. Qed.

Lemma to_complex_catchable (o : operand) : catchable (to_complex o).
Proof.
  destruct o; simpl; auto with catchable.
  apply catchable_bind; auto using float_of_int_catchable with catchable.
Qed.

Lemma of_pow_result_catchable (r : pow_result) : catchable (of_pow_result r).
Proof. destruct r; simpl; auto with catchable. Qed.

Lemma of_complex_result_catchable (r : complex_result) :
  catchable (of_complex_result r).
Proof. destruct r; simpl; auto with catchable. Qed.

#[export] Hint Resolve float_of_int_catchable int_true_divide_catchable
  float_rem_catchable to_float_catchable to_complex_catchable
  of_pow_result_catchable of_complex_result_catchable : catchable.

Section WithPlatform.
Variable P : Platform.

Lemma complex_op_catchable (op : binop) (a b : operand) :
  catchable (complex_op P op a b).
Proof. destruct op; simpl; auto 6 with catchable. Qed.

Lemma float_op_catchable (op : binop) (x y : PyNum.pyfloat) :
  catchable (float_op P op x y).
Proof. destruct op; simpl; auto 6 with catchable. Qed.

Lemma int_op_catchable (op : binop) (a b : Z) : catchable (int_op P op a b).
Proof. destruct op; simpl; auto 8 with catchable. Qed.

Lemma apply_binop_catchable (op : binop) (l r : number) :
  catchable (apply_binop P op l r).
Proof.
  unfold apply_binop.
  destruct (operand_of l), (operand_of r);
    auto 8 using int_op_catchable, complex_op_catchable, float_op_catchable
      with catchable.
Qed.

Lemma apply_unaryop_catchable (op : unaryop) (v : number) :
  catchable (apply_unaryop op v).
Proof.
  unfold apply_unaryop. destruct op, (operand_of v); auto with catchable.
Qed.

Lemma abs_gt_catchable (v : number) (bound : Z) : catchable (abs_gt P v bound).
Proof.
  unfold abs_gt. destruct (operand_of v); auto with catchable.
  destruct (complex_abs P re im); auto with catchable.
Qed.

End WithPlatform.
End OperatorFacts.

(** ** The calculator *)

Module CalculatorFacts.
Import Calculator ArithSpec.

Lemma lstrip_all_space (s : string) :
  PyStr.all_space s = true -> PyStr.lstrip s = "".
Proof.
  induction s as [| c r IH]; simpl; intro H.
  - reflexivity.
  - apply andb_true_iff in H as [Hc Hr]. rewrite Hc. auto.
Qed.

Lemma strip_all_space (s : string) :
  PyStr.all_space s = true -> PyStr.strip s = "".
Proof.
  intro H. unfold PyStr.strip. rewrite (lstrip_all_space s H). reflexivity.
Qed.

(** [calculate] on a text that is empty once stripped. *)
Lemma calculate_blank_text (P : Platform) (s : string) :
  PyStr.strip s = "" ->
  Calculator.calculate P (VStr s) = Ret (error_result "Empty expression").
Proof.
  intro Hs. unfold calculate, stripped, PyVal.por. simpl.
  destruct (negb (s =? "")%string); simpl.
  - rewrite Hs. reflexivity.
  - reflexivity.
Qed.

Lemma ast_parse_catchable (s : string) : catchable (Parser.ast_parse s).
Proof.
  unfold Parser.ast_parse.
  destruct (Tokenizer.tokenize s) as [ts |]; auto with catchable.
  destruct (Parser.parse_level _ 0 ts) as [[e rest] |]; auto with catchable.
Qed.

Lemma stripped_catchable (v : pyval) : catchable (stripped v).
Proof.
  unfold stripped. destruct (PyVal.por v (VStr "")); auto with catchable.
Qed.

Section WithPlatform.
Variable P : Platform.

(** One step of the evaluator, as the source writes it. *)
Lemma eval_unfold (n : node) (depth : nat) :
  _safe_eval_node P n depth =
  if (20 <? depth)%nat then raise ValueError "Expression too complex"
  else
    match n with
    | Expression body => _safe_eval_node P body (depth + 1)
    | Constant value =>
        match int_or_float value with
        | Some v => Ret v
        | None => raise ValueError "Only numbers are allowed"
        end
    | UnaryOp op operand =>
        if _ALLOWED_UNARY_OPS op then
          v <- _safe_eval_node P operand (depth + 1) ;;
          Operator.apply_unaryop op v
        else raise ValueError "Unsupported expression"
    | BinOp lhs op rhs =>
        if _ALLOWED_BIN_OPS op then
          l <- _safe_eval_node P lhs (depth + 1) ;;
          r <- _safe_eval_node P rhs (depth + 1) ;;
          match op with
          | Pow =>
              too_large <- pow_guard P l r ;;
              if too_large then raise ValueError "Exponent too large"
              else Operator.apply_binop P op l r
          | _ => Operator.apply_binop P op l r
          end
        else raise ValueError "Unsupported expression"
    | _ => raise ValueError "Unsupported expression"
    end.
Proof. destruct n; reflexivity. Qed.

Lemma pow_guard_catchable (l r : number) : catchable (pow_guard P l r).
Proof.
  unfold pow_guard.
  auto using OperatorFacts.abs_gt_catchable with catchable.
Qed.

Lemma eval_catchable (n : node) :
  forall depth, catchable (_safe_eval_node P n depth).
Proof.
  induction n; intro depth; rewrite eval_unfold;
    (apply catchable_if; [apply catchable_raise; reflexivity |]);
    try (apply catchable_raise; reflexivity).
  - apply IHn.
  - destruct (int_or_float value); auto with catchable.
  - apply catchable_if; [| apply catchable_raise; reflexivity].
    apply catchable_bind; auto using OperatorFacts.apply_unaryop_catchable.
  - apply catchable_if; [| apply catchable_raise; reflexivity].
    apply catchable_bind; auto. intro l.
    apply catchable_bind; auto. intro r.
    destruct op; try apply OperatorFacts.apply_binop_catchable.
    apply catchable_bind; [apply pow_guard_catchable |].
    intro g. apply catchable_if; [apply catchable_raise; reflexivity |].
    apply OperatorFacts.apply_binop_catchable.
Qed.

(** The body of [calculate]'s [try] raises nothing its handler misses, so
    [calculate] always returns, and what it returns is a result or an
    error. *)
Lemma calculate_returns (expression : pyval) :
  exists k x, calculate P expression = Ret (VDict [(k, x)])
              /\ (k = "result" \/ k = "error").
Proof.
  unfold calculate.
  destruct (stripped expression) as [expr | e] eqn:Hs; simpl.
  - destruct (String.eqb expr ""); simpl.
    + eauto.
    + destruct (Parser.ast_parse _) as [tree | e] eqn:Hp; simpl.
      * destruct (_safe_eval_node P tree 0) as [v | e] eqn:He; simpl.
        -- eauto.
        -- rewrite (eval_catchable tree 0 e He). eauto.
      * rewrite (ast_parse_catchable _ e Hp). eauto.
  - rewrite (stripped_catchable expression e Hs). eauto.
Qed.

(** What [calculate] does with a text that is not empty once stripped. *)
Lemma calculate_text (s : string) :
  PyStr.strip s <> "" ->
  calculate P (VStr s) =
  match Parser.ast_parse (source_of s) with
  | Raise e => Ret (error_result (exn_msg e))
  | Ret tree =>
      match _safe_eval_node P tree 0 with
      | Raise e => Ret (error_result (exn_msg e))
      | Ret v => Ret (ok_result (PyVal.of_number (normalize_zero v)))
      end
  end.
Proof.
  intro Hne. unfold calculate, stripped, PyVal.por, source_of. simpl.
  destruct (negb (s =? "")%string) eqn:Hb; simpl.
  - destruct (String.eqb_spec (PyStr.strip s) ""); [contradiction |]. simpl.
    destruct (Parser.ast_parse _) as [tree | e] eqn:Hp; simpl.
    + destruct (_safe_eval_node P tree 0) as [v | e] eqn:He; simpl.
      * reflexivity.
      * rewrite (eval_catchable tree 0 e He). reflexivity.
    + rewrite (ast_parse_catchable _ e Hp). reflexivity.
  - apply negb_false_iff, String.eqb_eq in Hb. subst s.
    exfalso. apply Hne. reflexivity.
Qed.

End WithPlatform.
End CalculatorFacts.

(** ** The calculator: empty input, the exponent guard, the contract *)

Module CalculatorTheorems.
Import Calculator ArithSpec CalculatorFacts.

(** C9: for every input string that is empty or consists only of white
    space, [calculate] returns exactly [{"error": "Empty expression"}]; it
    neither parses nor evaluates the input. *)
Theorem calculate_blank (P : Platform) (s : string) :
  PyStr.all_space s = true ->
  calculate P (VStr s) = Ret (error_result "Empty expression").
Proof.
  intro Hs. apply calculate_blank_text. apply strip_all_space. exact Hs.
Qed.

Lemma calculate_blank_witness :
  PyStr.all_space "   " = true
  /\ calculate Examples.example_platform (VStr "   ")
     = Ret (error_result "Empty expression").
Proof.
  split; [reflexivity | apply (calculate_blank Examples.example_platform "   ")].
  reflexivity.
Defined.

Section WithPlatform.
Variable P : Platform.

Lemma depth_ok (d : nat) : (d <= 20)%nat -> (20 <? d)%nat = false.
Proof. intro H. apply Nat.ltb_ge. exact H. Qed.

(** An exception raised by a node that the evaluation reaches is raised by
    the whole evaluation. *)
Lemma reaches_raise (root t : node) (d d' : nat) (e : exn) :
  reaches P root d t d' ->
  _safe_eval_node P t d' = Raise e ->
  _safe_eval_node P root d = Raise e.
Proof.
  intros Hr He. induction Hr as
    [ n d
    | body t d d' Hd Hr IH
    | op x t d d' Hd Hop Hr IH
    | op l r t d d' Hd Hop Hr IH
    | op l r t a d d' Hd Hop Hl Hr IH ].
  - exact He.
  - rewrite eval_unfold, (depth_ok d Hd). auto.
  - rewrite eval_unfold, (depth_ok d Hd), Hop, (IH He). reflexivity.
  - rewrite eval_unfold, (depth_ok d Hd), Hop, (IH He). reflexivity.
  - rewrite eval_unfold, (depth_ok d Hd), Hop, Hl, (IH He). reflexivity.
Qed.

(** A power whose base or exponent is too large raises. *)
Lemma guarded_power_raises (l r : node) (d : nat) (a b : number) :
  (d <= 20)%nat ->
  _safe_eval_node P l (d + 1) = Ret a ->
  _safe_eval_node P r (d + 1) = Ret b ->
  Operator.abs_gt P a 1000000 = Ret true \/ Operator.abs_gt P b 12 = Ret true ->
  exists e, _safe_eval_node P (BinOp l Pow r) d = Raise e.
Proof.
  intros Hd Hl Hr Hbig.
  rewrite eval_unfold, (depth_ok d Hd), Hl, Hr. simpl. unfold pow_guard.
  destruct Hbig as [Ha | Hb].
  - rewrite Ha. simpl. eexists. reflexivity.
  - destruct (Operator.abs_gt P a 1000000) as [[|] | e]; simpl.
    + eexists. reflexivity.
    + rewrite Hb. simpl. eexists. reflexivity.
    + eexists. reflexivity.
Qed.

End WithPlatform.

(** C6: when the evaluation of an expression reaches a power whose
    evaluated base has a magnitude above 10^6, or whose evaluated exponent has
    a magnitude above 12, [calculate] returns an error result, not the
    power. *)
Theorem exponent_guard (P : Platform) (s : string) (tree l r : node)
                       (d : nat) (a b : number) :
  Parser.ast_parse (source_of s) = Ret tree ->
  reaches P tree 0 (BinOp l Pow r) d ->
  (d <= 20)%nat ->
  _safe_eval_node P l (d + 1) = Ret a ->
  _safe_eval_node P r (d + 1) = Ret b ->
  Operator.abs_gt P a 1000000 = Ret true \/ Operator.abs_gt P b 12 = Ret true ->
  exists msg, calculate P (VStr s) = Ret (error_result msg).
Proof.
  intros Hp Hreach Hd Hl Hr Hbig.
  destruct (String.eqb_spec (PyStr.strip s) "") as [Hempty | Hne].
  - unfold source_of in Hp. rewrite Hempty in Hp. discriminate Hp.
  - rewrite (calculate_text P s Hne), Hp.
    destruct (guarded_power_raises P l r d a b Hd Hl Hr Hbig) as [e He].
    rewrite (reaches_raise P tree _ 0 d e Hreach He). eauto.
Qed.

Lemma exponent_guard_witness :
  exists msg,
    calculate Examples.example_platform (VStr "3 + 2**13") = Ret (error_result msg).
Proof.
  apply (exponent_guard Examples.example_platform "3 + 2**13"
           (Expression (BinOp (Constant (CInt 3)) Add
                          (BinOp (Constant (CInt 2)) Pow (Constant (CInt 13)))))
           (Constant (CInt 2)) (Constant (CInt 13)) 2 (NInt 2) (NInt 13)).
  - reflexivity.
  - apply reach_body; [lia |].
    apply (reach_right _ Add _ _ _ (NInt 3)); [lia | reflexivity | reflexivity |].
    apply reach_here.
  - lia.
  - reflexivity.
  - reflexivity.
  - right. reflexivity.
Defined.

End CalculatorTheorems.

Module CalculatorContract.
Import Calculator ArithSpec CalculatorFacts CalculatorTheorems.

Section WithPlatform.
Variable P : Platform.

(** The evaluator computes the value of an arithmetic expression that fits
    the depth bound. *)
Lemma evaluates_eval (e : node) (v : number) :
  evaluates P e v ->
  forall d, fits e d = true -> _safe_eval_node P e d = Ret v.
Proof.
  induction 1 as
    [ c v Hc
    | op e v w Hop He IH Happ
    | op l r a b w Hop Hl IHl Hr IHr Happ
    | l r a b w Hl IHl Hr IHr Ha Hb Happ ];
    intros d Hfit; simpl in Hfit;
    apply andb_true_iff in Hfit as [Hd Hsub];
    apply Nat.leb_le in Hd;
    rewrite eval_unfold, (depth_ok d Hd).
  - rewrite Hc. reflexivity.
  - rewrite Hop, (IH _ Hsub). exact Happ.
  - apply andb_true_iff in Hsub as [Hfl Hfr].
    assert (Hallowed : _ALLOWED_BIN_OPS op = true) by (destruct op; easy).
    rewrite Hallowed, (IHl _ Hfl), (IHr _ Hfr). simpl.
    destruct op; try discriminate Hop; exact Happ.
  - apply andb_true_iff in Hsub as [Hfl Hfr].
    rewrite (IHl _ Hfl), (IHr _ Hfr). simpl.
    unfold pow_guard. rewrite Ha. simpl. rewrite Hb. simpl. exact Happ.
Qed.


Lemma blank_source_does_not_parse (s : string) :
  PyStr.strip s = "" -> exists e, Parser.ast_parse (source_of s) = Raise e.
Proof.
  intro H. unfold source_of. rewrite H. eexists. reflexivity.
Qed.

(** [calculate] on a text whose tree makes the evaluator raise. *)
Lemma calculate_eval_error (s : string) (tree : node) (e : exn) :
  Parser.ast_parse (source_of s) = Ret tree ->
  _safe_eval_node P tree 0 = Raise e ->
  calculate P (VStr s) = Ret (error_result (exn_msg e)).
Proof.
  intros Hp He.
  destruct (String.eqb_spec (PyStr.strip s) "") as [Hempty | Hne].
  - destruct (blank_source_does_not_parse s Hempty) as [e' He'].
    rewrite He' in Hp. discriminate Hp.
  - rewrite (calculate_text P s Hne), Hp, He. reflexivity.
Qed.

(** [calculate] on an arithmetic expression that has a value. *)
Lemma calculate_value (s : string) (e : node) (v : number) :
  Parser.ast_parse (source_of s) = Ret (Expression e) ->
  evaluates P e v ->
  fits (Expression e) 0 = true ->
  calculate P (VStr s) = Ret (ok_result (PyVal.of_number (normalize_zero v))).
Proof.
  intros Hp Hev Hfit.
  destruct (String.eqb_spec (PyStr.strip s) "") as [Hempty | Hne].
  - destruct (blank_source_does_not_parse s Hempty) as [e' He'].
    rewrite He' in Hp. discriminate Hp.
  - rewrite (calculate_text P s Hne), Hp.
    assert (He : _safe_eval_node P (Expression e) 0 = Ret v).
    { rewrite eval_unfold. simpl. apply (evaluates_eval e v Hev).
      simpl in Hfit. exact Hfit. }
    rewrite He. reflexivity.
Qed.

(** An expression with an exact integer value has that value. *)
Lemma int_value_evaluates (e : node) :
  forall z, int_value e = Some z -> evaluates P e (NInt z).
Proof.
  induction e as
    [ body IH | c | op x IH | l IHl op r IHr | id | x IH a | f IH args | cs ];
    intros z Hz; simpl in Hz; try discriminate Hz.
  - destruct c; try discriminate Hz. injection Hz as <-.
    apply ev_literal. reflexivity.
  - destruct op; try discriminate Hz.
    + apply (ev_sign P UAdd x (NInt z) (NInt z)); [reflexivity | auto | reflexivity].
    + destruct (int_value x) as [w |]; [| discriminate Hz]. injection Hz as <-.
      apply (ev_sign P USub x (NInt w) (NInt (- w))); [reflexivity | auto | reflexivity].
  - destruct (int_value l) as [a |]; [| discriminate Hz].
    destruct (int_value r) as [b |]; [| discriminate Hz].
    specialize (IHl a eq_refl). specialize (IHr b eq_refl).
    destruct op; try discriminate Hz.
    + injection Hz as <-.
      apply (ev_binary P Add l r (NInt a) (NInt b)); auto.
    + injection Hz as <-.
      apply (ev_binary P Sub l r (NInt a) (NInt b)); auto.
    + injection Hz as <-.
      apply (ev_binary P Mult l r (NInt a) (NInt b)); auto.
    + destruct (b =? 0) eqn:Hb; [discriminate Hz |]. injection Hz as <-.
      apply (ev_binary P Mod l r (NInt a) (NInt b)); auto.
      simpl. unfold Operator.apply_binop. simpl. rewrite Hb. reflexivity.
    + destruct ((0 <=? b) && (b <=? 12) && (Z.abs a <=? 1000000)) eqn:Hg;
        [| discriminate Hz].
      injection Hz as <-.
      apply andb_true_iff in Hg as [Hg Ha]. apply andb_true_iff in Hg as [Hb0 Hb12].
      apply Z.leb_le in Ha, Hb0, Hb12.
      apply (ev_power P l r (NInt a) (NInt b)); auto.
      * unfold Operator.abs_gt. simpl. f_equal. apply Z.ltb_ge. exact Ha.
      * unfold Operator.abs_gt. simpl. f_equal. apply Z.ltb_ge. lia.
      * unfold Operator.apply_binop. simpl.
        replace (b <? 0) with false by (symmetry; apply Z.ltb_ge; exact Hb0).
        reflexivity.
Qed.

End WithPlatform.




End CalculatorContract.

(** ** The dispatcher: the fallback argument *)

Module FallbackTheorems.
Import Main DispatchSpec.

Lemma get_value_of (kw : list (string * pyval)) (key : string) :
  PyVal.get (VDict kw) key = Ret (value_of key kw).
Proof. reflexivity. Qed.

(** The fallback argument of the source is the first true value. *)
Lemma fallback_argument_spec (kw : list (string * pyval)) :
  fallback_argument (VDict kw) = Ret (first_truthy fallback_keys kw).
Proof.
  unfold fallback_argument. rewrite !get_value_of. simpl.
  destruct (PyVal.truthy (value_of "expression" kw)); [reflexivity |].
  destruct (PyVal.truthy (value_of "query" kw)); reflexivity.
Qed.

(** C2, as amended: when the call of a tool with the parsed arguments as
    keywords fails with a [TypeError] and the arguments are an object, the
    dispatcher calls the tool exactly once more, with one positional
    argument: the first value that is true in Python's sense among those
    stored under [expression], [query] and [input], in that order, and the
    value under [input] ([None] when absent) if none is true; what that
    second call returns or raises is the outcome of the invocation.  When
    the arguments are no object (a list, a string, a number), the keyword
    call always fails with a [TypeError], and there is no second call: looking
    up the fallback argument raises an [AttributeError], which is the outcome
    of the invocation. *)
Theorem fallback_retry (f : capability) (arguments : pyval) (e : exn) :
  Signature.call_keywords f arguments = Raise e ->
  exn_cls e = TypeError ->
  (forall kw, arguments = VDict kw ->
              f (Keywords kw) = Raise e
              /\ invoke f arguments
                 = f (Positional (first_truthy fallback_keys kw)))
  /\ ((forall kw, arguments <> VDict kw) ->
      invoke f arguments
      = raise AttributeError
          ("'" ++ PyVal.type_name arguments ++ "' object has no attribute 'get'")).
Proof.
  intros Hcall Hcls. unfold invoke, try_except_TypeError.
  rewrite Hcall, Hcls. cbn [exn_class_eqb]. split.
  - intros kw ->. split; [exact Hcall |].
    rewrite fallback_argument_spec. reflexivity.
  - intros Hno. destruct arguments; try reflexivity.
    exfalso. exact (Hno items eq_refl).
Qed.

(** A tool that expects one positional value, dispatched with
    [{"expression": "2+2"}], receives ["2+2"]; dispatched with the list
    [[1]], it is not called. *)
Lemma fallback_retry_witness :
  invoke Examples.positional_only (VDict [("expression", VStr "2+2")])
  = Ret (VStr "2+2")
  /\ invoke Examples.positional_only (VList [VInt 1])
     = raise AttributeError
         ("'" ++ PyVal.type_name (VList [VInt 1])
          ++ "' object has no attribute 'get'").
Proof.
  split.
  - exact (proj2 (proj1 (fallback_retry Examples.positional_only
                           (VDict [("expression", VStr "2+2")])
                           (Exn TypeError
                              "positional_only() got an unexpected keyword argument 'expression'")
                           eq_refl eq_refl)
                    [("expression", VStr "2+2")] eq_refl)).
  - apply (fallback_retry Examples.positional_only (VList [VInt 1])
             (Exn TypeError "argument after ** must be a mapping, not list")
             eq_refl eq_refl).
    intros kw H. discriminate H.
Defined.

(** C2, as stated, fails when the first key present holds a value that is
    not true: with [{"expression": "", "query": "1+1"}] the first key present
    is [expression], whose value is the empty string, and the tool receives
    ["1+1"]. *)
Lemma fallback_skips_present_key :
  let f := FunctionMapper.calculate Examples.example_world in
  let kw := [("expression", VStr ""); ("query", VStr "1+1")] in
  (exists msg, f (Keywords kw) = Raise (Exn TypeError msg))
  /\ first_present fallback_keys kw = VStr ""
  /\ invoke f (VDict kw) = f (Positional (VStr "1+1"))
  /\ invoke f (VDict kw) = Ret (VDict [("result", VInt 2)])
  /\ f (Positional (first_present fallback_keys kw))
     = Ret (VDict [("error", VStr "Empty expression")])
  /\ invoke f (VDict kw) <> f (Positional (first_present fallback_keys kw)).
Proof.
  repeat split; try reflexivity.
  - eexists. reflexivity.
  - intro H. vm_compute in H. discriminate H.
Qed.

End FallbackTheorems.

(** ** The dispatcher: an entry without arguments *)

Module ArgumentsTheorems.
Import Main DispatchSpec.

Lemma lookup_app_other (key k : string) (v : pyval) (items : list (string * pyval)) :
  k <> key ->
  PyVal.lookup key (items ++ [(k, v)]) = PyVal.lookup key items.
Proof.
  intro Hne. induction items as [| [k' v'] rest IH]; simpl.
  - destruct (String.eqb_spec k key); [contradiction | reflexivity].
  - destruct (String.eqb k' key); [reflexivity | exact IH].
Qed.

Lemma lookup_app_new (key : string) (v : pyval) (items : list (string * pyval)) :
  PyVal.lookup key items = None ->
  PyVal.lookup key (items ++ [(key, v)]) = Some v.
Proof.
  induction items as [| [k' v'] rest IH]; simpl; intro H.
  - rewrite String.eqb_refl. reflexivity.
  - destruct (String.eqb k' key); [discriminate H | exact (IH H)].
Qed.

Lemma loads_catchable (v : pyval) : catchable (Json.loads v).
Proof.
  unfold Json.loads. destruct v; auto with catchable.
  destruct (Json.parse_value _ _) as [[x rest] |]; auto with catchable.
  destruct (Json.skip_ws rest); auto with catchable.
Qed.

(** The arguments of an entry whose [arguments] text is [text]. *)
Lemma parse_arguments_text (items : list (string * pyval)) (text : pyval) :
  PyVal.lookup "arguments" items = Some text ->
  parse_arguments (VDict items)
  = match Json.loads text with
    | Ret a => Ret a
    | Raise _ => Ret (VDict [])
    end.
Proof.
  intro H. unfold parse_arguments. simpl. rewrite H. simpl.
  destruct (Json.loads text) as [a | e] eqn:Hl; simpl.
  - reflexivity.
  - rewrite (loads_catchable text e Hl). reflexivity.
Qed.

(** The reply to an entry of id [i] and name [n] whose parsed arguments are
    the empty dict, [f] being the tool registered under [n]: [f] is called
    with no keyword argument and, when that call raises a [TypeError], once
    more with [None], which is what [get] finds in the empty dict, as its one
    positional argument. *)
Definition empty_call_reply (P : Platform) (f : capability) (i n : string)
  : outcome string * locals :=
  (result <- try_except_TypeError (f (Keywords [])) (f (Positional VNone)) ;;
   response <- _create_function_call_response P (VStr i) (VStr n) result ;;
   Json.dumps P response,
   {| func_name := Some (VStr n); func_id := Some (VStr i) |}).

Lemma empty_arguments_reply (P : Platform) (registry : list (string * capability))
    (items : list (string * pyval)) (i n : string) (f : capability) (L : locals) :
  PyVal.lookup "name" items = Some (VStr n) ->
  PyVal.lookup "id" items = Some (VStr i) ->
  registry_get n registry = Some f ->
  parse_arguments (VDict items) = Ret (VDict []) ->
  entry_reply P registry (VDict items) L = empty_call_reply P f i n.
Proof.
  intros Hn Hi Hf Hparse. unfold entry_reply, empty_call_reply.
  cbn [PyVal.get]. rewrite Hn, Hi, Hparse. cbn [bind].
  unfold entry_result. cbn [registry_find bind]. rewrite Hf.
  reflexivity.
Qed.

(** C8: an entry with no [arguments] field is handled exactly as one whose
    [arguments] is the text [{}], and as one whose [arguments] text is not
    JSON: the parsed arguments are the empty dict, and the tool registered
    under the entry's name is called with no keyword argument, so that the
    three entries get the same reply, written out in [empty_call_reply]. *)
Theorem missing_arguments (P : Platform) (registry : list (string * capability))
                          (items : list (string * pyval)) (L : locals) :
  PyVal.lookup "arguments" items = None ->
  parse_arguments (VDict items) = Ret (VDict [])
  /\ parse_arguments (VDict (items ++ [("arguments", VStr "{}")]))
     = Ret (VDict [])
  /\ (forall f : capability,
         Signature.call_keywords f (VDict []) = f (Keywords []))
  /\ entry_reply P registry (VDict items) L
     = entry_reply P registry (VDict (items ++ [("arguments", VStr "{}")])) L
  /\ (forall (i n : string) (f : capability),
         PyVal.lookup "name" items = Some (VStr n) ->
         PyVal.lookup "id" items = Some (VStr i) ->
         registry_get n registry = Some f ->
         entry_reply P registry (VDict items) L = empty_call_reply P f i n
         /\ entry_reply P registry
              (VDict (items ++ [("arguments", VStr "{}")])) L
            = empty_call_reply P f i n)
  /\ (forall (text : string) (e : exn),
         JsonSpec.within_model text = true ->
         Json.loads (VStr text) = Raise e ->
         parse_arguments (VDict (items ++ [("arguments", VStr text)]))
         = Ret (VDict [])
         /\ entry_reply P registry (VDict (items ++ [("arguments", VStr text)])) L
            = entry_reply P registry (VDict items) L
         /\ (forall (i n : string) (f : capability),
                PyVal.lookup "name" items = Some (VStr n) ->
                PyVal.lookup "id" items = Some (VStr i) ->
                registry_get n registry = Some f ->
                entry_reply P registry
                  (VDict (items ++ [("arguments", VStr text)])) L
                = empty_call_reply P f i n)).
Proof.
  intro Hnone.
  assert (Hbare : parse_arguments (VDict items) = Ret (VDict [])).
  { unfold parse_arguments. simpl. rewrite Hnone. reflexivity. }
  assert (Hsame : forall text,
             parse_arguments (VDict (items ++ [("arguments", VStr text)]))
             = Ret (VDict []) ->
             entry_reply P registry (VDict (items ++ [("arguments", VStr text)])) L
             = entry_reply P registry (VDict items) L).
  { intros text Hparse. unfold entry_reply. rewrite Hparse, Hbare. simpl.
    rewrite !lookup_app_other by discriminate. reflexivity. }
  assert (Hbraces : parse_arguments (VDict (items ++ [("arguments", VStr "{}")]))
                    = Ret (VDict [])).
  { rewrite (parse_arguments_text _ (VStr "{}") (lookup_app_new _ _ _ Hnone)).
    reflexivity. }
  assert (Hreply : forall i n f,
             PyVal.lookup "name" items = Some (VStr n) ->
             PyVal.lookup "id" items = Some (VStr i) ->
             registry_get n registry = Some f ->
             entry_reply P registry (VDict items) L = empty_call_reply P f i n).
  { intros i n f Hn Hi Hf.
    exact (empty_arguments_reply P registry items i n f L Hn Hi Hf Hbare). }
  split; [exact Hbare |]. split; [exact Hbraces |].
  split; [reflexivity |].
  split; [symmetry; exact (Hsame "{}" Hbraces) |].
  split.
  - intros i n f Hn Hi Hf. split; [exact (Hreply i n f Hn Hi Hf) |].
    rewrite (Hsame "{}" Hbraces). exact (Hreply i n f Hn Hi Hf).
  - intros text e _ Hl.
    assert (Hparse : parse_arguments (VDict (items ++ [("arguments", VStr text)]))
                     = Ret (VDict [])).
    { rewrite (parse_arguments_text _ (VStr text) (lookup_app_new _ _ _ Hnone)).
      rewrite Hl. reflexivity. }
    split; [exact Hparse |]. split; [exact (Hsame text Hparse) |].
    intros i n f Hn Hi Hf. rewrite (Hsame text Hparse).
    exact (Hreply i n f Hn Hi Hf).
Qed.

(** An entry for [calculate] with no [arguments]: the tool is called with no
    keyword argument, then with [None], and answers [Empty expression]; the
    entry whose [arguments] is the text [{}] and the one whose [arguments] is
    [{"expression"] get the same reply. *)
Lemma missing_arguments_witness :
  let items := [("id", VStr "7"); ("name", VStr "calculate")] in
  let f := FunctionMapper.calculate Examples.example_world in
  let reply := empty_call_reply Examples.example_platform f "7" "calculate" in
  parse_arguments (VDict items) = Ret (VDict [])
  /\ entry_reply Examples.example_platform
       (FunctionMapper.FUNCTION_MAP Examples.example_world) (VDict items) no_locals
     = reply
  /\ entry_reply Examples.example_platform
       (FunctionMapper.FUNCTION_MAP Examples.example_world)
       (VDict (items ++ [("arguments", VStr "{}")])) no_locals
     = reply
  /\ entry_reply Examples.example_platform
       (FunctionMapper.FUNCTION_MAP Examples.example_world)
       (VDict (items ++ [("arguments",
                          VStr (Examples.json_text "{'expression'"))])) no_locals
     = reply
  /\ fst reply
     = Ret (reply_text "7" "calculate" (error_text "Empty expression")).
Proof.
  cbv zeta.
  pose proof (missing_arguments Examples.example_platform
                (FunctionMapper.FUNCTION_MAP Examples.example_world)
                [("id", VStr "7"); ("name", VStr "calculate")] no_locals eq_refl)
    as [Hparse [_ [_ [_ [Hreply Hbad]]]]].
  destruct (Hreply "7" "calculate" (FunctionMapper.calculate Examples.example_world)
              eq_refl eq_refl eq_refl) as [H1 H2].
  destruct (Hbad (Examples.json_text "{'expression'")
              (Exn ValueError "Expecting value") eq_refl eq_refl)
    as [_ [_ H3]].
  split; [exact Hparse |]. split; [exact H1 |]. split; [exact H2 |].
  split; [exact (H3 "7" "calculate" _ eq_refl eq_refl eq_refl) |].
  vm_compute. reflexivity.
Defined.

End ArgumentsTheorems.

(** ** [json.loads] reads back what [json.dumps] writes

    For objects whose values are strings, such as the dispatcher's replies
    and the results of a failure. *)

Module JsonFacts.
Import Json JsonSpec.

Lemma parse_string_char (c : ascii) (fuel : nat) (tail : string) :
  parse_string (S fuel) (escape_char c ++ tail)
  = match parse_string fuel tail with
    | Some (body, rest) => Some (String c body, rest)
    | None => None
    end.
Proof.
  destruct c as [b0 b1 b2 b3 b4 b5 b6 b7].
  destruct b0, b1, b2, b3, b4, b5, b6, b7; reflexivity.
Qed.

Lemma append_assoc (a b c : string) : ((a ++ b) ++ c = a ++ (b ++ c))%string.
Proof. induction a as [| x a IH]; simpl; [reflexivity | rewrite IH; reflexivity]. Qed.

Lemma parse_string_escape (s : string) :
  forall (fuel : nat) (rest : string),
    (String.length s < fuel)%nat ->
    parse_string fuel (escape s ++ String dq rest) = Some (s, rest).
Proof.
  induction s as [| c r IH]; intros fuel rest Hfuel;
    destruct fuel as [| fuel]; try (simpl in Hfuel; lia).
  - reflexivity.
  - simpl escape. rewrite append_assoc, parse_string_char.
    rewrite IH by (simpl in Hfuel; lia). reflexivity.
Qed.

Lemma length_append (a b : string) :
  String.length (a ++ b) = (String.length a + String.length b)%nat.
Proof. induction a as [| x a IH]; simpl; [reflexivity | rewrite IH; reflexivity]. Qed.

Lemma escape_length (s : string) : (String.length s <= String.length (escape s))%nat.
Proof.
  induction s as [| c r IH]; simpl; [lia |].
  rewrite length_append.
  assert (1 <= String.length (escape_char c))%nat.
  { destruct c as [b0 b1 b2 b3 b4 b5 b6 b7].
    destruct b0, b1, b2, b3, b4, b5, b6, b7; simpl; lia. }
  lia.
Qed.

Lemma parse_value_quote (fuel : nat) (r : string) :
  parse_value (S fuel) (String dq r)
  = match parse_string (S (String.length r)) r with
    | Some (text, rest) => Some (VStr text, rest)
    | None => None
    end.
Proof. reflexivity. Qed.

Lemma parse_value_string (fuel : nat) (s rest : string) :
  parse_value (S fuel) (String dq (escape s ++ String dq rest)) = Some (VStr s, rest).
Proof.
  rewrite parse_value_quote, parse_string_escape; [reflexivity |].
  rewrite length_append. pose proof (escape_length s). lia.
Qed.

Lemma quote_append (s tail : string) :
  (quote s ++ tail = String dq (escape s ++ String dq tail))%string.
Proof. unfold quote. simpl. rewrite append_assoc. reflexivity. Qed.

Lemma member_append (k v tail : string) :
  ((quote k ++ ": " ++ quote v) ++ tail = member_text k v tail)%string.
Proof.
  unfold member_text.
  rewrite append_assoc, quote_append, append_assoc, quote_append.
  reflexivity.
Qed.

Lemma join_cons2 (sep p q : string) (rest : list string) :
  PyStr.join sep (p :: q :: rest) = (p ++ sep ++ PyStr.join sep (q :: rest))%string.
Proof. reflexivity. Qed.

Lemma join_members (kvs : list (string * string)) (tail : string) :
  kvs <> [] ->
  (PyStr.join ", " (map member_string kvs) ++ tail = members_text kvs tail)%string.
Proof.
  induction kvs as [| [k v] more IH]; intro Hne; [contradiction |].
  destruct more as [| kv' more'].
  - apply member_append.
  - change (members_text ((k, v) :: kv' :: more') tail)
      with (member_text k v (", " ++ members_text (kv' :: more') tail)).
    rewrite <- IH by discriminate.
    rewrite (map_cons member_string (k, v)), (map_cons member_string kv').
    rewrite join_cons2, !append_assoc.
    apply member_append.
Qed.

Lemma parse_members_quote (fuel : nat) (r : string) :
  parse_members (S fuel) (String dq r)
  = match parse_string (S (String.length r)) r with
    | Some (key, after_key) =>
        match skip_ws after_key with
        | String colon after_colon =>
            if (Tokenizer.code colon =? 58)%nat then
              match parse_value fuel (skip_ws after_colon) with
              | Some (v, rest) =>
                  match skip_ws rest with
                  | String d r' =>
                      if (Tokenizer.code d =? 125)%nat then Some ([(key, v)], r')
                      else if (Tokenizer.code d =? 44)%nat then
                        match parse_members fuel (skip_ws r') with
                        | Some (ms, rest') => Some (add_member key v ms, rest')
                        | None => None
                        end
                      else None
                  | EmptyString => None
                  end
              | None => None
              end
            else None
        | EmptyString => None
        end
    | None => None
    end.
Proof. reflexivity. Qed.

Lemma length_member_text (k v tail : string) :
  (String.length k < S (String.length
     (escape k ++ String dq (": " ++ String dq (escape v ++ String dq tail)))))%nat.
Proof. rewrite length_append. pose proof (escape_length k). lia. Qed.

Lemma parse_member (fuel : nat) (k v tail : string) :
  parse_members (S (S fuel)) (member_text k v tail)
  = match skip_ws tail with
    | String d r' =>
        if (Tokenizer.code d =? 125)%nat then Some ([(k, VStr v)], r')
        else if (Tokenizer.code d =? 44)%nat then
          match parse_members (S fuel) (skip_ws r') with
          | Some (ms, rest') => Some (add_member k (VStr v) ms, rest')
          | None => None
          end
        else None
    | EmptyString => None
    end.
Proof.
  unfold member_text.
  rewrite parse_members_quote, parse_string_escape by apply length_member_text.
  cbn -[parse_value parse_members parse_string escape skip_ws dq].
  change (skip_ws (String ":" (String " " (String dq (escape v ++ String dq tail)))))
    with (String ":" (String " " (String dq (escape v ++ String dq tail)))).
  cbn -[parse_value parse_members parse_string escape skip_ws dq].
  change (skip_ws (String " " (String dq (escape v ++ String dq tail))))
    with (String dq (escape v ++ String dq tail)).
  rewrite parse_value_string. reflexivity.
Qed.

Lemma lookup_smap_fresh (k : string) (kvs : list (string * string)) :
  ~ In k (map fst kvs) -> PyVal.lookup k (smap kvs) = None.
Proof.
  induction kvs as [| [k' v'] more IH]; simpl; intro Hk; [reflexivity |].
  destruct (String.eqb_spec k' k) as [-> | Hne].
  - exfalso. apply Hk. left. reflexivity.
  - apply IH. intro Hin. apply Hk. right. exact Hin.
Qed.

Lemma filter_smap_fresh (k : string) (kvs : list (string * string)) :
  ~ In k (map fst kvs) ->
  filter (fun kv => negb (String.eqb (fst kv) k)) (smap kvs) = smap kvs.
Proof.
  induction kvs as [| [k' v'] more IH]; simpl; intro Hk; [reflexivity |].
  destruct (String.eqb_spec k' k) as [-> | Hne].
  - exfalso. apply Hk. left. reflexivity.
  - simpl. rewrite IH; [reflexivity |]. intro Hin. apply Hk. right. exact Hin.
Qed.

Lemma add_member_fresh (k : string) (v : pyval) (kvs : list (string * string)) :
  ~ In k (map fst kvs) -> add_member k v (smap kvs) = (k, v) :: smap kvs.
Proof.
  intro Hk. unfold add_member.
  rewrite (lookup_smap_fresh k kvs Hk), (filter_smap_fresh k kvs Hk). reflexivity.
Qed.

Lemma members_text_starts (kv : string * string) (more : list (string * string))
                          (tail : string) :
  exists body, members_text (kv :: more) tail = String dq body.
Proof. destruct kv as [k v]. simpl. unfold member_text. eexists. reflexivity. Qed.

Lemma skip_ws_quote (body : string) : skip_ws (String dq body) = String dq body.
Proof. reflexivity. Qed.

Lemma parse_members_text (kvs : list (string * string)) :
  kvs <> [] ->
  NoDup (map fst kvs) ->
  forall (fuel : nat) (rest : string),
    (List.length kvs < fuel)%nat ->
    parse_members fuel (members_text kvs (String "}" rest)) = Some (smap kvs, rest).
Proof.
  induction kvs as [| [k v] more IH]; intros Hne Hdup fuel rest Hfuel;
    [contradiction |].
  simpl in Hfuel.
  destruct fuel as [| [| fuel]]; try lia.
  inversion Hdup as [| k0 ks Hfresh Hdup']; subst.
  destruct more as [| kv' more'].
  - simpl members_text. rewrite parse_member. reflexivity.
  - change (members_text ((k, v) :: kv' :: more') (String "}" rest))
      with (member_text k v
              (String "," (String " " (members_text (kv' :: more') (String "}" rest))))).
    rewrite parse_member.
    destruct (members_text_starts kv' more' (String "}" rest)) as [body Hbody].
    rewrite Hbody.
    change (skip_ws (String "," (String " " (String dq body))))
      with (String "," (String " " (String dq body))).
    cbn -[parse_members skip_ws dq].
    change (skip_ws (String " " (String dq body))) with (String dq body).
    rewrite <- Hbody.
    rewrite IH; [| discriminate | exact Hdup' | simpl in *; lia].
    rewrite (add_member_fresh k (VStr v) (kv' :: more') Hfresh). reflexivity.
Qed.

Lemma members_text_length (kvs : list (string * string)) (tail : string) :
  (List.length kvs <= String.length (members_text kvs tail))%nat.
Proof.
  revert tail. induction kvs as [| [k v] more IH]; intro tail; simpl; [lia |].
  destruct more as [| kv' more'].
  - simpl. lia.
  - rewrite length_append.
    assert (Hin : (List.length (kv' :: more')
                   <= String.length
                        (String dq (escape v ++
                           String dq (", " ++ members_text (kv' :: more') tail))))%nat).
    { simpl String.length. rewrite length_append. simpl String.length.
      specialize (IH tail). simpl in IH |- *. lia. }
    simpl in Hin |- *. lia.
Qed.

Lemma parse_value_brace (fuel : nat) (body : string) :
  parse_value (S fuel) (String "{" (String dq body))
  = match parse_members fuel (String dq body) with
    | Some (items, rest) => Some (VDict items, rest)
    | None => None
    end.
Proof. reflexivity. Qed.

Lemma dumps_members (P : Platform) (kvs : list (string * string)) :
  sequence (map (fun kv => member (fst kv) (dumps P (snd kv))) (smap kvs))
  = Ret (map member_string kvs).
Proof.
  induction kvs as [| [k v] more IH]; [reflexivity |].
  change (smap ((k, v) :: more)) with ((k, VStr v) :: smap more).
  rewrite map_cons. cbn [sequence]. rewrite IH. reflexivity.
Qed.

Lemma dumps_string_object (P : Platform) (kvs : list (string * string)) :
  dumps P (VDict (smap kvs)) = Ret (object_text kvs).
Proof.
  cbn [dumps]. rewrite (dumps_members P kvs). reflexivity.
Qed.

Lemma loads_string_object (kvs : list (string * string)) :
  kvs <> [] ->
  NoDup (map fst kvs) ->
  loads (VStr (object_text kvs)) = Ret (VDict (smap kvs)).
Proof.
  intros Hne Hdup. unfold loads, object_text.
  change ("{" ++ PyStr.join ", " (map member_string kvs) ++ "}")%string
    with (String "{" (PyStr.join ", " (map member_string kvs) ++ "}")).
  rewrite (join_members kvs "}" Hne).
  destruct kvs as [| kv more]; [contradiction |].
  destruct (members_text_starts kv more "}") as [body Hbody].
  pose proof (members_text_length (kv :: more) "}") as Hlen.
  rewrite Hbody in *.
  change (skip_ws (String "{" (String dq body))) with (String "{" (String dq body)).
  remember (String.length (String "{" (String dq body))) as n eqn:Hn.
  replace (2 * S n)%nat with (S (S (2 * n)))%nat by lia.
  rewrite parse_value_brace, <- Hbody.
  rewrite (parse_members_text (kv :: more) Hne Hdup); [reflexivity |].
  simpl in Hn, Hlen |- *. lia.
Qed.

End JsonFacts.

(** ** The dispatcher: the loop and its replies *)

Module DispatchFacts.
Import Main DispatchSpec JsonSpec JsonFacts.

Lemma response_is_string_object (i n content : string) :
  response (VStr i) (VStr n) content
  = VDict (smap [("type", "FunctionCallResponse"); ("id", i); ("name", n);
                 ("content", content)]).
Proof. reflexivity. Qed.

Lemma loads_reply_text (i n content : string) :
  Json.loads (VStr (reply_text i n content)) = Ret (response (VStr i) (VStr n) content).
Proof.
  unfold reply_text. rewrite loads_string_object; [reflexivity | discriminate |].
  repeat constructor; simpl; intuition discriminate.
Qed.

Lemma loads_error_text (msg : string) :
  Json.loads (VStr (error_text msg)) = Ret (error_object msg).
Proof.
  unfold error_text. rewrite loads_string_object; [reflexivity | discriminate |].
  repeat constructor; simpl; intuition discriminate.
Qed.

Section WithRegistry.
Variable P : Platform.
Variable registry : list (string * capability).

Lemma create_response_text (i n : string) (result : list (string * string)) :
  (content <- _create_function_call_response P (VStr i) (VStr n) (VDict (smap result)) ;;
   Json.dumps P content)
  = Ret (reply_text i n (object_text result)).
Proof.
  unfold _create_function_call_response.
  rewrite dumps_string_object. cbn [bind].
  exact (dumps_string_object P [("type", "FunctionCallResponse"); ("id", i);
                                ("name", n); ("content", object_text result)]).
Qed.

Lemma parse_arguments_returns (items : list (string * pyval)) :
  exists a, parse_arguments (VDict items) = Ret a.
Proof.
  unfold parse_arguments. cbn [PyVal.get_default bind].
  destruct (Json.loads _) as [a | e] eqn:Hl; cbn.
  - eauto.
  - rewrite (ArgumentsTheorems.loads_catchable _ e Hl). eauto.
Qed.

Lemma dispatch_loop_app (pre rest : list pyval) :
  forall (L : locals) (ws : socket),
    dispatch_loop P registry (pre ++ rest) L ws
    = match dispatch_loop P registry pre L ws with
      | (Ret _, L1, ws1) => dispatch_loop P registry rest L1 ws1
      | other => other
      end.
Proof.
  induction pre as [| fc pre IH]; intros L ws; simpl.
  - reflexivity.
  - destruct (entry_reply P registry fc L) as [[msg | e] L']; [| reflexivity].
    destruct (send ws msg) as [[u | e] ws']; [apply IH | reflexivity].
Qed.

Lemma send_open (ws : socket) (msg : string) :
  closed ws = false ->
  send ws msg = (Ret tt, {| closed := false; sent := (sent ws ++ [msg])%list |}).
Proof. intro H. unfold send. rewrite H. reflexivity. Qed.


Lemma entry_reply_fields (items : list (string * pyval)) (i n : string) (L : locals) :
  PyVal.lookup "name" items = Some (VStr n) ->
  PyVal.lookup "id" items = Some (VStr i) ->
  entry_reply P registry (VDict items) L
  = (arguments <- parse_arguments (VDict items) ;;
     result <- entry_result P registry (VStr n) arguments ;;
     response <- _create_function_call_response P (VStr i) (VStr n) result ;;
     Json.dumps P response,
     {| func_name := Some (VStr n); func_id := Some (VStr i) |}).
Proof.
  intros Hn Hi. unfold entry_reply. cbn [PyVal.get]. rewrite Hn, Hi. reflexivity.
Qed.

End WithRegistry.
End DispatchFacts.

Module DispatchTheorems.
Import Main DispatchSpec JsonSpec JsonFacts DispatchFacts.

(** C3: an entry whose name is not in the registry raises nothing: once the
    loop reaches it (the entries before it were answered and the connection is
    open), the dispatcher sends one reply and goes on with the entries after
    it; the reply decodes to an object whose [id] and [name] are the entry's,
    and whose [content] decodes to [{"error": "Unknown function: <name>"}]. *)
Theorem unknown_function_reply
    (P : Platform) (registry : list (string * capability))
    (pre post : list pyval) (items : list (string * pyval)) (i n : string)
    (L L1 : locals) (ws ws1 : socket) :
  dispatch_loop P registry pre L ws = (Ret tt, L1, ws1) ->
  closed ws1 = false ->
  PyVal.lookup "name" items = Some (VStr n) ->
  PyVal.lookup "id" items = Some (VStr i) ->
  registry_get n registry = None ->
  exists reply content,
    dispatch_loop P registry (pre ++ VDict items :: post) L ws
    = dispatch_loop P registry post
        {| func_name := Some (VStr n); func_id := Some (VStr i) |}
        {| closed := false; sent := (sent ws1 ++ [reply])%list |}
    /\ Json.loads (VStr reply) = Ret (response (VStr i) (VStr n) content)
    /\ Json.loads (VStr content) = Ret (error_object ("Unknown function: " ++ n)).
Proof.
  intros Hpre Hopen Hn Hi Hnone.
  exists (reply_text i n (error_text ("Unknown function: " ++ n))),
         (error_text ("Unknown function: " ++ n)).
  split; [| split; [apply loads_reply_text | apply loads_error_text]].
  rewrite dispatch_loop_app, Hpre. cbn [dispatch_loop].
  rewrite (entry_reply_fields P registry items i n L1 Hn Hi).
  destruct (parse_arguments_returns items) as [a Ha]. rewrite Ha. cbn [bind].
  unfold entry_result, registry_find. rewrite Hnone. cbn [bind format_name].
  change (VDict [("error", VStr ("Unknown function: " ++ n))])
    with (VDict (smap [("error", "Unknown function: " ++ n)])).
  rewrite create_response_text, (send_open ws1 _ Hopen). reflexivity.
Qed.

(** C1, as amended: when the invocation of the tool of entry [ei] (its one
    fallback retry included) ends in an exception, the dispatcher sends one
    reply that echoes the id and name of [ei] and whose content is
    [{"error": "Function call failed: <message>"}], and returns normally, so
    the session goes on; the loop stops there: what was sent is the replies to
    the entries before [ei] and this one reply, and the entries after [ei] are
    neither processed nor answered. *)
Theorem failure_stops_dispatch
    (P : Platform) (registry : list (string * capability))
    (pre post : list pyval) (items : list (string * pyval)) (i n : string)
    (f : capability) (args : pyval) (e : exn)
    (L1 : locals) (ws ws1 : socket) :
  dispatch_loop P registry pre no_locals ws = (Ret tt, L1, ws1) ->
  closed ws1 = false ->
  PyVal.lookup "name" items = Some (VStr n) ->
  PyVal.lookup "id" items = Some (VStr i) ->
  registry_get n registry = Some f ->
  parse_arguments (VDict items) = Ret args ->
  invoke f args = Raise e ->
  is_Exception (exn_cls e) = true ->
  exists reply content,
    _handle_function_call_request P registry
      (request (pre ++ VDict items :: post)) ws
    = (Ret tt, {| closed := false; sent := (sent ws1 ++ [reply])%list |})
    /\ Json.loads (VStr reply) = Ret (response (VStr i) (VStr n) content)
    /\ Json.loads (VStr content)
       = Ret (error_object ("Function call failed: " ++ exn_msg e)).
Proof.
  intros Hpre Hopen Hn Hi Hf Hargs Hinv Hexn.
  exists (reply_text i n (error_text ("Function call failed: " ++ exn_msg e))),
         (error_text ("Function call failed: " ++ exn_msg e)).
  split; [| split; [apply loads_reply_text | apply loads_error_text]].
  unfold _handle_function_call_request, request.
  cbn [PyVal.get_default PyVal.lookup String.eqb Ascii.eqb Bool.eqb bind iterate].
  rewrite dispatch_loop_app, Hpre. cbn [dispatch_loop].
  rewrite (entry_reply_fields P registry items i n L1 Hn Hi).
  rewrite Hargs. cbn [bind].
  unfold entry_result, registry_find. rewrite Hf. cbn [bind]. rewrite Hinv.
  cbn [bind]. rewrite Hexn.
  unfold failure_reply. cbn [func_id func_name local_or_unknown].
  change (VDict [("error", VStr ("Function call failed: " ++ exn_msg e))])
    with (VDict (smap [("error", "Function call failed: " ++ exn_msg e)])).
  rewrite create_response_text, (send_open ws1 _ Hopen). reflexivity.
Qed.



Lemma unknown_function_reply_witness :
  exists reply content,
    dispatch_loop Examples.example_platform
      (FunctionMapper.FUNCTION_MAP Examples.example_world)
      ([] ++ VDict [("id", VStr "q1"); ("name", VStr "nope")] :: []) no_locals
      Examples.open_socket
    = dispatch_loop Examples.example_platform
        (FunctionMapper.FUNCTION_MAP Examples.example_world) []
        {| func_name := Some (VStr "nope"); func_id := Some (VStr "q1") |}
        {| closed := false; sent := (sent Examples.open_socket ++ [reply])%list |}
    /\ Json.loads (VStr reply) = Ret (response (VStr "q1") (VStr "nope") content)
    /\ Json.loads (VStr content) = Ret (error_object ("Unknown function: " ++ "nope")).
Proof.
  apply (unknown_function_reply Examples.example_platform
           (FunctionMapper.FUNCTION_MAP Examples.example_world)
           [] [] [("id", VStr "q1"); ("name", VStr "nope")] "q1" "nope"
           no_locals no_locals Examples.open_socket Examples.open_socket);
    reflexivity.
Defined.

Lemma failure_stops_dispatch_witness :
  exists reply content,
    _handle_function_call_request Examples.example_platform
      [("boom", Examples.failing)]
      (request ([] ++ entry "1" "boom" "{}" :: [entry "2" "boom" "{}"]))
      Examples.open_socket
    = (Ret tt,
       {| closed := false; sent := (sent Examples.open_socket ++ [reply])%list |})
    /\ Json.loads (VStr reply) = Ret (response (VStr "1") (VStr "boom") content)
    /\ Json.loads (VStr content)
       = Ret (error_object ("Function call failed: " ++ exn_msg (Exn ValueError "boom"))).
Proof.
  apply (failure_stops_dispatch Examples.example_platform
           [("boom", Examples.failing)]
           [] [entry "2" "boom" "{}"]
           [("id", VStr "1"); ("name", VStr "boom"); ("arguments", VStr "{}")]
           "1" "boom" Examples.failing (VDict []) (Exn ValueError "boom")
           no_locals Examples.open_socket Examples.open_socket);
    reflexivity.
Defined.

(** C4: the Control Message of the example is answered by exactly one
    reply; the text sent is [json.dumps]'s, with a space after each colon and
    comma, and it is the same JSON value as the reply the specification
    shows: type [FunctionCallResponse], id [abc], name [calculate] and the
    content [{"result": 20}]. *)
Theorem end_to_end_example (W : World) :
  let message :=
    Examples.json_text
      "{'type':'FunctionCallRequest','functions':[{'id':'abc','name':'calculate','arguments':'{\'expression\':\'(2+3)*4\'}'}]}" in
  let wire :=
    Examples.json_text
      "{'type': 'FunctionCallResponse', 'id': 'abc', 'name': 'calculate', 'content': '{\'result\': 20}'}" in
  let claimed :=
    Examples.json_text
      "{'type':'FunctionCallResponse','id':'abc','name':'calculate','content':'{\'result\': 20}'}" in
  handle_text W message Examples.open_socket
  = (Ret tt, {| closed := false; sent := [wire] |})
  /\ Json.loads (VStr wire) = Json.loads (VStr claimed)
  /\ Json.loads (VStr claimed)
     = Ret (response (VStr "abc") (VStr "calculate")
              (Examples.json_text "{'result': 20}")).
Proof.
  intros message wire claimed.
  split; [| split]; vm_compute; reflexivity.
Qed.

(** C1, as stated, fails: an entry that is answered when it comes alone gets
    no reply when it follows an entry whose invocation fails, be it with the
    registry of the repository (arguments that are a JSON list make the
    fallback raise an [AttributeError]) or with a tool that raises a
    [ValueError] at once. *)
Lemma later_entries_get_no_reply :
  let W := Examples.example_world in
  let calculator := FunctionMapper.calculate W in
  let second := entry "2" "calculate" (Examples.json_text "{'expression':'1+1'}") in
  let second_reply :=
    Examples.json_text
      "{'type': 'FunctionCallResponse', 'id': '2', 'name': 'calculate', 'content': '{\'result\': 2}'}" in
  _handle_function_call_request (platform W) (FunctionMapper.FUNCTION_MAP W)
    (request [second]) Examples.open_socket
  = (Ret tt, {| closed := false; sent := [second_reply] |})
  /\ invoke calculator (VList [VInt 1])
     = Raise (Exn AttributeError "'list' object has no attribute 'get'")
  /\ _handle_function_call_request (platform W) (FunctionMapper.FUNCTION_MAP W)
       (request [entry "1" "calculate" "[1]"; second]) Examples.open_socket
     = (Ret tt,
        {| closed := false;
           sent := [reply_text "1" "calculate"
                      (error_text
                         "Function call failed: 'list' object has no attribute 'get'")] |})
  /\ Signature.call_keywords Examples.failing (VDict []) = Raise (Exn ValueError "boom")
  /\ _handle_function_call_request (platform W)
       [("boom", Examples.failing); ("calculate", calculator)]
       (request [entry "1" "boom" "{}"; second]) Examples.open_socket
     = (Ret tt,
        {| closed := false;
           sent := [reply_text "1" "boom" (error_text "Function call failed: boom")] |}).
Proof.
  intros W calculator second second_reply.
  split; [| split; [| split; [| split]]]; vm_compute; reflexivity.
Qed.
End DispatchTheorems.

(** ** The financial tool: the request type *)

Module PlaidTheorems.
Import PlaidTool.

Lemma request_type_of_text (s : string) :
  normalized_request_type (VStr s) = Ret (PyStr.lower (PyStr.strip s)).
Proof.
  unfold normalized_request_type, PyVal.por. simpl.
  destruct (String.eqb_spec s "") as [-> | Hne]; reflexivity.
Qed.

(** C10, as amended: once the Plaid client is initialised and
    [account_names] resolves to at least one account, [get_financial_info]
    reads a [request_type] that is a string, or [None] (read as the empty
    string), stripped of white space and in lower case; [balance] and
    [balances] select the balances branch, [transactions], [txns] and [txn]
    the transactions branch, and every other value returns
    [{"error": "Invalid request_type. Use 'balance' or 'transactions'."}]
    without raising. *)
Theorem request_type_normalized
    (E : Env) (B : Backend) (account_names request_type start_date end_date : pyval)
    (s : string) (c : client) (selected : list (string * string)) :
  _init_plaid_client E = Ret c ->
  _resolve_selected_accounts E account_names = Ret selected ->
  request_type = VStr s \/ (request_type = VNone /\ s = "") ->
  get_financial_info E B account_names request_type start_date end_date
  = let rtype := PyStr.lower (PyStr.strip s) in
    let handler := fun e => Ret (VDict [("error", VStr (exn_msg e))]) in
    if PyStr.mem rtype ["balance"; "balances"] then
      try_except_Exception
        (summaries <- balance_summaries B c selected ;;
         Ret (VStr (PyStr.join (Json.chr 10 ++ Json.chr 10) summaries)))
        handler
    else if PyStr.mem rtype ["transactions"; "txns"; "txn"] then
      try_except_Exception (transactions B c selected start_date end_date) handler
    else Ret invalid_request_type.
Proof.
  intros Hinit Hresolve Htype.
  assert (Hnorm : normalized_request_type request_type
                  = Ret (PyStr.lower (PyStr.strip s))).
  { destruct Htype as [-> | [-> ->]]; [apply request_type_of_text | reflexivity]. }
  unfold get_financial_info. rewrite Hinit, Hresolve, Hnorm. cbn [bind].
  cbv zeta. unfold PyStr.mem. cbn [existsb].
  destruct (String.eqb _ "balance"); [reflexivity |].
  destruct (String.eqb _ "balances"); [reflexivity |].
  destruct (String.eqb _ "transactions"); [reflexivity |].
  destruct (String.eqb _ "txns"); [reflexivity |].
  destruct (String.eqb _ "txn"); reflexivity.
Qed.

Lemma request_type_normalized_witness :
  get_financial_info Examples.linked_env Examples.canned_backend
    (VStr "PNC Bank") (VStr "  TXNS ") VNone VNone
  = Ret (VDict [("transactions_file", VStr "/backend/tmp/plaid_transactions.json")])
  /\ get_financial_info Examples.linked_env Examples.canned_backend
       (VStr "all") (VStr "history") VNone VNone
     = Ret invalid_request_type.
Proof.
  split.
  - apply (request_type_normalized Examples.linked_env Examples.canned_backend
             (VStr "PNC Bank") (VStr "  TXNS ") VNone VNone "  TXNS "
             {| host := "Sandbox"; client_id := "client"; secret := "secret" |}
             [("pnc", "access-pnc")]);
      [reflexivity | reflexivity | left; reflexivity].
  - apply (request_type_normalized Examples.linked_env Examples.canned_backend
             (VStr "all") (VStr "history") VNone VNone "history"
             {| host := "Sandbox"; client_id := "client"; secret := "secret" |}
             [("pnc", "access-pnc")]);
      [reflexivity | reflexivity | left; reflexivity].
Defined.

(** C10, as stated, fails: a request type that is none of the five words
    does not get the [Invalid request_type] error when the client cannot be
    initialised or no account resolves, because both are tried first and their
    failure is what is returned; and a request type that is a number has no
    [strip]. *)
Lemma invalid_request_type_is_not_always_reported :
  get_financial_info Examples.bare_env Examples.canned_backend
    (VStr "all") (VStr "history") VNone VNone
  = Ret (VDict [("error",
                 VStr "Missing dependency 'plaid-python'. Install with: pip install plaid-python")])
  /\ get_financial_info Examples.linked_env Examples.canned_backend
       (VStr "chase") (VStr "history") VNone VNone
     = Ret (VDict [("error",
                    VStr ("No accounts resolved. Allowed names: ally, discover, huntington, pnc. "
                          ++ "Tokens present for: pnc. Use 'all' to include all with tokens."))])
  /\ get_financial_info Examples.linked_env Examples.canned_backend
       (VStr "all") (VInt 5) VNone VNone
     = Ret (VDict [("error", VStr "'int' object has no attribute 'strip'")])
  /\ get_financial_info Examples.bare_env Examples.canned_backend
       (VStr "all") (VStr "history") VNone VNone
     <> Ret invalid_request_type.
Proof.
  split; [| split; [| split]]; try (vm_compute; reflexivity).
  intro H. vm_compute in H. discriminate H.
Qed.

End PlaidTheorems.

(** ** The calculator is exact on integers *)

Module CalculatorExact.
Import Calculator ArithSpec.

(** On an expression over integer literals, unary signs and [+ - * % **]
    that has an exact integer value and fits the depth bound, [calculate]
    returns that integer. *)
Theorem integer_arithmetic_exact (P : Platform) (s : string) (e : node) (z : Z) :
  Parser.ast_parse (source_of s) = Ret (Expression e) ->
  int_value e = Some z ->
  fits (Expression e) 0 = true ->
  calculate P (VStr s) = Ret (ok_result (VInt z)).
Proof.
  intros Hp Hz Hfit.
  exact (CalculatorContract.calculate_value P s e (NInt z) Hp
           (CalculatorContract.int_value_evaluates P e z Hz) Hfit).
Qed.

Lemma integer_arithmetic_exact_witness :
  calculate Examples.example_platform (VStr "-7 % 3 + 2^5 * (4 - 1)")
  = Ret (ok_result (VInt 98)).
Proof.
  apply (integer_arithmetic_exact Examples.example_platform
           "-7 % 3 + 2^5 * (4 - 1)"
           (BinOp
              (BinOp (UnaryOp USub (Constant (CInt 7))) Mod (Constant (CInt 3)))
              Add
              (BinOp (BinOp (Constant (CInt 2)) Pow (Constant (CInt 5)))
                     Mult
                     (BinOp (Constant (CInt 4)) Sub (Constant (CInt 1)))))
           98);
    reflexivity.
Defined.

End CalculatorExact.

(** ** The [finally] block releases each device on its own *)

Module TeardownTheorems.
Import Teardown.

(** Whatever call fails, the [finally] block of [run_agent] tries to stop
    every stream that was opened, and ends with [pa.terminate()]: a failure
    while releasing the input stream does not keep the output stream from
    being released, and the other way round. *)
Theorem both_devices_released (fails : call -> bool) (in_stream out_stream : bool) :
  (in_stream = true -> In StopInput (finally_block in_stream out_stream fails))
  /\ (out_stream = true -> In StopOutput (finally_block in_stream out_stream fails))
  /\ last (finally_block in_stream out_stream fails) StopInput = TerminateAudio.
Proof.
  unfold finally_block, release.
  destruct in_stream, out_stream, (fails StopInput), (fails StopOutput);
    simpl; intuition discriminate.
Qed.

End TeardownTheorems.

(** ** The calculator: depth, negative zero, the caret *)

Module CalculatorEdges.
Import Calculator ArithSpec CalculatorFacts.

Section WithPlatform.
Variable P : Platform.

Lemma fits_unfold (n : node) (d : nat) :
  fits n d
  = ((d <=? 20)%nat &&
     match n with
     | Expression body => fits body (d + 1)
     | UnaryOp _ operand => fits operand (d + 1)
     | BinOp l _ r => fits l (d + 1) && fits r (d + 1)
     | _ => true
     end).
Proof. destruct n; reflexivity. Qed.

Lemma too_deep_raises (e : node) (v : number) :
  evaluates P e v ->
  forall d, fits e d = false ->
            _safe_eval_node P e d = raise ValueError "Expression too complex".
Proof.
  induction 1 as
    [ c v Hc
    | op e v w Hop He IH Happ
    | op l r a b w Hop Hl IHl Hr IHr Happ
    | l r a b w Hl IHl Hr IHr Ha Hb Happ ];
    intros d Hfit; rewrite fits_unfold in Hfit; rewrite eval_unfold;
    destruct (Nat.leb_spec d 20) as [Hd | Hd];
    try (replace (20 <? d)%nat with true by (symmetry; apply Nat.ltb_lt; lia);
         reflexivity);
    rewrite (CalculatorTheorems.depth_ok d Hd);
    rewrite andb_true_l in Hfit; cbv iota beta in Hfit;
    try discriminate Hfit.
  - rewrite Hop, (IH _ Hfit). reflexivity.
  - assert (Hallowed : _ALLOWED_BIN_OPS op = true) by (destruct op; easy).
    rewrite Hallowed.
    destruct (fits l (d + 1)) eqn:Hfl; simpl in Hfit.
    + rewrite (CalculatorContract.evaluates_eval P l a Hl _ Hfl), (IHr _ Hfit).
      reflexivity.
    + rewrite (IHl _ Hfl). reflexivity.
  - simpl.
    destruct (fits l (d + 1)) eqn:Hfl; simpl in Hfit.
    + rewrite (CalculatorContract.evaluates_eval P l a Hl _ Hfl), (IHr _ Hfit).
      reflexivity.
    + rewrite (IHl _ Hfl). reflexivity.
Qed.

End WithPlatform.

(** An arithmetic expression in which every operator application is defined
    and every power is within the exponent guard, but whose tree has a node
    deeper than 20 levels, gets the error [Expression too complex]. *)
Theorem too_deep_is_rejected (P : Platform) (s : string) (e : node) (v : number) :
  Parser.ast_parse (source_of s) = Ret (Expression e) ->
  evaluates P e v ->
  fits (Expression e) 0 = false ->
  calculate P (VStr s) = Ret (error_result "Expression too complex").
Proof.
  intros Hp Hev Hfit.
  apply (CalculatorContract.calculate_eval_error P s (Expression e)
           (Exn ValueError "Expression too complex") Hp).
  rewrite eval_unfold. simpl. apply (too_deep_raises P e v Hev).
  rewrite fits_unfold in Hfit. exact Hfit.
Qed.

(** Builds the derivation of the value of a literal under unary signs. *)
Ltac signed_literal :=
  first [ apply ev_literal; reflexivity
        | eapply ev_sign; [reflexivity | signed_literal | reflexivity] ].

Lemma too_deep_is_rejected_witness :
  calculate Examples.example_platform (VStr "--------------------1")
  = Ret (error_result "Expression too complex")
  /\ calculate Examples.example_platform (VStr "-------------------1")
     = Ret (ok_result (VInt (-1))).
Proof.
  split; [| reflexivity].
  apply (too_deep_is_rejected Examples.example_platform "--------------------1"
           (Nat.iter 20 (UnaryOp USub) (Constant (CInt 1))) (NInt 1)).
  - reflexivity.
  - simpl. signed_literal.
  - reflexivity.
Defined.

(** [calculate] never returns a negative zero: a float result that equals
    zero is written [0.0]. *)
Theorem no_negative_zero (P : Platform) (v x : pyval) :
  calculate P v = Ret (ok_result x) ->
  x <> VFloat (S754_zero true).
Proof.
  unfold calculate, ok_result. intro H.
  destruct (stripped v) as [expr | e]; simpl in H.
  - destruct (String.eqb expr ""); simpl in H; [discriminate H |].
    destruct (Parser.ast_parse _) as [tree | e]; simpl in H.
    + destruct (_safe_eval_node P tree 0) as [r | e]; simpl in H.
      * injection H as <-.
        destruct r as [b | z | f | re im]; try discriminate.
        destruct f; simpl; discriminate.
      * destruct (is_Exception (exn_cls e)); discriminate H.
    + destruct (is_Exception (exn_cls e)); discriminate H.
  - destruct (is_Exception (exn_cls e)); discriminate H.
Qed.

Lemma no_negative_zero_witness :
  calculate Examples.example_platform (VStr "-0.0")
  = Ret (ok_result (VFloat (S754_zero false)))
  /\ VFloat (S754_zero false) <> VFloat (S754_zero true).
Proof.
  split; [reflexivity |].
  exact (no_negative_zero Examples.example_platform (VStr "-0.0")
           (VFloat (S754_zero false)) eq_refl).
Defined.

End CalculatorEdges.

(** ** The calculator: the caret is the power operator *)

Module CaretTheorems.
Import Calculator ArithSpec CalculatorFacts.

Lemma caret_cons (c : ascii) (r : string) :
  caret (String c r)
  = if Ascii.eqb c "^"%char then String "*" (String "*" (caret r))
    else String c (caret r).
Proof. unfold caret. simpl. destruct (Ascii.eqb c "^"); reflexivity. Qed.

Lemma caret_empty_iff (s : string) : caret s = "" <-> s = "".
Proof.
  split; [| intros ->; reflexivity].
  destruct s as [| c r]; [reflexivity |].
  rewrite caret_cons. destruct (Ascii.eqb c "^"); discriminate.
Qed.

Lemma caret_idempotent (s : string) : caret (caret s) = caret s.
Proof.
  induction s as [| c r IH]; [reflexivity |].
  rewrite caret_cons. destruct (Ascii.eqb c "^") eqn:Hc.
  - rewrite !caret_cons. simpl. rewrite IH. reflexivity.
  - rewrite caret_cons, Hc, IH. reflexivity.
Qed.

Lemma caret_is_not_space (c : ascii) :
  Ascii.eqb c "^" = true -> PyStr.is_space c = false.
Proof. intro H. apply Ascii.eqb_eq in H. subst c. reflexivity. Qed.

Lemma lstrip_caret (s : string) : PyStr.lstrip (caret s) = caret (PyStr.lstrip s).
Proof.
  induction s as [| c r IH]; [reflexivity |].
  rewrite caret_cons. destruct (Ascii.eqb c "^") eqn:Hc.
  - simpl PyStr.lstrip at 1.
    cbn [PyStr.lstrip]. rewrite (caret_is_not_space c Hc).
    rewrite caret_cons, Hc. reflexivity.
  - cbn [PyStr.lstrip]. destruct (PyStr.is_space c).
    + exact IH.
    + rewrite caret_cons, Hc. reflexivity.
Qed.

Lemma rstrip_cons (c : ascii) (r : string) :
  PyStr.rstrip (String c r)
  = match PyStr.rstrip r with
    | EmptyString => if PyStr.is_space c then EmptyString else String c EmptyString
    | r' => String c r'
    end.
Proof. reflexivity. Qed.

Lemma rstrip_caret (s : string) : PyStr.rstrip (caret s) = caret (PyStr.rstrip s).
Proof.
  induction s as [| c r IH]; [reflexivity |].
  rewrite caret_cons, (rstrip_cons c r).
  destruct (Ascii.eqb c "^") eqn:Hc.
  - rewrite (caret_is_not_space c Hc).
    rewrite (rstrip_cons "*" (String "*" (caret r))), (rstrip_cons "*" (caret r)), IH.
    destruct (PyStr.rstrip r) as [| c' r'] eqn:Hr.
    + simpl. rewrite caret_cons, Hc. reflexivity.
    + rewrite (caret_cons c), Hc, (caret_cons c' r').
      destruct (Ascii.eqb c' "^"); reflexivity.
  - rewrite (rstrip_cons c (caret r)), IH.
    destruct (PyStr.rstrip r) as [| c' r'] eqn:Hr.
    + simpl. destruct (PyStr.is_space c); [reflexivity |].
      rewrite caret_cons, Hc. reflexivity.
    + rewrite (caret_cons c), Hc, (caret_cons c' r').
      destruct (Ascii.eqb c' "^"); reflexivity.
Qed.

Lemma strip_caret (s : string) : PyStr.strip (caret s) = caret (PyStr.strip s).
Proof. unfold PyStr.strip. rewrite lstrip_caret, rstrip_caret. reflexivity. Qed.

(** Writing the power with [^] or with [**] makes no difference: a text and
    the text in which every [^] is replaced by [**] get the same answer from
    [calculate].  (So [^] is never the exclusive or.) *)
Theorem caret_is_power (P : Platform) (s : string) :
  calculate P (VStr (PyStr.replace_char "^"%char "**" s)) = calculate P (VStr s).
Proof.
  fold (caret s).
  assert (Hsrc : source_of (caret s) = source_of s).
  { unfold source_of. fold (caret (PyStr.strip (caret s))).
    fold (caret (PyStr.strip s)). rewrite strip_caret. apply caret_idempotent. }
  destruct (String.eqb_spec (PyStr.strip s) "") as [Hempty | Hne].
  - rewrite (calculate_blank_text P s Hempty).
    apply calculate_blank_text. rewrite strip_caret, Hempty. reflexivity.
  - rewrite (calculate_text P s Hne).
    rewrite calculate_text.
    + rewrite Hsrc. reflexivity.
    + rewrite strip_caret. intro H.
      exact (Hne (proj1 (caret_empty_iff _) H)).
Qed.

End CaretTheorems.

(** ** The dispatcher raises only what [except Exception] catches *)

Module DispatchCatchable.
Import Main.

(** Induction on values: a list or a dict has the property when its items
    have it. *)
Section PyvalInduction.
Variable Q : pyval -> Prop.
Hypothesis HNone : Q VNone.
Hypothesis HBool : forall b, Q (VBool b).
Hypothesis HInt : forall z, Q (VInt z).
Hypothesis HFloat : forall f, Q (VFloat f).
Hypothesis HComplex : forall re im, Q (VComplex re im).
Hypothesis HStr : forall s, Q (VStr s).
Hypothesis HList : forall items, Forall Q items -> Q (VList items).
Hypothesis HDict :
  forall items, Forall (fun kv => Q (snd kv)) items -> Q (VDict items).

Fixpoint pyval_induction (v : pyval) : Q v :=
  match v with
  | VNone => HNone
  | VBool b => HBool b
  | VInt z => HInt z
  | VFloat f => HFloat f
  | VComplex re im => HComplex re im
  | VStr s => HStr s
  | VList items =>
      HList items
        ((fix each (l : list pyval) : Forall Q l :=
            match l with
            | [] => Forall_nil Q
            | x :: rest => Forall_cons x (pyval_induction x) (each rest)
            end) items)
  | VDict items =>
      HDict items
        ((fix each (l : list (string * pyval))
            : Forall (fun kv => Q (snd kv)) l :=
            match l with
            | [] => Forall_nil _
            | kv :: rest =>
                Forall_cons kv (pyval_induction (snd kv)) (each rest)
            end) items)
  end.

End PyvalInduction.

Lemma sequence_catchable {A : Type} (l : list (outcome A)) :
  Forall catchable l -> catchable (Json.sequence l).
Proof.
  induction 1 as [| m rest Hm Hrest IH]; cbn [Json.sequence].
  - apply catchable_ret.
  - apply catchable_bind; [exact Hm | intro a].
    apply catchable_bind; [exact IH | intro b; apply catchable_ret].
Qed.

Lemma dumps_catchable (P : Platform) (v : pyval) : catchable (Json.dumps P v).
Proof.
  induction v as [| b | z | f | re im | s | items IH | items IH]
    using pyval_induction; cbn [Json.dumps].
  - apply catchable_ret.
  - destruct b; apply catchable_ret.
  - apply catchable_if; [apply catchable_raise; reflexivity | apply catchable_ret].
  - apply catchable_ret.
  - apply catchable_raise. reflexivity.
  - apply catchable_ret.
  - apply catchable_bind; [| intro; apply catchable_ret].
    apply sequence_catchable. apply Forall_map. exact IH.
  - apply catchable_bind; [| intro; apply catchable_ret].
    apply sequence_catchable. apply Forall_map.
    apply (Forall_impl _ (P := fun kv => catchable (Json.dumps P (snd kv)))); [| exact IH].
    intros kv Hkv. unfold Json.member.
    apply catchable_bind; [exact Hkv | intro; apply catchable_ret].
Qed.

Lemma catchable_retype {A B : Type} {e : exn} :
  catchable (@Raise A e) -> catchable (@Raise B e).
Proof. intros H e' He'. injection He' as <-. exact (H e eq_refl). Qed.

Lemma get_catchable (v : pyval) (key : string) : catchable (PyVal.get v key).
Proof. destruct v; cbn; auto with catchable. Qed.

Lemma get_default_catchable (v : pyval) (key : string) (d : pyval) :
  catchable (PyVal.get_default v key d).
Proof. destruct v; cbn; auto with catchable. Qed.

Lemma iterate_catchable (v : pyval) : catchable (iterate v).
Proof. destruct v; cbn; auto with catchable. Qed.

(** A [try] whose body raises only catchable exceptions and whose handler
    returns always returns. *)
Lemma try_except_returns {A : Type} (body : outcome A) (h : exn -> A) :
  catchable body ->
  exists a, try_except_Exception body (fun e => Ret (h e)) = Ret a.
Proof.
  intro Hb. destruct body as [a | e]; cbn.
  - eauto.
  - rewrite (Hb e eq_refl). eauto.
Qed.

Lemma parse_arguments_catchable (fc : pyval) : catchable (parse_arguments fc).
Proof.
  unfold parse_arguments.
  destruct (try_except_returns
              (a <- PyVal.get_default fc "arguments" (VStr "{}") ;; Json.loads a)
              (fun _ => VDict [])) as [a Ha].
  - apply catchable_bind; [apply get_default_catchable |].
    intro a. apply ArgumentsTheorems.loads_catchable.
  - rewrite Ha. apply catchable_ret.
Qed.

Lemma fallback_argument_catchable (arguments : pyval) :
  catchable (fallback_argument arguments).
Proof.
  unfold fallback_argument.
  apply catchable_bind; [apply get_catchable | intro e].
  apply catchable_if; [apply catchable_ret |].
  apply catchable_bind; [apply get_catchable | intro q].
  apply catchable_if; [apply catchable_ret | apply get_catchable].
Qed.

(** Every tool of the registry raises only catchable exceptions. *)
Definition catchable_registry (registry : list (string * capability)) : Prop :=
  forall (name : string) (f : capability),
    registry_get name registry = Some f -> forall args, catchable (f args).

Lemma invoke_catchable (f : capability) (arguments : pyval) :
  (forall args, catchable (f args)) -> catchable (invoke f arguments).
Proof.
  intro Hf. unfold invoke, try_except_TypeError.
  destruct (Signature.call_keywords f arguments) as [a | e] eqn:Hcall.
  - apply catchable_ret.
  - destruct (exn_class_eqb (exn_cls e) TypeError).
    + apply catchable_bind; [apply fallback_argument_catchable | intro x; apply Hf].
    + intros e' He'. injection He' as <-.
      unfold Signature.call_keywords in Hcall.
      destruct arguments; try (injection Hcall as <-; reflexivity).
      exact (Hf _ e Hcall).
Qed.

Section WithRegistry.
Variable P : Platform.
Variable registry : list (string * capability).
Hypothesis Hregistry : catchable_registry registry.

Lemma entry_result_catchable (name arguments : pyval) :
  catchable (entry_result P registry name arguments).
Proof.
  unfold entry_result, registry_find.
  destruct name; cbn [bind]; try apply catchable_ret;
    try (apply catchable_raise; reflexivity).
  destruct (registry_get s registry) as [f |] eqn:Hf.
  - apply invoke_catchable. exact (Hregistry s f Hf).
  - apply catchable_ret.
Qed.

Lemma create_response_catchable (id name result : pyval) :
  catchable (_create_function_call_response P id name result).
Proof.
  unfold _create_function_call_response.
  apply catchable_bind; [apply dumps_catchable | intro; apply catchable_ret].
Qed.

Lemma entry_reply_catchable (fc : pyval) (L : locals) :
  catchable (fst (entry_reply P registry fc L)).
Proof.
  unfold entry_reply.
  destruct (PyVal.get fc "name") as [name | e] eqn:Hn.
  - destruct (PyVal.get fc "id") as [id | e] eqn:Hi; cbn [fst].
    + apply catchable_bind; [apply parse_arguments_catchable | intro a].
      apply catchable_bind; [apply entry_result_catchable | intro r].
      apply catchable_bind; [apply create_response_catchable | intro x].
      apply dumps_catchable.
    + intros e' He'. injection He' as <-. exact (get_catchable fc "id" e Hi).
  - cbn [fst]. intros e' He'. injection He' as <-.
    exact (get_catchable fc "name" e Hn).
Qed.

Lemma send_catchable (ws : socket) (msg : string) : catchable (fst (send ws msg)).
Proof.
  unfold send. destruct (closed ws); cbn [fst].
  - apply catchable_raise. reflexivity.
  - apply catchable_ret.
Qed.

Lemma dispatch_loop_catchable (entries : list pyval) :
  forall (L : locals) (ws : socket),
    catchable (fst (fst (dispatch_loop P registry entries L ws))).
Proof.
  induction entries as [| fc rest IH]; intros L ws; cbn [dispatch_loop].
  - apply catchable_ret.
  - pose proof (entry_reply_catchable fc L) as Hreply.
    destruct (entry_reply P registry fc L) as [[msg | e] L']; cbn [fst] in *.
    + pose proof (send_catchable ws msg) as Hsend.
      destruct (send ws msg) as [[u | e] ws']; cbn [fst] in *.
      * apply IH.
      * exact Hsend.
    + exact (catchable_retype Hreply).
Qed.

Lemma failure_reply_catchable (e : exn) (L : locals) :
  catchable (failure_reply P e L).
Proof.
  unfold failure_reply.
  apply catchable_bind; [apply create_response_catchable | intro x].
  apply dumps_catchable.
Qed.

Lemma handler_catchable (e : exn) (L : locals) (ws : socket) :
  catchable (fst (match failure_reply P e L with
                  | Raise e' => (Raise e', ws)
                  | Ret msg => send ws msg
                  end)).
Proof.
  pose proof (failure_reply_catchable e L) as Hf.
  destruct (failure_reply P e L) as [msg | e']; cbn [fst].
  - apply send_catchable.
  - exact (catchable_retype Hf).
Qed.

Lemma handle_catchable (decoded : pyval) (ws : socket) :
  catchable (fst (_handle_function_call_request P registry decoded ws)).
Proof.
  unfold _handle_function_call_request.
  pose proof (catchable_bind
                (PyVal.get_default decoded "functions" (VList [])) iterate
                (get_default_catchable decoded "functions" (VList []))
                iterate_catchable) as Hit.
  destruct (fs <- PyVal.get_default decoded "functions" (VList []) ;; iterate fs)
    as [entries | e].
  - pose proof (dispatch_loop_catchable entries no_locals ws) as Hloop.
    destruct (dispatch_loop P registry entries no_locals ws) as [[[u | e] L] ws1];
      cbn [fst] in *.
    + apply catchable_ret.
    + rewrite (Hloop e eq_refl). apply handler_catchable.
  - rewrite (Hit e eq_refl). apply handler_catchable.
Qed.

End WithRegistry.
End DispatchCatchable.

(** ** The tools return their failures *)

Module ToolsReturn.
Import PlaidTool.

(** The Plaid service and the file system raise only exceptions that derive
    from [Exception]. *)
Definition catchable_backend (B : Backend) : Prop :=
  (forall c friendly token, catchable (balances B c friendly token))
  /\ (forall c selected start_date end_date,
         catchable (transactions B c selected start_date end_date)).

Lemma init_plaid_client_catchable (E : Env) : catchable (_init_plaid_client E).
Proof.
  unfold _init_plaid_client.
  apply catchable_if; [apply catchable_raise; reflexivity |].
  destruct (nonempty (getenv E "PLAID_CLIENT_ID")),
           (nonempty (getenv E "PLAID_SECRET"));
    auto with catchable.
Qed.

Lemma resolve_selected_accounts_catchable (E : Env) (account_names : pyval) :
  catchable (_resolve_selected_accounts E account_names).
Proof.
  unfold _resolve_selected_accounts.
  apply catchable_bind.
  - destruct account_names; auto with catchable.
    destruct (_normalize_account_name s); auto with catchable.
    destruct (String.eqb s0 "all"); auto with catchable.
    destruct (lookup_token E s0); auto with catchable.
  - intros [| x rest]; auto with catchable.
Qed.

Lemma normalized_request_type_catchable (request_type : pyval) :
  catchable (normalized_request_type request_type).
Proof.
  unfold normalized_request_type.
  destruct (PyVal.por request_type (VStr "")); auto with catchable.
Qed.

Lemma balance_summaries_returns (B : Backend) (c : client)
                                (selected : list (string * string)) :
  (forall friendly token, catchable (balances B c friendly token)) ->
  exists lines, balance_summaries B c selected = Ret lines
                /\ List.length lines = List.length selected.
Proof.
  intro HB. induction selected as [| [friendly token] rest [lines [IH Hlen]]].
  - exists []. split; reflexivity.
  - cbn [balance_summaries].
    destruct (DispatchCatchable.try_except_returns
                (balances B c friendly token)
                (fun e => (title B friendly ++ ": error fetching balances: "
                           ++ exn_msg e)%string)
                (HB friendly token)) as [line Hline].
    rewrite Hline, IH. cbn [bind].
    exists (line :: lines). split; [reflexivity | simpl; rewrite Hlen; reflexivity].
Qed.

(** [get_financial_info] never raises as long as the Plaid service raises
    only exceptions that derive from [Exception]: it always returns a value,
    its failures being returned as data. *)
Lemma get_financial_info_returns (E : Env) (B : Backend)
      (account_names request_type start_date end_date : pyval) :
  catchable_backend B ->
  exists v, get_financial_info E B account_names request_type start_date end_date
            = Ret v.
Proof.
  intros [Hbal Htx]. unfold get_financial_info.
  apply DispatchCatchable.try_except_returns
    with (h := fun e => VDict [("error", VStr (exn_msg e))]).
  apply catchable_bind; [apply init_plaid_client_catchable | intro c].
  apply catchable_bind; [apply resolve_selected_accounts_catchable | intro sel].
  apply catchable_bind; [apply normalized_request_type_catchable | intro rtype].
  apply catchable_if; [apply catchable_ret |].
  apply catchable_if; [| apply Htx].
  destruct (balance_summaries_returns B c sel (Hbal c)) as [lines [Hl _]].
  rewrite Hl. apply catchable_ret.
Qed.

Lemma bind_args_catchable (fname : string) (required optional : list string)
                          (args : call_args) :
  catchable (Signature.bind_args fname required optional args).
Proof.
  unfold Signature.bind_args. destruct args as [kw | v].
  - destruct (filter _ kw) as [| [k x] rest]; [| apply catchable_raise; reflexivity].
    destruct (filter _ required);
      [apply catchable_ret | apply catchable_raise; reflexivity].
  - destruct (required ++ optional)%list; [apply catchable_raise; reflexivity |].
    destruct (skipn 1 required);
      [apply catchable_ret | apply catchable_raise; reflexivity].
Qed.

Lemma returns_catchable {A : Type} (m : outcome A) :
  (exists a, m = Ret a) -> catchable m.
Proof. intros [a ->]. apply catchable_ret. Qed.

(** The registry of [function_mapper.py] raises only catchable
    exceptions. *)
Lemma function_map_catchable (W : World) :
  catchable_backend (backend W) ->
  DispatchCatchable.catchable_registry (FunctionMapper.FUNCTION_MAP W).
Proof.
  intros HB name f Hf args. unfold FunctionMapper.FUNCTION_MAP in Hf.
  cbn [Main.registry_get] in Hf.
  destruct (String.eqb "calculate" name).
  - injection Hf as <-. unfold FunctionMapper.calculate.
    apply catchable_bind; [apply bind_args_catchable | intro bound].
    destruct bound as [| x [| y rest]]; try (apply catchable_raise; reflexivity).
    apply returns_catchable.
    destruct (CalculatorFacts.calculate_returns (platform W) x) as [k [v [H _]]].
    eauto.
  - destruct (String.eqb "get_financial_info" name); [| discriminate Hf].
    injection Hf as <-. unfold FunctionMapper.get_financial_info.
    apply catchable_bind; [apply bind_args_catchable | intro bound].
    destruct bound as [| a [| b [| c [| d [| x rest]]]]];
      try (apply catchable_raise; reflexivity).
    apply returns_catchable. apply get_financial_info_returns. exact HB.
Qed.

End ToolsReturn.

(** ** The text branch of the receive loop never fails *)

Module RelayTheorems.
Import Main DispatchCatchable.

Lemma on_text_message_returns (P : Platform) (registry : list (string * capability))
                              (message : string) (ws : socket) :
  catchable_registry registry ->
  fst (on_text_message P registry message ws) = Ret tt.
Proof.
  intro Hreg. unfold on_text_message.
  destruct (Json.loads (VStr message)) as [decoded | e] eqn:Hl.
  - destruct (PyVal.get decoded "type") as [t | e] eqn:Ht.
    + destruct t; try reflexivity.
      destruct (String.eqb s "FunctionCallRequest"); [| reflexivity].
      pose proof (handle_catchable P registry Hreg decoded ws) as Hh.
      destruct (_handle_function_call_request P registry decoded ws)
        as [[[] | e] ws']; cbn [fst] in *.
      * reflexivity.
      * rewrite (Hh e eq_refl). reflexivity.
    + rewrite (get_catchable decoded "type" e Ht). reflexivity.
  - rewrite (ArgumentsTheorems.loads_catchable _ e Hl). reflexivity.
Qed.

(** Whatever text the remote agent sends, the text branch of
    [audio_receiver] returns normally, so the receive loop goes on: a text
    that is not JSON, a message of another shape and every failure of the
    dispatcher are dropped.  (The Plaid service is assumed to raise only
    exceptions that derive from [Exception].) *)
Theorem text_messages_never_stop_the_relay (W : World) (message : string)
                                           (ws : socket) :
  ToolsReturn.catchable_backend (backend W) ->
  fst (handle_text W message ws) = Ret tt.
Proof.
  intro HB. unfold handle_text.
  apply on_text_message_returns. apply ToolsReturn.function_map_catchable.
  exact HB.
Qed.

Lemma example_backend_catchable :
  ToolsReturn.catchable_backend (backend Examples.example_world).
Proof.
  split; intros; apply catchable_raise; reflexivity.
Qed.

Lemma text_messages_never_stop_the_relay_witness :
  fst (handle_text Examples.example_world "not json at all"
         {| closed := true; sent := [] |})
  = Ret tt.
Proof.
  exact (text_messages_never_stop_the_relay Examples.example_world
           "not json at all" {| closed := true; sent := [] |}
           example_backend_catchable).
Defined.

(** A text that is not JSON, or that does not decode to an object whose
    [type] is [FunctionCallRequest], is dropped: nothing is sent.  (The text
    is one that [Json.loads] reads as [json.loads] does.) *)
Theorem other_messages_are_ignored (P : Platform)
        (registry : list (string * capability)) (message : string) (ws : socket) :
  JsonSpec.within_model message = true ->
  (forall decoded, Json.loads (VStr message) = Ret decoded ->
                   PyVal.get decoded "type" <> Ret (VStr "FunctionCallRequest")) ->
  on_text_message P registry message ws = (Ret tt, ws).
Proof.
  intros _ Hother. unfold on_text_message.
  destruct (Json.loads (VStr message)) as [decoded | e] eqn:Hl.
  - specialize (Hother decoded eq_refl).
    destruct (PyVal.get decoded "type") as [t | e] eqn:Ht.
    + destruct t; try reflexivity.
      destruct (String.eqb_spec s "FunctionCallRequest") as [-> | Hne];
        [contradiction Hother; reflexivity | reflexivity].
    + rewrite (get_catchable decoded "type" e Ht). reflexivity.
  - rewrite (ArgumentsTheorems.loads_catchable _ e Hl). reflexivity.
Qed.

Lemma other_messages_are_ignored_witness :
  on_text_message Examples.example_platform
    (FunctionMapper.FUNCTION_MAP Examples.example_world)
    (Examples.json_text "{'type':'Welcome','functions':[{'id':'1','name':'calculate'}]}")
    Examples.open_socket
  = (Ret tt, Examples.open_socket).
Proof.
  apply other_messages_are_ignored; [reflexivity |].
  intros decoded H. vm_compute in H. injection H as <-. discriminate.
Defined.

End RelayTheorems.

(** ** The financial tool: failures and balances *)

Module PlaidReports.
Import PlaidTool ToolsReturn.

(** The line of one account in the balances report: its summary, or the
    report of the failure to fetch it. *)
Definition balance_line (B : Backend) (c : client) (account : string * string)
  : string :=
  match balances B c (fst account) (snd account) with
  | Ret summary => summary
  | Raise e => title B (fst account) ++ ": error fetching balances: " ++ exn_msg e
  end.

Lemma balance_summaries_lines (B : Backend) (c : client)
                              (selected : list (string * string)) :
  (forall friendly token, catchable (balances B c friendly token)) ->
  balance_summaries B c selected = Ret (map (balance_line B c) selected).
Proof.
  intro HB. induction selected as [| [friendly token] rest IH].
  - reflexivity.
  - cbn [balance_summaries map]. rewrite IH. unfold balance_line. cbn [fst snd].
    destruct (balances B c friendly token) as [summary | e] eqn:Hb; cbn.
    + reflexivity.
    + rewrite (HB friendly token e Hb). reflexivity.
Qed.

(** For a request type that is [balance] or [balances] (in any case, with
    white space around it), once the client is initialised and the accounts
    are resolved, the answer is one block per selected account, in order,
    joined by blank lines: the summary of the account, or a line reporting
    that fetching it failed.  The failure of one account leaves the blocks of
    the others as they are. *)
Theorem balances_report (E : Env) (B : Backend)
        (account_names start_date end_date : pyval) (s : string)
        (c : client) (selected : list (string * string)) :
  (forall friendly token, catchable (balances B c friendly token)) ->
  _init_plaid_client E = Ret c ->
  _resolve_selected_accounts E account_names = Ret selected ->
  PyStr.mem (PyStr.lower (PyStr.strip s)) ["balance"; "balances"] = true ->
  get_financial_info E B account_names (VStr s) start_date end_date
  = Ret (VStr (PyStr.join (Json.chr 10 ++ Json.chr 10)
                 (map (balance_line B c) selected))).
Proof.
  intros HB Hinit Hres Hmem.
  unfold get_financial_info.
  rewrite Hinit, Hres, PlaidTheorems.request_type_of_text. cbn [bind].
  rewrite Hmem.
  replace (PyStr.mem (PyStr.lower (PyStr.strip s))
             ["balance"; "balances"; "transactions"; "txns"; "txn"])
    with true.
  - cbn [negb]. rewrite (balance_summaries_lines B c selected HB). reflexivity.
  - symmetry. unfold PyStr.mem in *. cbn [existsb] in *.
    destruct (String.eqb _ "balance"); [reflexivity |].
    destruct (String.eqb _ "balances"); [reflexivity | discriminate Hmem].
Qed.

Lemma balances_report_witness :
  get_financial_info Examples.linked_env Examples.canned_backend
    (VList [VStr "pnc"; VStr "PNC Bank"; VStr "chase"]) (VStr " Balances ")
    VNone VNone
  = Ret (VStr "pnc: no accounts").
Proof.
  apply (balances_report Examples.linked_env Examples.canned_backend
           (VList [VStr "pnc"; VStr "PNC Bank"; VStr "chase"]) VNone VNone
           " Balances "
           {| host := "Sandbox"; client_id := "client"; secret := "secret" |}
           [("pnc", "access-pnc")]).
  - intros friendly token. apply catchable_ret.
  - reflexivity.
  - reflexivity.
  - reflexivity.
Defined.

(** When the Plaid service raises only exceptions that derive from
    [Exception], [get_financial_info] never raises: it returns a value, and
    the failure to initialise the client or to resolve an account is returned
    as [{"error": message}] with the message of that failure. *)
Theorem financial_failures_are_returned (E : Env) (B : Backend)
        (account_names request_type start_date end_date : pyval) :
  catchable_backend B ->
  (exists v, get_financial_info E B account_names request_type start_date end_date
             = Ret v)
  /\ (forall e, _init_plaid_client E = Raise e ->
                get_financial_info E B account_names request_type start_date end_date
                = Ret (VDict [("error", VStr (exn_msg e))]))
  /\ (forall c e, _init_plaid_client E = Ret c ->
                  _resolve_selected_accounts E account_names = Raise e ->
                  get_financial_info E B account_names request_type start_date end_date
                  = Ret (VDict [("error", VStr (exn_msg e))])).
Proof.
  intro HB. split; [apply get_financial_info_returns; exact HB | split].
  - intros e He. unfold get_financial_info. rewrite He. cbn.
    rewrite (init_plaid_client_catchable E e He). reflexivity.
  - intros c e Hc He. unfold get_financial_info. rewrite Hc, He. cbn.
    rewrite (resolve_selected_accounts_catchable E account_names e He).
    reflexivity.
Qed.

Lemma financial_failures_are_returned_witness :
  get_financial_info Examples.linked_env Examples.no_backend
    (VStr "chase") (VStr "balance") VNone VNone
  = Ret (VDict [("error",
                 VStr ("No accounts resolved. Allowed names: ally, discover, huntington, pnc. "
                       ++ "Tokens present for: pnc. Use 'all' to include all with tokens."))]).
Proof.
  apply (proj2 (proj2 (financial_failures_are_returned
                         Examples.linked_env Examples.no_backend
                         (VStr "chase") (VStr "balance") VNone VNone
                         RelayTheorems.example_backend_catchable))
           {| host := "Sandbox"; client_id := "client"; secret := "secret" |}
           (Exn ValueError
              ("No accounts resolved. Allowed names: ally, discover, huntington, pnc. "
               ++ "Tokens present for: pnc. Use 'all' to include all with tokens."))).
  - reflexivity.
  - reflexivity.
Defined.

End PlaidReports.

(** ** The dispatcher: how many replies, and under which id *)

Module ReplyCount.
Import Main DispatchSpec.

(** The entries of a request, as the loop iterates over them; none when the
    request cannot be iterated. *)
Definition entries_of (decoded : pyval) : list pyval :=
  match (fs <- PyVal.get_default decoded "functions" (VList []) ;; iterate fs) with
  | Ret entries => entries
  | Raise _ => []
  end.

Lemma send_appends (ws : socket) (msg : string) :
  closed (snd (send ws msg)) = closed ws
  /\ match fst (send ws msg) with
     | Ret _ => sent (snd (send ws msg)) = (sent ws ++ [msg])%list
     | Raise _ => snd (send ws msg) = ws
     end.
Proof.
  unfold send. destruct (closed ws) eqn:Hc; cbn; rewrite ?Hc; split; reflexivity.
Qed.

Section WithRegistry.
Variable P : Platform.
Variable registry : list (string * capability).

Lemma dispatch_loop_sent (entries : list pyval) :
  forall (L : locals) (ws : socket),
    closed (snd (dispatch_loop P registry entries L ws)) = closed ws
    /\ exists msgs,
         sent (snd (dispatch_loop P registry entries L ws)) = (sent ws ++ msgs)%list
         /\ match fst (fst (dispatch_loop P registry entries L ws)) with
            | Ret _ => List.length msgs = List.length entries
            | Raise _ => (List.length msgs < List.length entries)%nat
            end.
Proof.
  induction entries as [| fc rest IH]; intros L ws; cbn [dispatch_loop].
  - split; [reflexivity |]. exists []. rewrite app_nil_r. split; reflexivity.
  - destruct (entry_reply P registry fc L) as [[msg | e] L'].
    + pose proof (send_appends ws msg) as [Hclosed Hsent].
      destruct (send ws msg) as [[u | e] ws']; cbn [fst snd] in *.
      * destruct (IH L' ws') as [Hc [msgs [Hs Hn]]].
        split; [rewrite Hc; exact Hclosed |].
        exists (msg :: msgs). split.
        -- rewrite Hs, Hsent, <- app_assoc. reflexivity.
        -- destruct (fst (fst (dispatch_loop P registry rest L' ws')));
             simpl; lia.
      * subst ws'. split; [reflexivity |].
        exists []. rewrite app_nil_r. split; [reflexivity | simpl; lia].
    + cbn [fst snd]. split; [reflexivity |].
      exists []. rewrite app_nil_r. split; [reflexivity | simpl; lia].
Qed.

Lemma handler_sent (e : exn) (L : locals) (ws : socket) :
  let r := match failure_reply P e L with
           | Raise e' => (Raise e', ws)
           | Ret msg => send ws msg
           end in
  closed (snd r) = closed ws
  /\ exists msgs, sent (snd r) = (sent ws ++ msgs)%list
                  /\ (List.length msgs <= 1)%nat.
Proof.
  cbv zeta. destruct (failure_reply P e L) as [msg | e'].
  - pose proof (send_appends ws msg) as [Hclosed Hsent].
    split; [exact Hclosed |].
    destruct (send ws msg) as [[u | e'] ws']; cbn [fst snd] in *.
    + exists [msg]. split; [exact Hsent | simpl; lia].
    + subst ws'. exists []. rewrite app_nil_r. split; [reflexivity | simpl; lia].
  - cbn [snd]. split; [reflexivity |].
    exists []. rewrite app_nil_r. split; [reflexivity | simpl; lia].
Qed.

End WithRegistry.

(** The dispatcher only appends to what was sent: the messages sent before
    stay as they are, the connection is neither opened nor closed, and a
    request gets at most one reply per entry (and at most one reply when it
    has no entry or cannot be iterated). *)
Theorem replies_are_appended (P : Platform) (registry : list (string * capability))
                             (decoded : pyval) (ws : socket) :
  let after := snd (_handle_function_call_request P registry decoded ws) in
  closed after = closed ws
  /\ exists msgs,
       sent after = (sent ws ++ msgs)%list
       /\ (List.length msgs <= Nat.max 1 (List.length (entries_of decoded)))%nat.
Proof.
  cbv zeta. unfold _handle_function_call_request, entries_of.
  destruct (fs <- PyVal.get_default decoded "functions" (VList []) ;; iterate fs)
    as [entries | e].
  - destruct (dispatch_loop_sent P registry entries no_locals ws)
      as [Hc [msgs [Hs Hn]]].
    destruct (dispatch_loop P registry entries no_locals ws) as [[[u | e] L] ws1];
      cbn [fst snd] in *.
    + split; [exact Hc |]. exists msgs. split; [exact Hs | lia].
    + destruct (is_Exception (exn_cls e)).
      * destruct (handler_sent P e L ws1) as [Hc' [more [Hs' Hn']]].
        cbv zeta in Hc', Hs'.
        split; [rewrite Hc'; exact Hc |].
        exists (msgs ++ more)%list. split.
        -- rewrite Hs', Hs, app_assoc. reflexivity.
        -- rewrite length_app. lia.
      * cbn [snd]. split; [exact Hc |]. exists msgs. split; [exact Hs | lia].
  - destruct (is_Exception (exn_cls e)).
    + destruct (handler_sent P e no_locals ws) as [Hc' [more [Hs' Hn']]].
      cbv zeta in Hc', Hs'.
      split; [exact Hc' |]. exists more. split; [exact Hs' | simpl; lia].
    + cbn [snd]. split; [reflexivity |].
      exists []. rewrite app_nil_r. split; [reflexivity | simpl; lia].
Qed.

(** An entry that is not an object (a number, a string, a list) makes the
    dispatcher report the failure under the id and name of the entry answered
    just before it, since the handler reads the loop's variables; when it is
    the first entry, the placeholders [unknown] are used. *)
Theorem malformed_entry_reuses_previous_id
    (P : Platform) (registry : list (string * capability))
    (pre post : list pyval) (fc : pyval) (L1 : locals) (ws ws1 : socket)
    (i n : string) :
  dispatch_loop P registry pre no_locals ws = (Ret tt, L1, ws1) ->
  closed ws1 = false ->
  (forall items, fc <> VDict items) ->
  local_or_unknown (func_id L1) = VStr i ->
  local_or_unknown (func_name L1) = VStr n ->
  _handle_function_call_request P registry (request (pre ++ fc :: post)) ws
  = (Ret tt,
     {| closed := false;
        sent := (sent ws1 ++
                 [reply_text i n
                    (error_text ("Function call failed: '" ++ PyVal.type_name fc
                                 ++ "' object has no attribute 'get'"))])%list |}).
Proof.
  intros Hpre Hopen Hfc Hi Hn.
  unfold _handle_function_call_request, request.
  cbn [PyVal.get_default PyVal.lookup String.eqb Ascii.eqb Bool.eqb bind iterate].
  rewrite DispatchFacts.dispatch_loop_app, Hpre. cbn [dispatch_loop].
  assert (Hget : PyVal.get fc "name"
                 = raise AttributeError
                     ("'" ++ PyVal.type_name fc ++ "' object has no attribute 'get'")).
  { destruct fc; try reflexivity. exfalso. exact (Hfc items eq_refl). }
  unfold entry_reply. rewrite Hget. unfold raise. cbn [is_Exception exn_cls
    exn_class_eqb negb exn_msg].
  unfold failure_reply. rewrite Hi, Hn. cbn [exn_msg].
  change (VDict [("error",
                  VStr ("Function call failed: " ++
                        "'" ++ PyVal.type_name fc ++ "' object has no attribute 'get'"))])
    with (VDict (JsonSpec.smap
                   [("error", "Function call failed: " ++
                              "'" ++ PyVal.type_name fc
                              ++ "' object has no attribute 'get'")])).
  rewrite DispatchFacts.create_response_text, (DispatchFacts.send_open ws1 _ Hopen).
  reflexivity.
Qed.

Lemma malformed_entry_reuses_previous_id_witness :
  _handle_function_call_request Examples.example_platform
    (FunctionMapper.FUNCTION_MAP Examples.example_world)
    (request ([entry "7" "nope" "{}"] ++ VInt 5 :: []))
    Examples.open_socket
  = (Ret tt,
     {| closed := false;
        sent := ([reply_text "7" "nope" (error_text "Unknown function: nope")] ++
                 [reply_text "7" "nope"
                    (error_text ("Function call failed: '" ++ PyVal.type_name (VInt 5)
                                 ++ "' object has no attribute 'get'"))])%list |}).
Proof.
  apply (malformed_entry_reuses_previous_id Examples.example_platform
           (FunctionMapper.FUNCTION_MAP Examples.example_world)
           [entry "7" "nope" "{}"] [] (VInt 5)
           {| func_name := Some (VStr "nope"); func_id := Some (VStr "7") |}
           Examples.open_socket
           {| closed := false;
              sent := [reply_text "7" "nope" (error_text "Unknown function: nope")] |}
           "7" "nope").
  - vm_compute. reflexivity.
  - reflexivity.
  - intros items H. discriminate H.
  - reflexivity.
  - reflexivity.
Defined.

End ReplyCount.

(** ** Which accounts a request selects *)

Module AccountSelection.
Import PlaidTool.

Lemma functional_keys (l : list (string * string)) :
  NoDup (map fst l) ->
  forall k v1 v2, In (k, v1) l -> In (k, v2) l -> v1 = v2.
Proof.
  induction l as [| [k0 v0] l IH]; intros Hnd k v1 v2 H1 H2; [destruct H1 |].
  simpl in Hnd. inversion Hnd as [| x xs Hnotin Hnd']; subst.
  destruct H1 as [H1 | H1], H2 as [H2 | H2].
  - congruence.
  - injection H1 as -> ->. exfalso. apply Hnotin.
    apply (in_map fst) in H2. exact H2.
  - injection H2 as -> ->. exfalso. apply Hnotin.
    apply (in_map fst) in H1. exact H1.
  - exact (IH Hnd' k v1 v2 H1 H2).
Qed.

Lemma NoDup_snoc (l : list string) (x : string) :
  NoDup l -> ~ In x l -> NoDup (l ++ [x]).
Proof.
  induction l as [| y l IH]; intros Hnd Hx; simpl.
  - constructor; [intros [] | constructor].
  - inversion Hnd as [| y' l' Hy Hnd']; subst. constructor.
    + rewrite in_app_iff. intros [H | [H | []]]; [exact (Hy H) |].
      apply Hx. left. symmetry. exact H.
    + apply IH; [exact Hnd' |]. intros H. apply Hx. right. exact H.
Qed.

Section WithEnv.
Variable E : Env.

(** A selected account is linked: its name is one of the table, and its
    token is the value, not empty, of the variable the table gives. *)
Definition linked (account : string * string) : Prop :=
  exists env_key,
    In (fst account, env_key) FRIENDLY_TO_ENV
    /\ getenv E env_key = Some (snd account)
    /\ snd account <> "".

Lemma available_linked (account : string * string) :
  In account (available E) -> linked account.
Proof.
  unfold available. rewrite in_flat_map. intros [[f k] [Hin H]]. simpl in H.
  destruct (getenv E k) as [t |] eqn:Hget; [| destruct H].
  destruct (String.eqb t "") eqn:Ht; [destruct H |].
  destruct H as [<- | []]. exists k. simpl.
  split; [exact Hin |]. split; [exact Hget |]. apply String.eqb_neq. exact Ht.
Qed.

Lemma available_distinct : NoDup (map fst (available E)).
Proof.
  unfold available, FRIENDLY_TO_ENV. cbn [flat_map fst snd].
  destruct (getenv E "PLAID_ACCESS_TOKEN_DISCOVER") as [t1 |];
    [destruct (String.eqb t1 "") |];
    (destruct (getenv E "PLAID_ACCESS_TOKEN_HUNTINGTON") as [t2 |];
       [destruct (String.eqb t2 "") |]);
    (destruct (getenv E "PLAID_ACCESS_TOKEN_ALLY") as [t3 |];
       [destruct (String.eqb t3 "") |]);
    (destruct (getenv E "PLAID_ACCESS_TOKEN_PNC") as [t4 |];
       [destruct (String.eqb t4 "") |]);
    simpl;
    repeat (apply NoDup_cons; [cbn [In]; intuition discriminate |]);
    apply NoDup_nil.
Qed.

Lemma lookup_token_available (friendly token : string) :
  lookup_token E friendly = Some token -> In (friendly, token) (available E).
Proof.
  unfold lookup_token.
  destruct (find (fun ft => String.eqb (fst ft) friendly) (available E))
    as [[f t] |] eqn:Hfind; [| discriminate].
  intros [= <-]. apply find_some in Hfind. destruct Hfind as [Hin Heq].
  simpl in Heq. apply String.eqb_eq in Heq. subst f. exact Hin.
Qed.

(** What the loop keeps true of the accounts resolved so far. *)
Definition sound (resolved : list (string * string)) : Prop :=
  NoDup (map fst resolved) /\ incl resolved (available E).

Lemma available_sound : sound (available E).
Proof. split; [exact available_distinct | apply incl_refl]. Qed.

Lemma resolve_names_sound (names : list pyval) :
  forall resolved, sound resolved -> sound (resolve_names E names resolved).
Proof.
  induction names as [| n rest IH]; intros resolved Hs; cbn [resolve_names];
    [exact Hs |].
  destruct (normalize_item n) as [norm |]; [| exact (IH _ Hs)].
  destruct (String.eqb norm "all"); [exact available_sound |].
  destruct (lookup_token E norm) as [token |] eqn:Hlook; [| exact (IH _ Hs)].
  destruct (existsb (pair_eqb (norm, token)) resolved) eqn:Hex;
    [exact (IH _ Hs) |].
  apply IH. destruct Hs as [Hnd Hincl].
  pose proof (lookup_token_available _ _ Hlook) as Hin.
  split.
  - rewrite map_app. cbn [map fst]. apply NoDup_snoc; [exact Hnd |].
    intros Hmem. apply in_map_iff in Hmem. destruct Hmem as [[f t] [Hf Hft]].
    simpl in Hf. subst f.
    assert (t = token)
      by exact (functional_keys _ available_distinct norm t token
                  (Hincl _ Hft) Hin).
    subst t.
    assert (Htrue : existsb (pair_eqb (norm, token)) resolved = true).
    { apply existsb_exists. exists (norm, token). split; [exact Hft |].
      unfold pair_eqb. simpl. rewrite !String.eqb_refl. reflexivity. }
    rewrite Htrue in Hex. discriminate Hex.
  - apply incl_app; [exact Hincl |]. intros p [<- | []]. exact Hin.
Qed.

Lemma nil_sound : sound [].
Proof. split; [constructor | intros p []]. Qed.

Lemma normalize_all (s : string) :
  PyStr.lower (PyStr.strip s) = "all" -> _normalize_account_name s = Some "all".
Proof.
  intros H. unfold _normalize_account_name.
  destruct s as [| c r]; [vm_compute in H; discriminate H |].
  cbn [String.eqb]. rewrite H. reflexivity.
Qed.

Lemma resolve_names_all (pre post : list pyval) (s : string) :
  PyStr.lower (PyStr.strip s) = "all" ->
  forall resolved,
    resolve_names E (pre ++ VStr s :: post) resolved = available E.
Proof.
  intros Hs. induction pre as [| n pre IH]; intros resolved.
  - rewrite app_nil_l. cbn [resolve_names normalize_item].
    rewrite (normalize_all _ Hs). reflexivity.
  - rewrite <- app_comm_cons. cbn [resolve_names].
    destruct (normalize_item n) as [norm |]; [| apply IH].
    destruct (String.eqb norm "all"); [reflexivity |].
    destruct (lookup_token E norm) as [token |]; [| apply IH].
    destruct (existsb (pair_eqb (norm, token)) resolved); apply IH.
Qed.

End WithEnv.

(** What [_resolve_selected_accounts] returns is never empty, names no account
    twice, and holds only linked accounts: each name is one of the four of
    [FRIENDLY_TO_ENV] and comes with the token, not empty, that the
    environment holds for it.  This is so whatever is asked for: a string, a
    list with unknown names or with values that are no strings, [all]. *)
Theorem selected_accounts_are_linked (E : Env) (account_names : pyval)
                                     (selected : list (string * string)) :
  _resolve_selected_accounts E account_names = Ret selected ->
  selected <> []
  /\ NoDup (map fst selected)
  /\ (forall account, In account selected -> linked E account).
Proof.
  intros H.
  assert (Hgen : forall r : outcome (list (string * string)),
            (forall l, r = Ret l -> sound E l) ->
            (resolved <- r ;;
             match resolved with
             | [] => raise ValueError (no_accounts_message E)
             | _ => Ret resolved
             end) = Ret selected ->
            selected <> [] /\ sound E selected).
  { intros [l | e] Hl Heq; [| discriminate Heq]. cbn [bind] in Heq.
    destruct l as [| a l]; [discriminate Heq |].
    injection Heq as <-. split; [discriminate |]. exact (Hl _ eq_refl). }
  unfold _resolve_selected_accounts in H.
  apply Hgen in H.
  - destruct H as [Hne [Hnd Hincl]]. split; [exact Hne |].
    split; [exact Hnd |]. intros account Hin.
    apply available_linked. exact (Hincl _ Hin).
  - intros l Hl. destruct account_names; try discriminate Hl.
    + destruct (_normalize_account_name s) as [norm |].
      * destruct (String.eqb norm "all").
        -- injection Hl as <-. apply available_sound.
        -- destruct (lookup_token E norm) as [token |] eqn:Hlook;
             injection Hl as <-; [| apply nil_sound].
           split; [repeat constructor; intros [] |].
           intros p [<- | []]. exact (lookup_token_available _ _ _ Hlook).
      * injection Hl as <-. apply nil_sound.
    + injection Hl as <-. apply resolve_names_sound, nil_sound.
    + injection Hl as <-. apply resolve_names_sound, nil_sound.
Qed.

Lemma selected_accounts_are_linked_witness :
  _resolve_selected_accounts Examples.linked_env
    (VList [VStr "chase"; VInt 3; VStr " PNC Checking "; VStr "pnc"])
  = Ret [("pnc", "access-pnc")]
  /\ [("pnc", "access-pnc")] <> []
  /\ NoDup (map fst [("pnc", "access-pnc")])
  /\ (forall account, In account [("pnc", "access-pnc")] ->
      linked Examples.linked_env account).
Proof.
  split; [vm_compute; reflexivity |].
  apply (selected_accounts_are_linked Examples.linked_env
           (VList [VStr "chase"; VInt 3; VStr " PNC Checking "; VStr "pnc"])).
  vm_compute. reflexivity.
Defined.

(** The name [all], in any case and with white space around it, selects
    every linked account, in the order of [FRIENDLY_TO_ENV]: alone, or at any
    place of a list, whatever else the list names. *)
Theorem all_selects_every_linked_account (E : Env) (s : string)
                                         (pre post : list pyval) :
  PyStr.lower (PyStr.strip s) = "all" ->
  available E <> [] ->
  _resolve_selected_accounts E (VStr s) = Ret (available E)
  /\ _resolve_selected_accounts E (VList (pre ++ VStr s :: post))
     = Ret (available E).
Proof.
  intros Hs Hne. unfold _resolve_selected_accounts.
  rewrite (normalize_all _ Hs), (resolve_names_all E pre post s Hs).
  cbn [String.eqb Ascii.eqb Bool.eqb bind].
  destruct (available E) as [| a l]; [exfalso; exact (Hne eq_refl) |].
  split; reflexivity.
Qed.

Lemma all_selects_every_linked_account_witness :
  _resolve_selected_accounts Examples.linked_env (VStr " All ")
  = Ret (available Examples.linked_env)
  /\ _resolve_selected_accounts Examples.linked_env
       (VList ([VStr "ally"; VStr "pnc"] ++ VStr " All " :: [VStr "discover"]))
     = Ret (available Examples.linked_env).
Proof.
  apply (all_selects_every_linked_account Examples.linked_env " All "
           [VStr "ally"; VStr "pnc"] [VStr "discover"]).
  - vm_compute. reflexivity.
  - vm_compute. discriminate.
Defined.

End AccountSelection.

(** ** Fetching transactions page by page *)

Module FetchTheorems.
Import PlaidFetch.

Lemma firstn_next {A : Type} (a b : nat) (l : list A) :
  (firstn a l ++ firstn b (skipn a l))%list = firstn (a + b) l.
Proof.
  revert l. induction a as [| a IH]; intros l; [reflexivity |].
  destruct l as [| x l]; simpl.
  - destruct b; reflexivity.
  - f_equal. apply IH.
Qed.

Section WithService.
Variable transactions_get : nat -> nat -> outcome (list (string * pyval)).

(** A service that holds the transactions [all] and the account list
    [accounts]: to a request from [offset] on it answers with the next
    [count] transactions at most, and reports [total] as their number. *)
Definition serves (all : list pyval) (accounts : pyval) (total : Z) : Prop :=
  forall offset,
    exists data,
      transactions_get count offset = Ret data
      /\ PyVal.lookup "accounts" data = Some accounts
      /\ PyVal.lookup "transactions" data
         = Some (VList (firstn count (skipn offset all)))
      /\ PyVal.lookup "total_transactions" data = Some (VInt total).

Lemma cache_filled (cache accounts : pyval) (data : list (string * pyval)) :
  cache = VNone \/ cache = accounts ->
  PyVal.lookup "accounts" data = Some accounts ->
  match cache with
  | VNone => dict_get data "accounts" (VList [])
  | _ => cache
  end = accounts.
Proof.
  intros [-> | ->] Hacc; unfold dict_get; rewrite ?Hacc; [reflexivity |].
  destruct accounts; reflexivity.
Qed.

Lemma fetch_loop_complete (all : list pyval) (accounts : pyval) :
  serves all accounts (Z.of_nat (List.length all)) ->
  forall (requests offset : nat) (cache : pyval),
    cache = VNone \/ cache = accounts ->
    (offset <= List.length all)%nat ->
    (List.length all < offset + count * requests)%nat ->
    fetch_loop transactions_get requests (firstn offset all) cache offset
    = Some (Ret (VDict [("accounts", PyVal.por accounts (VList []));
                        ("transactions", VList all)])).
Proof.
  intros Hserve. induction requests as [| requests IH];
    intros offset cache Hcache Hle Hlt; [unfold count in Hlt; lia |].
  cbn [fetch_loop].
  destruct (Hserve offset) as [data [Hget [Hacc [Htx Htot]]]].
  rewrite Hget, (cache_filled cache accounts data Hcache Hacc).
  unfold dict_get. rewrite Htx. cbn [Main.iterate].
  rewrite Htot, firstn_next. cbn [int_ge].
  destruct (Z.leb_spec (Z.of_nat (List.length all))
                       (Z.of_nat (List.length (firstn (offset + count) all))))
    as [Hdone | Hmore].
  - rewrite firstn_all2; [reflexivity |].
    rewrite length_firstn in Hdone. lia.
  - rewrite length_firstn in Hmore.
    rewrite length_firstn, Nat.min_l by lia.
    apply IH; [right; reflexivity | lia | unfold count in *; lia].
Qed.

Lemma fetch_loop_runs_on (all : list pyval) (accounts : pyval) (total : Z) :
  serves all accounts total ->
  Z.of_nat (List.length all) < total ->
  forall (requests offset : nat) (cache : pyval),
    fetch_loop transactions_get requests (firstn offset all) cache offset = None.
Proof.
  intros Hserve Hshort. induction requests as [| requests IH];
    intros offset cache; [reflexivity |].
  cbn [fetch_loop].
  destruct (Hserve offset) as [data [Hget [Hacc [Htx Htot]]]].
  rewrite Hget. unfold dict_get. rewrite Hacc, Htx. cbn [Main.iterate].
  rewrite Htot, firstn_next. cbn [int_ge].
  assert (Hlen : (List.length (firstn (offset + count) all)
                  <= List.length all)%nat)
    by (rewrite length_firstn; lia).
  destruct (Z.leb_spec total
              (Z.of_nat (List.length (firstn (offset + count) all))))
    as [Hdone | Hmore]; [lia |].
  destruct (Nat.le_gt_cases (List.length all) (offset + count)) as [Hall | Hpart].
  - rewrite firstn_all2 by exact Hall.
    rewrite <- (firstn_all all) at 1. apply IH.
  - rewrite length_firstn, Nat.min_l by lia. apply IH.
Qed.

End WithService.

(** When the service reports the true number of transactions and hands them
    out page by page, [_fetch_transactions] returns every transaction once,
    in the order of the service, with the accounts of the first answer; any
    number of requests above a hundredth of their number is enough. *)
Theorem every_transaction_is_fetched_once
    (transactions_get : nat -> nat -> outcome (list (string * pyval)))
    (all : list pyval) (accounts : pyval) (requests : nat) :
  serves transactions_get all accounts (Z.of_nat (List.length all)) ->
  (List.length all < count * requests)%nat ->
  _fetch_transactions transactions_get requests
  = Some (Ret (VDict [("accounts", PyVal.por accounts (VList []));
                      ("transactions", VList all)])).
Proof.
  intros Hserve Hreq. unfold _fetch_transactions.
  exact (fetch_loop_complete transactions_get all accounts Hserve requests 0%nat
           VNone (or_introl eq_refl) (Nat.le_0_l _) Hreq).
Qed.

(** A service over a fixed list, as [serves] describes it. *)
Definition paged (all : list pyval) (accounts : pyval) (total : Z)
  : nat -> nat -> outcome (list (string * pyval)) :=
  fun count offset =>
    Ret [("accounts", accounts);
         ("transactions", VList (firstn count (skipn offset all)));
         ("total_transactions", VInt total)].

Lemma paged_serves (all : list pyval) (accounts : pyval) (total : Z) :
  serves (paged all accounts total) all accounts total.
Proof.
  intros offset. eexists. split; [reflexivity |].
  split; [reflexivity |]. split; reflexivity.
Qed.

Definition numbered (n : nat) : list pyval :=
  map (fun i => VInt (Z.of_nat i)) (seq 0 n).

Lemma every_transaction_is_fetched_once_witness :
  _fetch_transactions
    (paged (numbered 250) (VList [VStr "checking"])
           (Z.of_nat (List.length (numbered 250)))) 3
  = Some (Ret (VDict [("accounts",
                       PyVal.por (VList [VStr "checking"]) (VList []));
                      ("transactions", VList (numbered 250))])).
Proof.
  apply (every_transaction_is_fetched_once _ (numbered 250)
           (VList [VStr "checking"]) 3).
  - apply paged_serves.
  - vm_compute. lia.
Defined.

(** When the service reports more transactions than it hands out, the loop
    of [_fetch_transactions] never ends: however many requests it is
    allowed, it is still asking (for the same empty page, once it has all
    there is). *)
Theorem overstated_total_never_returns
    (transactions_get : nat -> nat -> outcome (list (string * pyval)))
    (all : list pyval) (accounts : pyval) (total : Z) (requests : nat) :
  serves transactions_get all accounts total ->
  Z.of_nat (List.length all) < total ->
  _fetch_transactions transactions_get requests = None.
Proof.
  intros Hserve Hshort. unfold _fetch_transactions.
  exact (fetch_loop_runs_on transactions_get all accounts total Hserve Hshort
           requests 0%nat VNone).
Qed.

Lemma overstated_total_never_returns_witness :
  _fetch_transactions (paged (numbered 3) (VList []) 4) 1000 = None.
Proof.
  apply (overstated_total_never_returns _ (numbered 3) (VList []) 4 1000).
  - apply paged_serves.
  - vm_compute. reflexivity.
Defined.

End FetchTheorems.

(** ** The receive loop *)

Module ReceiverTheorems.
Import Main Receiver.

(** The audio frames among the messages, in order. *)
Definition frames (messages : list message) : list (list Byte.byte) :=
  flat_map (fun m => match m with Binary data => [data] | Text _ => [] end)
           messages.

Lemma frames_app (pre post : list message) :
  frames (pre ++ post) = (frames pre ++ frames post)%list.
Proof. apply flat_map_app. Qed.

Section WithSpeaker.
Variable W : World.
Variable write : list (list Byte.byte) -> list Byte.byte -> option exn.
Hypothesis Hbackend : ToolsReturn.catchable_backend (backend W).

Lemma text_returns (text : string) (ws : socket) :
  exists ws', handle_text W text ws = (Ret tt, ws').
Proof.
  pose proof (RelayTheorems.on_text_message_returns (platform W)
                (FunctionMapper.FUNCTION_MAP W) text ws
                (ToolsReturn.function_map_catchable W Hbackend)) as H.
  unfold handle_text.
  destruct (on_text_message (platform W) (FunctionMapper.FUNCTION_MAP W) text ws)
    as [r ws'].
  cbn [fst] in H. subst r. exists ws'. reflexivity.
Qed.

Lemma receiver_plays (messages : list message) :
  forall (ws : socket) (played : list (list Byte.byte)),
    (forall pre data post,
        messages = (pre ++ Binary data :: post)%list ->
        write (played ++ frames pre)%list data = None) ->
    fst (fst (audio_receiver W write messages ws played)) = Ret tt
    /\ snd (audio_receiver W write messages ws played)
       = (played ++ frames messages)%list.
Proof.
  induction messages as [| m rest IH]; intros ws played Hwrite;
    cbn [audio_receiver].
  - rewrite app_nil_r. split; reflexivity.
  - destruct m as [data | text].
    + pose proof (Hwrite [] data rest eq_refl) as Hw.
      cbn [frames flat_map] in Hw. rewrite app_nil_r in Hw. rewrite Hw.
      destruct (IH ws (played ++ [data])%list) as [Hr Hp].
      * intros pre d post ->. rewrite <- app_assoc.
        exact (Hwrite (Binary data :: pre) d post eq_refl).
      * split; [exact Hr |]. rewrite Hp, <- app_assoc. reflexivity.
    + destruct (text_returns text ws) as [ws' ->].
      destruct (IH ws' played) as [Hr Hp].
      * intros pre d post ->.
        exact (Hwrite (Text text :: pre) d post eq_refl).
      * split; [exact Hr | exact Hp].
Qed.

Lemma receiver_app (pre post : list message) :
  forall (ws : socket) (played : list (list Byte.byte)),
    fst (fst (audio_receiver W write pre ws played)) = Ret tt ->
    audio_receiver W write (pre ++ post) ws played
    = audio_receiver W write post
        (snd (fst (audio_receiver W write pre ws played)))
        (snd (audio_receiver W write pre ws played)).
Proof.
  induction pre as [| m pre IH]; intros ws played Hr; [reflexivity |].
  rewrite <- app_comm_cons. cbn [audio_receiver] in *.
  destruct m as [data | text].
  - destruct (write played data) as [e |]; [discriminate Hr |].
    apply IH. exact Hr.
  - destruct (handle_text W text ws) as [[u | e] ws']; [| discriminate Hr].
    apply IH. exact Hr.
Qed.

End WithSpeaker.

(** While the output stream accepts every frame, [audio_receiver] goes
    through all the messages and returns normally, and the stream has been
    given exactly the binary messages, each once and in the order received:
    no text message, whatever it holds, makes the loop lose or repeat audio.
    (The Plaid service is assumed to raise only exceptions that derive from
    [Exception].) *)
Theorem audio_is_played_in_order
    (W : World) (write : list (list Byte.byte) -> list Byte.byte -> option exn)
    (messages : list message) (ws : socket) (played : list (list Byte.byte)) :
  ToolsReturn.catchable_backend (backend W) ->
  (forall before data, write before data = None) ->
  fst (fst (audio_receiver W write messages ws played)) = Ret tt
  /\ snd (audio_receiver W write messages ws played)
     = (played ++ frames messages)%list.
Proof.
  intros HB Hwrite. apply (receiver_plays W write HB).
  intros pre data post _. apply Hwrite.
Qed.

Lemma audio_is_played_in_order_witness :
  fst (fst (audio_receiver Examples.example_world (fun _ _ => None)
              [Binary [Byte.x01]; Text "not json"; Binary [Byte.x02; Byte.x03]]
              Examples.open_socket []))
  = Ret tt
  /\ snd (audio_receiver Examples.example_world (fun _ _ => None)
            [Binary [Byte.x01]; Text "not json"; Binary [Byte.x02; Byte.x03]]
            Examples.open_socket [])
     = ([] ++ frames [Binary [Byte.x01]; Text "not json";
                      Binary [Byte.x02; Byte.x03]])%list.
Proof.
  apply (audio_is_played_in_order Examples.example_world (fun _ _ => None)).
  - exact RelayTheorems.example_backend_catchable.
  - intros before data. reflexivity.
Defined.

(** A failure of the output stream is not caught: the first frame the stream
    refuses ends [audio_receiver] with the stream's exception.  The frames
    before it have been played, and the messages after it, function call
    requests included, are not handled. *)
Theorem refused_frame_ends_the_receiver
    (W : World) (write : list (list Byte.byte) -> list Byte.byte -> option exn)
    (pre post : list message) (data : list Byte.byte) (e : exn)
    (ws : socket) (played : list (list Byte.byte)) :
  ToolsReturn.catchable_backend (backend W) ->
  (forall before frame after,
      pre = (before ++ Binary frame :: after)%list ->
      write (played ++ frames before)%list frame = None) ->
  write (played ++ frames pre)%list data = Some e ->
  audio_receiver W write (pre ++ Binary data :: post) ws played
  = (Raise e,
     snd (fst (audio_receiver W write pre ws played)),
     (played ++ frames pre)%list).
Proof.
  intros HB Hpre Hfail.
  destruct (receiver_plays W write HB pre ws played Hpre) as [Hr Hp].
  rewrite (receiver_app W write pre (Binary data :: post) ws played Hr).
  cbn [audio_receiver]. rewrite Hp, Hfail. reflexivity.
Qed.

Lemma refused_frame_ends_the_receiver_witness :
  audio_receiver Examples.example_world
    (fun before _ => match before with
                     | [] => None
                     | _ => Some (Exn OtherException "Stream closed")
                     end)
    ([Binary [Byte.x01]; Text "{}"] ++ Binary [Byte.x02] :: [Text "{}"])
    Examples.open_socket []
  = (Raise (Exn OtherException "Stream closed"),
     snd (fst (audio_receiver Examples.example_world
                 (fun before _ => match before with
                                  | [] => None
                                  | _ => Some (Exn OtherException "Stream closed")
                                  end)
                 [Binary [Byte.x01]; Text "{}"] Examples.open_socket [])),
     ([] ++ frames [Binary [Byte.x01]; Text "{}"])%list).
Proof.
  apply (refused_frame_ends_the_receiver Examples.example_world).
  - exact RelayTheorems.example_backend_catchable.
  - intros before frame after H.
    destruct before as [| m before]; [reflexivity |].
    destruct before as [| m' before]; [injection H as _ H; discriminate H |].
    destruct before; injection H as _ _ H; [discriminate H |].
    destruct before; discriminate H.
  - reflexivity.
Defined.

End ReceiverTheorems.

(** ** The configuration sent to the agent *)

Module ConfigTheorems.
Import Config.

(** [v[k1]...[kn]] *)
Fixpoint path_get (v : pyval) (path : list string) : outcome pyval :=
  match path with
  | [] => Ret v
  | k :: rest => inner <- getitem v k ;; path_get inner rest
  end.

(** Two paths that part at some key: neither leads to the other. *)
Inductive parts : list string -> list string -> Prop :=
  | parts_here (a b : string) (p q : list string) :
      a <> b -> parts (a :: p) (b :: q)
  | parts_later (a : string) (p q : list string) :
      parts p q -> parts (a :: p) (a :: q).

Lemma lookup_store_same (k : string) (x : pyval) (d : list (string * pyval)) :
  PyVal.lookup k (PyVal.store k x d) = Some x.
Proof.
  induction d as [| [k' w] d IH]; simpl.
  - rewrite String.eqb_refl. reflexivity.
  - destruct (String.eqb k' k) eqn:Hk; simpl; rewrite Hk; [reflexivity | exact IH].
Qed.

Lemma lookup_store_other (k k' : string) (x : pyval) (d : list (string * pyval)) :
  k' <> k -> PyVal.lookup k' (PyVal.store k x d) = PyVal.lookup k' d.
Proof.
  intros Hne. induction d as [| [k0 w] d IH]; simpl.
  - destruct (String.eqb k k') eqn:Hk; [| reflexivity].
    apply String.eqb_eq in Hk. congruence.
  - destruct (String.eqb k0 k) eqn:Hk; simpl.
    + apply String.eqb_eq in Hk. subst k0.
      destruct (String.eqb k k') eqn:Hk'; [| reflexivity].
      apply String.eqb_eq in Hk'. congruence.
    + rewrite IH. reflexivity.
Qed.

Lemma getitem_setitem_same (v v' : pyval) (k : string) (x : pyval) :
  setitem v k x = Ret v' -> getitem v' k = Ret x.
Proof.
  destruct v; try discriminate. intros [= <-]. simpl.
  rewrite lookup_store_same. reflexivity.
Qed.

Lemma getitem_setitem_other (v v' : pyval) (k k' : string) (x : pyval) :
  k' <> k -> setitem v k x = Ret v' -> getitem v' k' = getitem v k'.
Proof.
  intros Hne. destruct v; try discriminate. intros [= <-]. simpl.
  rewrite (lookup_store_other _ _ _ _ Hne). reflexivity.
Qed.

Lemma assign_then_get (path : list string) (key : string) (x : pyval) :
  forall v v', assign v path key x = Ret v' ->
               path_get v' (path ++ [key]) = Ret x.
Proof.
  induction path as [| k rest IH]; intros v v' H; simpl in *.
  - rewrite (getitem_setitem_same _ _ _ _ H). reflexivity.
  - destruct (getitem v k) as [inner |]; [| discriminate H]. simpl in H.
    destruct (assign inner rest key x) as [inner' |] eqn:Ha; [| discriminate H].
    simpl in H. rewrite (getitem_setitem_same _ _ _ _ H). simpl.
    exact (IH _ _ Ha).
Qed.

Lemma assign_frame (path : list string) (key : string) (x : pyval) :
  forall v v' q, assign v path key x = Ret v' ->
                 parts q (path ++ [key]) ->
                 path_get v' q = path_get v q.
Proof.
  induction path as [| k rest IH]; intros v v' q H Hparts; simpl in *.
  - inversion Hparts as [a b p q' Hne | a p q' Hrest]; subst.
    + simpl. rewrite (getitem_setitem_other _ _ _ _ _ Hne H). reflexivity.
    + inversion Hrest.
  - destruct (getitem v k) as [inner |] eqn:Hg; [| discriminate H]. simpl in H.
    destruct (assign inner rest key x) as [inner' |] eqn:Ha; [| discriminate H].
    simpl in H.
    inversion Hparts as [a b p q' Hne | a p q' Hrest]; subst; simpl.
    + rewrite (getitem_setitem_other _ _ _ _ _ Hne H). reflexivity.
    + rewrite (getitem_setitem_same _ _ _ _ H), Hg. simpl.
      exact (IH _ _ _ Ha Hrest).
Qed.

Lemma load_config_steps (F : Files) (config : pyval) :
  load_config F = Ret config ->
  exists text config0 prompt config1 welcome,
    config_json F = Ret text
    /\ Json.loads (VStr text) = Ret config0
    /\ system_prompt F = Ret prompt
    /\ assign config0 ["agent"; "think"] "prompt" (VStr (PyStr.strip prompt))
       = Ret config1
    /\ greeting F = Ret welcome
    /\ assign config1 ["agent"] "greeting" (VStr (PyStr.strip welcome))
       = Ret config.
Proof.
  unfold load_config. intros H.
  destruct (config_json F) as [text |] eqn:Ht; [| discriminate H].
  cbn [bind] in H.
  destruct (Json.loads (VStr text)) as [config0 |] eqn:Hl; [| discriminate H].
  cbn [bind] in H.
  destruct (system_prompt F) as [prompt |] eqn:Hp; [| discriminate H].
  cbn [bind] in H.
  destruct (assign config0 ["agent"; "think"] "prompt" (VStr (PyStr.strip prompt)))
    as [config1 |] eqn:H1; [| discriminate H].
  cbn [bind] in H.
  destruct (greeting F) as [welcome |] eqn:Hg; [| discriminate H].
  cbn [bind] in H.
  exists text, config0, prompt, config1, welcome.
  split; [reflexivity |]. split; [exact Hl |]. split; [reflexivity |].
  split; [exact H1 |]. split; [reflexivity | exact H].
Qed.

(** In the configuration [load_config] returns, [agent.think.prompt] is the
    text of the prompt file and [agent.greeting] the text of the greeting
    file, both without the white space around them, whatever the
    configuration file held there. *)
Theorem prompt_and_greeting_come_from_files (F : Files) (config : pyval)
                                            (prompt welcome : string) :
  load_config F = Ret config ->
  system_prompt F = Ret prompt ->
  greeting F = Ret welcome ->
  path_get config ["agent"; "think"; "prompt"] = Ret (VStr (PyStr.strip prompt))
  /\ path_get config ["agent"; "greeting"] = Ret (VStr (PyStr.strip welcome)).
Proof.
  intros H Hp Hg.
  destruct (load_config_steps F config H)
    as [text [config0 [p [config1 [w [_ [_ [Hp' [H1 [Hg' H2]]]]]]]]]].
  rewrite Hp in Hp'. injection Hp' as <-.
  rewrite Hg in Hg'. injection Hg' as <-.
  split.
  - rewrite (assign_frame ["agent"] "greeting" _ config1 config
               ["agent"; "think"; "prompt"] H2).
    + exact (assign_then_get ["agent"; "think"] "prompt" _ _ _ H1).
    + apply parts_later, parts_here. discriminate.
  - exact (assign_then_get ["agent"] "greeting" _ _ _ H2).
Qed.

Definition example_files : Files := {|
  config_json :=
    Ret (Examples.json_text
           "{'type': 'Settings', 'agent': {'think': {'prompt': 'old', 'model': 'm'}, 'language': 'en'}}");
  system_prompt := Ret ("  You are helpful." ++ Json.chr 10);
  greeting := Ret (" Hello! " ++ Json.chr 10)
|}.

Definition example_config : pyval :=
  VDict [("type", VStr "Settings");
         ("agent", VDict [("think", VDict [("prompt", VStr "You are helpful.");
                                           ("model", VStr "m")]);
                          ("language", VStr "en");
                          ("greeting", VStr "Hello!")])].

Lemma prompt_and_greeting_come_from_files_witness :
  path_get example_config ["agent"; "think"; "prompt"]
  = Ret (VStr (PyStr.strip ("  You are helpful." ++ Json.chr 10)))
  /\ path_get example_config ["agent"; "greeting"]
     = Ret (VStr (PyStr.strip (" Hello! " ++ Json.chr 10))).
Proof.
  apply (prompt_and_greeting_come_from_files example_files example_config);
    vm_compute; reflexivity.
Defined.

(** [load_config] changes nothing else: every entry of the configuration
    file that is not on the way to [agent.think.prompt] or to
    [agent.greeting] is found unchanged, and an entry the file does not have
    is still missing. *)
Theorem other_settings_are_kept (F : Files) (config config0 : pyval)
                                (text : string) (q : list string) :
  load_config F = Ret config ->
  config_json F = Ret text ->
  Json.loads (VStr text) = Ret config0 ->
  parts q ["agent"; "think"; "prompt"] ->
  parts q ["agent"; "greeting"] ->
  path_get config q = path_get config0 q.
Proof.
  intros H Ht Hl Hq1 Hq2.
  destruct (load_config_steps F config H)
    as [t [c0 [p [config1 [w [Ht' [Hl' [_ [H1 [_ H2]]]]]]]]]].
  rewrite Ht in Ht'. injection Ht' as <-.
  rewrite Hl in Hl'. injection Hl' as <-.
  rewrite (assign_frame ["agent"] "greeting" _ config1 config q H2 Hq2).
  exact (assign_frame ["agent"; "think"] "prompt" _ config0 config1 q H1 Hq1).
Qed.

Lemma other_settings_are_kept_witness :
  path_get example_config ["agent"; "think"; "model"]
  = path_get
      (VDict [("type", VStr "Settings");
              ("agent", VDict [("think", VDict [("prompt", VStr "old");
                                                ("model", VStr "m")]);
                               ("language", VStr "en")])])
      ["agent"; "think"; "model"].
Proof.
  apply (other_settings_are_kept example_files example_config _
           (Examples.json_text
              "{'type': 'Settings', 'agent': {'think': {'prompt': 'old', 'model': 'm'}, 'language': 'en'}}")).
  - vm_compute. reflexivity.
  - reflexivity.
  - vm_compute. reflexivity.
  - apply parts_later, parts_later, parts_here. discriminate.
  - apply parts_later, parts_here. discriminate.
Defined.

End ConfigTheorems.

(** ** What [run_agent] does around the relay *)

Module AgentTheorems.
Import Teardown Agent.

(** The calls that release a stream raise only what [except Exception]
    catches. *)
Definition releases_caught (S : Stage) : Prop :=
  forall (c : call) (e : exn),
    c <> TerminateAudio ->
    fails S (Release c) = Some e -> is_Exception (exn_cls e) = true.

Lemma release_stream_caught (S : Stage) (opened : bool) (stop close : call) :
  releases_caught S ->
  stop <> TerminateAudio -> close <> TerminateAudio ->
  fst (release_stream S opened stop close) = None
  /\ (opened = true -> In (Release stop) (snd (release_stream S opened stop close)))
  /\ (forall ev, In ev (snd (release_stream S opened stop close)) ->
                 exists c, ev = Release c).
Proof.
  intros Hc Hstop Hclose. unfold release_stream, escaping.
  destruct opened; [| split; [reflexivity | split; [discriminate | intros ev []]]].
  destruct (fails S (Release stop)) as [e |] eqn:Hs.
  - rewrite (Hc stop e Hstop Hs). cbn [fst snd].
    split; [reflexivity |]. split; [intros _; left; reflexivity |].
    intros ev [<- | []]. exists stop. reflexivity.
  - destruct (fails S (Release close)) as [e |] eqn:Hcl;
      [rewrite (Hc close e Hclose Hcl) |]; cbn [fst snd];
      (split; [reflexivity |]; split; [intros _; left; reflexivity |];
       intros ev [<- | [<- | []]]; eexists; reflexivity).
Qed.

Lemma finally_calls_caught (S : Stage) (in_stream out_stream : bool) :
  releases_caught S ->
  fst (finally_calls S in_stream out_stream) = fails S (Release TerminateAudio)
  /\ (exists calls,
         snd (finally_calls S in_stream out_stream)
         = (calls ++ [Release TerminateAudio])%list
         /\ (in_stream = true -> In (Release StopInput) calls)
         /\ (out_stream = true -> In (Release StopOutput) calls)
         /\ (forall ev, In ev calls -> exists c, ev = Release c)).
Proof.
  intros Hc. unfold finally_calls.
  destruct (release_stream_caught S in_stream StopInput CloseInput Hc
              ltac:(discriminate) ltac:(discriminate)) as [H1 [Hin1 Hall1]].
  destruct (release_stream_caught S out_stream StopOutput CloseOutput Hc
              ltac:(discriminate) ltac:(discriminate)) as [H2 [Hin2 Hall2]].
  destruct (release_stream S in_stream StopInput CloseInput) as [r1 t1].
  destruct (release_stream S out_stream StopOutput CloseOutput) as [r2 t2].
  cbn [fst snd] in *. subst r1 r2. cbn [fst snd].
  split; [reflexivity |]. exists (t1 ++ t2)%list.
  split; [rewrite app_assoc; reflexivity |].
  split; [intros H; apply in_or_app; left; exact (Hin1 H) |].
  split; [intros H; apply in_or_app; right; exact (Hin2 H) |].
  intros ev Hev. apply in_app_or in Hev. destruct Hev as [Hev | Hev];
    [exact (Hall1 ev Hev) | exact (Hall2 ev Hev)].
Qed.

(** Without the key [DEEPGRAM_API_KEY] (not set, or empty) [run_agent]
    fails with [DEEPGRAM_API_KEY not found]; it has opened the two audio
    streams by then, and stops both before it ends, but it asks for no
    connection and sends nothing.  (The audio library starts, opens the
    streams and terminates without error, and releasing a stream raises
    only exceptions that derive from [Exception].) *)
Theorem missing_key_opens_no_connection (P : Platform) (S : Stage) :
  getenv S "DEEPGRAM_API_KEY" = None \/ getenv S "DEEPGRAM_API_KEY" = Some "" ->
  fails S StartAudio = None ->
  fails S OpenInput = None ->
  fails S OpenOutput = None ->
  fails S (Release TerminateAudio) = None ->
  releases_caught S ->
  fst (run_agent P S) = Raise (Exn OtherException "DEEPGRAM_API_KEY not found")
  /\ In (Release StopInput) (snd (run_agent P S))
  /\ In (Release StopOutput) (snd (run_agent P S))
  /\ (forall ev, In ev (snd (run_agent P S)) ->
                 ev = StartAudio \/ ev = OpenInput \/ ev = OpenOutput
                 \/ exists c, ev = Release c).
Proof.
  intros Hkey Hstart Hin Hout Hterm Hc.
  assert (Hconn : connected P S
                  = (Raise (Exn OtherException "DEEPGRAM_API_KEY not found"), [])).
  { unfold connected, sts_connect. destruct Hkey as [-> | ->]; reflexivity. }
  destruct (finally_calls_caught S true true Hc)
    as [Hres [calls [Hcalls [Hi [Ho Hall]]]]].
  unfold run_agent, try_block.
  rewrite Hstart, Hin, Hout, Hconn, Hres, Hterm, Hcalls. cbn [fst snd].
  split; [reflexivity |].
  split; [right; apply in_or_app; right; apply in_or_app; left;
          exact (Hi eq_refl) |].
  split; [right; apply in_or_app; right; apply in_or_app; left;
          exact (Ho eq_refl) |].
  intros ev [<- | Hev]; [left; reflexivity |].
  apply in_app_or in Hev. destruct Hev as [Hev | Hev].
  - destruct Hev as [<- | [<- | []]];
      [right; left | right; right; left]; reflexivity.
  - right. right. right. apply in_app_or in Hev. destruct Hev as [Hev | Hev].
    + exact (Hall ev Hev).
    + destruct Hev as [<- | []]. exists TerminateAudio. reflexivity.
Qed.

(** A stage without the key, on which closing the input stream fails. *)
Definition silent_stage : Stage := {|
  getenv := fun _ => None;
  files := ConfigTheorems.example_files;
  fails := fun ev =>
    match ev with
    | Release CloseInput => Some (Exn OtherException "Stream closed")
    | _ => None
    end
|}.

Lemma silent_stage_caught : releases_caught silent_stage.
Proof.
  intros c e _ H. destruct c; try discriminate H.
  injection H as <-. reflexivity.
Qed.

Lemma missing_key_opens_no_connection_witness :
  fst (run_agent Examples.example_platform silent_stage)
  = Raise (Exn OtherException "DEEPGRAM_API_KEY not found")
  /\ In (Release StopInput) (snd (run_agent Examples.example_platform silent_stage))
  /\ In (Release StopOutput) (snd (run_agent Examples.example_platform silent_stage))
  /\ (forall ev, In ev (snd (run_agent Examples.example_platform silent_stage)) ->
                 ev = StartAudio \/ ev = OpenInput \/ ev = OpenOutput
                 \/ exists c, ev = Release c).
Proof.
  apply (missing_key_opens_no_connection Examples.example_platform silent_stage);
    [left; reflexivity | reflexivity | reflexivity | reflexivity | reflexivity |].
  exact silent_stage_caught.
Defined.

(** Once the audio library has started, and as long as releasing a stream
    raises only exceptions that derive from [Exception], whatever fails
    afterwards, [run_agent] ends with [pa.terminate()], has tried to stop
    every stream it opened, and has closed the connection if one was made:
    no failure of the configuration, of the first message or of the relay
    leaves the connection or a stream behind. *)
Theorem nothing_is_left_open (P : Platform) (S : Stage) :
  fails S StartAudio = None ->
  releases_caught S ->
  last (snd (run_agent P S)) OpenInput = Release TerminateAudio
  /\ (fails S OpenInput = None -> In (Release StopInput) (snd (run_agent P S)))
  /\ (fails S OpenInput = None -> fails S OpenOutput = None ->
      In (Release StopOutput) (snd (run_agent P S)))
  /\ (forall url subprotocols,
         In (Connect url subprotocols) (snd (run_agent P S)) ->
         fails S (Connect url subprotocols) = None ->
         In Disconnect (snd (run_agent P S))).
Proof.
  intros Hstart Hc. unfold run_agent. rewrite Hstart.
  destruct (try_block P S) as [[[result events] in_stream] out_stream] eqn:Htry.
  destruct (finally_calls_caught S in_stream out_stream Hc)
    as [_ [calls [Hcalls [Hi [Ho Hall]]]]].
  rewrite Hcalls. cbn [fst snd].
  assert (Hnot : forall ev, In ev (calls ++ [Release TerminateAudio])%list ->
                            exists c, ev = Release c).
  { intros ev Hev. apply in_app_or in Hev. destruct Hev as [Hev | [<- | []]];
      [exact (Hall ev Hev) | eexists; reflexivity]. }
  split.
  { rewrite app_assoc, app_comm_cons. apply last_last. }
  unfold try_block in Htry.
  destruct (fails S OpenInput) as [e1 |] eqn:H1.
  - injection Htry as <- <- <- <-.
    split; [discriminate |]. split; [discriminate |].
    intros url sub [Hin | Hin] _; [discriminate Hin |].
    apply in_app_or in Hin. destruct Hin as [[Hin | []] | Hin];
      [discriminate Hin |].
    destruct (Hnot _ Hin) as [c Heq]. discriminate Heq.
  - destruct (fails S OpenOutput) as [e2 |] eqn:H2.
    + injection Htry as <- <- <- <-.
      split; [intros _; right; apply in_or_app; right; apply in_or_app; left;
              exact (Hi eq_refl) |].
      split; [discriminate |].
      intros url sub [Hin | Hin] _; [discriminate Hin |].
      apply in_app_or in Hin. destruct Hin as [[Hin | [Hin | []]] | Hin];
        try discriminate Hin.
      destruct (Hnot _ Hin) as [c Heq]. discriminate Heq.
    + injection Htry as <- <- <- <-.
      split; [intros _; right; apply in_or_app; right; apply in_or_app; left;
              exact (Hi eq_refl) |].
      split; [intros _ _; right; apply in_or_app; right; apply in_or_app; left;
              exact (Ho eq_refl) |].
      intros url sub [Hin | Hin] Hok; [discriminate Hin |].
      right. apply in_or_app. left. right. right.
      apply in_app_or in Hin. destruct Hin as [Hin | Hin].
      * destruct Hin as [Hin | [Hin | Hin]]; try discriminate Hin.
        unfold connected in *.
        destruct (sts_connect (getenv S)) as [[u s] | e]; [| destruct Hin].
        destruct (fails S (Connect u s)) as [e |] eqn:Hcn; cbn [snd] in *.
        -- destruct Hin as [Hin | []]. injection Hin as -> ->.
           rewrite Hok in Hcn. discriminate Hcn.
        -- right. apply in_or_app. right. left. reflexivity.
      * destruct (Hnot _ Hin) as [c Heq]. discriminate Heq.
Qed.

(** A stage with a key, on which the relay ends with an error and stopping
    the output stream fails. *)
Definition failing_relay : Stage := {|
  getenv := fun name =>
    if String.eqb name "DEEPGRAM_API_KEY" then Some "key" else None;
  files := ConfigTheorems.example_files;
  fails := fun ev =>
    match ev with
    | Relay => Some (Exn ConnectionClosed "no close frame received or sent")
    | Release StopOutput => Some (Exn OtherException "Stream closed")
    | _ => None
    end
|}.

Lemma failing_relay_caught : releases_caught failing_relay.
Proof.
  intros c e _ H. destruct c; try discriminate H.
  injection H as <-. reflexivity.
Qed.

Lemma nothing_is_left_open_witness :
  last (snd (run_agent Examples.example_platform failing_relay)) OpenInput
  = Release TerminateAudio
  /\ (fails failing_relay OpenInput = None ->
      In (Release StopInput) (snd (run_agent Examples.example_platform failing_relay)))
  /\ (fails failing_relay OpenInput = None ->
      fails failing_relay OpenOutput = None ->
      In (Release StopOutput)
         (snd (run_agent Examples.example_platform failing_relay)))
  /\ (forall url subprotocols,
         In (Connect url subprotocols)
            (snd (run_agent Examples.example_platform failing_relay)) ->
         fails failing_relay (Connect url subprotocols) = None ->
         In Disconnect (snd (run_agent Examples.example_platform failing_relay))).
Proof.
  apply (nothing_is_left_open Examples.example_platform failing_relay).
  - reflexivity.
  - exact failing_relay_caught.
Defined.

End AgentTheorems.

(** ** A calculation asked for through the dispatcher *)

Module CalculatorDispatch.
Import Main DispatchSpec JsonSpec.

(** The entry that asks for the value of the expression [s]. *)
Definition calculation (i s : string) : pyval :=
  entry i "calculate" (object_text [("expression", s)]).

Section WithWorld.
Variable W : World.

Lemma calculation_reply (i s : string) (L : locals) :
  entry_reply (platform W) (FunctionMapper.FUNCTION_MAP W) (calculation i s) L
  = (result <- Calculator.calculate (platform W) (VStr s) ;;
     response <- _create_function_call_response (platform W)
                   (VStr i) (VStr "calculate") result ;;
     Json.dumps (platform W) response,
     {| func_name := Some (VStr "calculate"); func_id := Some (VStr i) |}).
Proof.
  unfold calculation, entry.
  rewrite (DispatchFacts.entry_reply_fields (platform W)
             (FunctionMapper.FUNCTION_MAP W)
             [("id", VStr i); ("name", VStr "calculate");
              ("arguments", VStr (object_text [("expression", s)]))]
             i "calculate" L eq_refl eq_refl).
  rewrite (ArgumentsTheorems.parse_arguments_text
             [("id", VStr i); ("name", VStr "calculate");
              ("arguments", VStr (object_text [("expression", s)]))]
             (VStr (object_text [("expression", s)])) eq_refl).
  rewrite JsonFacts.loads_string_object;
    [| discriminate | repeat constructor; intros []].
  cbn [bind]. f_equal.
  destruct (CalculatorFacts.calculate_returns (platform W) (VStr s))
    as [k [x [Hc _]]].
  unfold entry_result. cbn [registry_find bind].
  change (registry_get "calculate" (FunctionMapper.FUNCTION_MAP W))
    with (Some (FunctionMapper.calculate W)).
  cbn iota. unfold invoke, Signature.call_keywords, smap. cbn [map fst snd].
  change (FunctionMapper.calculate W (Keywords [("expression", VStr s)]))
    with (Calculator.calculate (platform W) (VStr s)).
  rewrite Hc. reflexivity.
Qed.

Lemma decoded_calculation_reply (i arguments s : string) (L : locals) :
  Json.loads (VStr arguments) = Ret (VDict [("expression", VStr s)]) ->
  entry_reply (platform W) (FunctionMapper.FUNCTION_MAP W)
    (entry i "calculate" arguments) L
  = (result <- Calculator.calculate (platform W) (VStr s) ;;
     response <- _create_function_call_response (platform W)
                   (VStr i) (VStr "calculate") result ;;
     Json.dumps (platform W) response,
     {| func_name := Some (VStr "calculate"); func_id := Some (VStr i) |}).
Proof.
  intros Hloads. unfold entry.
  rewrite (DispatchFacts.entry_reply_fields (platform W)
             (FunctionMapper.FUNCTION_MAP W)
             [("id", VStr i); ("name", VStr "calculate");
              ("arguments", VStr arguments)]
             i "calculate" L eq_refl eq_refl).
  rewrite (ArgumentsTheorems.parse_arguments_text
             [("id", VStr i); ("name", VStr "calculate");
              ("arguments", VStr arguments)]
             (VStr arguments) eq_refl).
  rewrite Hloads. cbn [bind]. f_equal.
  destruct (CalculatorFacts.calculate_returns (platform W) (VStr s))
    as [k [x [Hc _]]].
  unfold entry_result. cbn [registry_find bind].
  change (registry_get "calculate" (FunctionMapper.FUNCTION_MAP W))
    with (Some (FunctionMapper.calculate W)).
  cbn iota. unfold invoke, Signature.call_keywords.
  change (FunctionMapper.calculate W (Keywords [("expression", VStr s)]))
    with (Calculator.calculate (platform W) (VStr s)).
  rewrite Hc. reflexivity.
Qed.

Lemma reply_of_content (i n content : string) (result : pyval) :
  Json.dumps (platform W) result = Ret content ->
  (response <- _create_function_call_response (platform W)
                 (VStr i) (VStr n) result ;;
   Json.dumps (platform W) response)
  = Ret (reply_text i n content).
Proof.
  intros H. unfold _create_function_call_response. rewrite H. cbn [bind].
  exact (JsonFacts.dumps_string_object (platform W)
           [("type", "FunctionCallResponse"); ("id", i); ("name", n);
            ("content", content)]).
Qed.

End WithWorld.

(** A request for [calculate] whose [arguments] text decodes to the object
    [{"expression": s}] is answered with the JSON text of what
    [calculate(s)] returns, under the entry's id: the decoded expression
    reaches the calculator as it is, and the dispatcher goes on to the next
    entry.  (The text is one that [Json.loads] reads as [json.loads] does: it
    may be spaced or compact, and escape its characters or not.) *)
Theorem calculation_is_answered
    (W : World) (pre post : list pyval) (i arguments s : string)
    (result : pyval) (content : string) (L L1 : locals) (ws ws1 : socket) :
  dispatch_loop (platform W) (FunctionMapper.FUNCTION_MAP W) pre L ws
  = (Ret tt, L1, ws1) ->
  closed ws1 = false ->
  JsonSpec.within_model arguments = true ->
  Json.loads (VStr arguments) = Ret (VDict [("expression", VStr s)]) ->
  Calculator.calculate (platform W) (VStr s) = Ret result ->
  Json.dumps (platform W) result = Ret content ->
  dispatch_loop (platform W) (FunctionMapper.FUNCTION_MAP W)
    (pre ++ entry i "calculate" arguments :: post) L ws
  = dispatch_loop (platform W) (FunctionMapper.FUNCTION_MAP W) post
      {| func_name := Some (VStr "calculate"); func_id := Some (VStr i) |}
      {| closed := false;
         sent := (sent ws1 ++ [reply_text i "calculate" content])%list |}.
Proof.
  intros Hpre Hopen _ Hloads Hcalc Hdumps.
  rewrite DispatchFacts.dispatch_loop_app, Hpre. cbn [dispatch_loop].
  rewrite (decoded_calculation_reply W i arguments s L1 Hloads), Hcalc.
  cbn [bind].
  rewrite (reply_of_content W i "calculate" content result Hdumps).
  rewrite (DispatchFacts.send_open ws1 _ Hopen). reflexivity.
Qed.

Lemma calculation_is_answered_witness :
  dispatch_loop (platform Examples.example_world)
    (FunctionMapper.FUNCTION_MAP Examples.example_world)
    ([] ++ entry "c1" "calculate"
             (Examples.json_text "{'expression':'2 ^ 10 - 24'}") :: [])
    no_locals Examples.open_socket
  = dispatch_loop (platform Examples.example_world)
      (FunctionMapper.FUNCTION_MAP Examples.example_world) []
      {| func_name := Some (VStr "calculate"); func_id := Some (VStr "c1") |}
      {| closed := false;
         sent := (sent Examples.open_socket
                  ++ [reply_text "c1" "calculate"
                        (Examples.json_text "{'result': 1000}")])%list |}.
Proof.
  apply (calculation_is_answered Examples.example_world [] []
           "c1" (Examples.json_text "{'expression':'2 ^ 10 - 24'}")
           "2 ^ 10 - 24"
           (VDict [("result", VInt 1000)])
           (Examples.json_text "{'result': 1000}") no_locals no_locals
           Examples.open_socket Examples.open_socket).
  - reflexivity.
  - reflexivity.
  - vm_compute. reflexivity.
  - vm_compute. reflexivity.
  - vm_compute. reflexivity.
  - vm_compute. reflexivity.
Defined.

(** When [calculate] returns a value that [json.dumps] refuses (a complex
    number, which a negative base under a fractional power gives), the
    request fails after the calculation: the dispatcher sends the one reply
    [Function call failed: <message of json.dumps>] under the entry's id,
    and the entries after it are not handled. *)
Theorem unserialisable_result_is_a_failure
    (W : World) (pre post : list pyval) (i s : string)
    (result : pyval) (e : exn) (L1 : locals) (ws ws1 : socket) :
  dispatch_loop (platform W) (FunctionMapper.FUNCTION_MAP W) pre no_locals ws
  = (Ret tt, L1, ws1) ->
  closed ws1 = false ->
  Calculator.calculate (platform W) (VStr s) = Ret result ->
  Json.dumps (platform W) result = Raise e ->
  _handle_function_call_request (platform W) (FunctionMapper.FUNCTION_MAP W)
    (request (pre ++ calculation i s :: post)) ws
  = (Ret tt,
     {| closed := false;
        sent := (sent ws1 ++
                 [reply_text i "calculate"
                    (error_text ("Function call failed: " ++ exn_msg e))])%list |}).
Proof.
  intros Hpre Hopen Hcalc Hdumps.
  unfold _handle_function_call_request, request.
  cbn [PyVal.get_default PyVal.lookup String.eqb Ascii.eqb Bool.eqb bind iterate].
  rewrite DispatchFacts.dispatch_loop_app, Hpre. cbn [dispatch_loop].
  rewrite calculation_reply, Hcalc. cbn [bind].
  unfold _create_function_call_response at 1. rewrite Hdumps. cbn [bind].
  rewrite (DispatchCatchable.dumps_catchable (platform W) result e Hdumps).
  unfold failure_reply. cbn [func_id func_name local_or_unknown].
  change (VDict [("error", VStr ("Function call failed: " ++ exn_msg e))])
    with (VDict (smap [("error", "Function call failed: " ++ exn_msg e)])).
  rewrite DispatchFacts.create_response_text,
          (DispatchFacts.send_open ws1 _ Hopen).
  reflexivity.
Qed.

(** A platform whose [pow] gives a complex number for a negative base. *)
Definition complex_power : Platform := {|
  float_pow := fun x _ =>
    match x with
    | S754_finite true _ _ =>
        PowComplex (S754_zero false) (S754_finite false 4503599627370496 (-52))
    | _ => PowOverflow
    end;
  complex_arith := fun _ _ _ => COverflow;
  complex_abs := fun _ _ => None;
  float_repr := fun _ => "nan"
|}.

Definition complex_world : World := {|
  platform := complex_power;
  env := Examples.bare_env;
  backend := Examples.no_backend
|}.

Lemma unserialisable_result_is_a_failure_witness :
  _handle_function_call_request (platform complex_world)
    (FunctionMapper.FUNCTION_MAP complex_world)
    (request ([] ++ calculation "c1" "(-1) ** 0.5" :: [calculation "c2" "1 + 1"]))
    Examples.open_socket
  = (Ret tt,
     {| closed := false;
        sent := (sent Examples.open_socket ++
                 [reply_text "c1" "calculate"
                    (error_text
                       ("Function call failed: " ++
                        exn_msg (Exn TypeError
                                   "Object of type complex is not JSON serializable")))])%list |}).
Proof.
  apply (unserialisable_result_is_a_failure complex_world [] _ "c1" "(-1) ** 0.5"
           (VDict [("result",
                    VComplex (S754_zero false)
                             (S754_finite false 4503599627370496 (-52)))])
           (Exn TypeError "Object of type complex is not JSON serializable")
           no_locals Examples.open_socket Examples.open_socket).
  - reflexivity.
  - reflexivity.
  - vm_compute. reflexivity.
  - vm_compute. reflexivity.
Defined.

End CalculatorDispatch.

(** ** The fallback and the tool with two required arguments *)

Module FinancialFallback.
Import Main DispatchSpec JsonSpec.

Lemma positional_call_fails (W : World) (expr : pyval) :
  exists msg,
    FunctionMapper.get_financial_info W (Positional expr)
    = Raise (Exn TypeError msg).
Proof. eexists. reflexivity. Qed.

Lemma invoke_fails (W : World) (args : pyval) (e : exn) :
  Signature.call_keywords (FunctionMapper.get_financial_info W) args = Raise e ->
  exn_cls e = TypeError ->
  exists e', invoke (FunctionMapper.get_financial_info W) args = Raise e'
             /\ is_Exception (exn_cls e') = true.
Proof.
  intros Hcall Hcls. unfold invoke. rewrite Hcall.
  unfold try_except_TypeError. rewrite Hcls. cbn [exn_class_eqb].
  destruct (fallback_argument args) as [expr | e'] eqn:Hf; cbn [bind].
  - destruct (positional_call_fails W expr) as [msg ->].
    eexists. split; reflexivity.
  - exists e'. split; [reflexivity |].
    exact (DispatchCatchable.fallback_argument_catchable args e' Hf).
Qed.

(** The retry with one positional argument cannot serve
    [get_financial_info], which requires two: when its call with the
    arguments as keywords raises a [TypeError] (a missing or an unexpected
    argument, arguments that are no object), the request always ends in the
    one reply [Function call failed: ...] under the entry's id, and the
    entries after it are not handled. *)
Theorem financial_fallback_always_fails
    (W : World) (pre post : list pyval) (items : list (string * pyval))
    (i : string) (args : pyval) (e : exn) (L1 : locals) (ws ws1 : socket) :
  dispatch_loop (platform W) (FunctionMapper.FUNCTION_MAP W) pre no_locals ws
  = (Ret tt, L1, ws1) ->
  closed ws1 = false ->
  PyVal.lookup "name" items = Some (VStr "get_financial_info") ->
  PyVal.lookup "id" items = Some (VStr i) ->
  parse_arguments (VDict items) = Ret args ->
  Signature.call_keywords (FunctionMapper.get_financial_info W) args = Raise e ->
  exn_cls e = TypeError ->
  exists msg,
    _handle_function_call_request (platform W) (FunctionMapper.FUNCTION_MAP W)
      (request (pre ++ VDict items :: post)) ws
    = (Ret tt,
       {| closed := false;
          sent := (sent ws1 ++
                   [reply_text i "get_financial_info"
                      (error_text ("Function call failed: " ++ msg))])%list |}).
Proof.
  intros Hpre Hopen Hn Hi Hargs Hcall Hcls.
  destruct (invoke_fails W args e Hcall Hcls) as [e' [Hinv Hexn]].
  exists (exn_msg e').
  unfold _handle_function_call_request, request.
  cbn [PyVal.get_default PyVal.lookup String.eqb Ascii.eqb Bool.eqb bind iterate].
  rewrite DispatchFacts.dispatch_loop_app, Hpre. cbn [dispatch_loop].
  rewrite (DispatchFacts.entry_reply_fields (platform W)
             (FunctionMapper.FUNCTION_MAP W) items i "get_financial_info" L1 Hn Hi).
  rewrite Hargs. cbn [bind].
  unfold entry_result. cbn [registry_find bind].
  change (registry_get "get_financial_info" (FunctionMapper.FUNCTION_MAP W))
    with (Some (FunctionMapper.get_financial_info W)).
  cbn iota. rewrite Hinv. cbn [bind]. rewrite Hexn.
  unfold failure_reply. cbn [func_id func_name local_or_unknown].
  change (VDict [("error", VStr ("Function call failed: " ++ exn_msg e'))])
    with (VDict (smap [("error", "Function call failed: " ++ exn_msg e')])).
  rewrite DispatchFacts.create_response_text,
          (DispatchFacts.send_open ws1 _ Hopen).
  reflexivity.
Qed.

Lemma financial_fallback_always_fails_witness :
  exists msg,
    _handle_function_call_request (platform Examples.example_world)
      (FunctionMapper.FUNCTION_MAP Examples.example_world)
      (request ([] ++ VDict [("id", VStr "f1");
                             ("name", VStr "get_financial_info");
                             ("arguments",
                              VStr (Examples.json_text "{'account_names': 'pnc'}"))]
                :: [entry "f2" "calculate" "{}"]))
      Examples.open_socket
    = (Ret tt,
       {| closed := false;
          sent := (sent Examples.open_socket ++
                   [reply_text "f1" "get_financial_info"
                      (error_text ("Function call failed: " ++ msg))])%list |}).
Proof.
  eapply (financial_fallback_always_fails Examples.example_world [] _
            [("id", VStr "f1"); ("name", VStr "get_financial_info");
             ("arguments", VStr (Examples.json_text "{'account_names': 'pnc'}"))]
            "f1" (VDict [("account_names", VStr "pnc")]) _
            no_locals Examples.open_socket Examples.open_socket).
  - reflexivity.
  - reflexivity.
  - reflexivity.
  - reflexivity.
  - vm_compute. reflexivity.
  - vm_compute. reflexivity.
  - reflexivity.
Defined.

End FinancialFallback.

(** ** The dates of a transactions request *)

Module DateTheorems.
Import PlaidDates.

(** The character of a digit. *)
Definition digit_char (n : Z) : ascii := ascii_of_nat (48 + Z.to_nat n).

(** [date.isoformat()]: [YYYY-MM-DD], padded with zeros. *)
Definition pad2 (n : Z) : string :=
  String (digit_char (n / 10)) (String (digit_char (n mod 10)) "").

Definition pad4 (n : Z) (rest : string) : string :=
  String (digit_char (n / 1000))
    (String (digit_char (n / 100 mod 10))
       (String (digit_char (n / 10 mod 10))
          (String (digit_char (n mod 10)) rest))).

Definition isoformat (d : date) : string :=
  pad4 (year d) ("-" ++ pad2 (month d) ++ "-" ++ pad2 (day d)).

Lemma digit_of_char (n : Z) : 0 <= n <= 9 -> digit (digit_char n) = Some n.
Proof.
  intros H. rewrite <- (Z2Nat.id n) by lia.
  assert (Hk : (Z.to_nat n < 10)%nat) by lia.
  generalize dependent (Z.to_nat n). clear H. intros k Hk.
  do 10 (destruct k as [| k]; [reflexivity |]). lia.
Qed.

Lemma match_Y_pad4 (y : Z) (rest : string) :
  0 <= y <= 9999 -> match_Y (pad4 y rest) = Some (y, rest).
Proof.
  intros H. unfold pad4, match_Y.
  assert (H1 : 0 <= y / 1000 < 10)
    by (split; [apply Z.div_pos; lia | apply Z.div_lt_upper_bound; lia]).
  pose proof (Z.mod_pos_bound (y / 100) 10 ltac:(lia)) as H2.
  pose proof (Z.mod_pos_bound (y / 10) 10 ltac:(lia)) as H3.
  pose proof (Z.mod_pos_bound y 10 ltac:(lia)) as H4.
  rewrite !digit_of_char by lia.
  f_equal. f_equal.
  pose proof (Z.div_mod y 10 ltac:(lia)) as E1.
  pose proof (Z.div_mod (y / 10) 10 ltac:(lia)) as E2.
  pose proof (Z.div_mod (y / 100) 10 ltac:(lia)) as E3.
  rewrite (Z.div_div y 10 10) in E2 by lia.
  rewrite (Z.div_div y 100 10) in E3 by lia.
  change (10 * 10) with 100 in E2. change (100 * 10) with 1000 in E3.
  lia.
Qed.

(** Month and day, as [isoformat] writes them, are read back. *)
Definition read_back (m d : Z) : bool :=
  match match_md ("-" ++ pad2 m ++ "-" ++ pad2 d) with
  | (m', d', EmptyString) :: _ => (m' =? m) && (d' =? d)
  | _ => false
  end.

Definition upto (n : nat) : list Z := map Z.of_nat (seq 1 n).

Lemma in_upto (n : nat) (z : Z) : 1 <= z <= Z.of_nat n -> In z (upto n).
Proof.
  intros H. unfold upto. rewrite <- (Z2Nat.id z) by lia.
  apply in_map, in_seq. lia.
Qed.

Lemma months_and_days_read_back :
  forallb (fun m => forallb (read_back m) (upto 31)) (upto 12) = true.
Proof. vm_compute. reflexivity. Qed.

Lemma match_md_iso (m d : Z) :
  1 <= m <= 12 -> 1 <= d <= 31 ->
  exists more, match_md ("-" ++ pad2 m ++ "-" ++ pad2 d) = (m, d, "") :: more.
Proof.
  intros Hm Hd.
  pose proof months_and_days_read_back as H.
  rewrite forallb_forall in H. specialize (H m (in_upto 12 m ltac:(lia))).
  rewrite forallb_forall in H. specialize (H d (in_upto 31 d ltac:(lia))).
  unfold read_back in H.
  destruct (match_md ("-" ++ pad2 m ++ "-" ++ pad2 d)) as [| [[m' d'] r] more];
    [discriminate H |].
  destruct r; [| discriminate H].
  apply andb_true_iff in H. destruct H as [Hm' Hd'].
  apply Z.eqb_eq in Hm', Hd'. subst. exists more. reflexivity.
Qed.

Lemma valid_date_bounds (y m d : Z) :
  valid_date y m d = true ->
  1 <= y <= 9999 /\ 1 <= m <= 12 /\ 1 <= d <= 31.
Proof.
  unfold valid_date, days_in_month. intros H.
  repeat (apply andb_true_iff in H; destruct H as [H ?]).
  repeat match goal with
         | K : (_ <=? _) = true |- _ => apply Z.leb_le in K
         end.
  repeat split; try lia.
  destruct (m =? 2); [destruct (is_leap y); lia |].
  destruct ((m =? 4) || (m =? 6) || (m =? 9) || (m =? 11)); lia.
Qed.

(** A day of the calendar written as [YYYY-MM-DD], the way
    [date.isoformat()] writes it, is read back by [_parse_date] as that
    day. *)
Theorem iso_dates_are_read_back (d : date) :
  valid_date (year d) (month d) (day d) = true ->
  _parse_date (VStr (isoformat d)) = Ret (Some d).
Proof.
  intros Hvalid.
  destruct (valid_date_bounds _ _ _ Hvalid) as [Hy [Hm Hd]].
  unfold _parse_date, isoformat. cbn [PyVal.truthy pad4 String.eqb negb].
  unfold strptime.
  change (String (digit_char (year d / 1000))
            (String (digit_char (year d / 100 mod 10))
               (String (digit_char (year d / 10 mod 10))
                  (String (digit_char (year d mod 10))
                     ("-" ++ pad2 (month d) ++ "-" ++ pad2 (day d))))))
    with (pad4 (year d) ("-" ++ pad2 (month d) ++ "-" ++ pad2 (day d))).
  rewrite match_Y_pad4 by lia.
  destruct (match_md_iso (month d) (day d) Hm Hd) as [more ->].
  rewrite Hvalid. destruct d; reflexivity.
Qed.

Lemma iso_dates_are_read_back_witness :
  _parse_date (VStr (isoformat {| year := 2024; month := 2; day := 29 |}))
  = Ret (Some {| year := 2024; month := 2; day := 29 |}).
Proof.
  apply (iso_dates_are_read_back {| year := 2024; month := 2; day := 29 |}).
  vm_compute. reflexivity.
Defined.

(** What [_parse_date] can answer: nothing for a value that is false in
    Python's sense ([None], the empty text); a day that exists in the
    calendar, and then only for a text; otherwise the one error [Dates must
    be in YYYY-MM-DD format], whatever went wrong (a value that is no text, a
    text of another shape, a day such as the 30th of February). *)
Theorem parsed_dates_exist (v : pyval) :
  (_parse_date v = Ret None <-> PyVal.truthy v = false)
  /\ (forall d, _parse_date v = Ret (Some d) ->
                valid_date (year d) (month d) (day d) = true
                /\ exists s, v = VStr s)
  /\ (forall e, _parse_date v = Raise e ->
                e = Exn ValueError "Dates must be in YYYY-MM-DD format").
Proof.
  unfold _parse_date. destruct (PyVal.truthy v) eqn:Ht; cbn [negb].
  - split; [split; intros H; [| discriminate H] |].
    + destruct v; try discriminate H.
      destruct (strptime s); discriminate H.
    + split.
      * intros d H. destruct v; try discriminate H.
        unfold strptime in H.
        destruct (match_Y s) as [[y rest] |]; [| discriminate H].
        destruct (match_md rest) as [| [[m d'] r] more]; [discriminate H |].
        destruct r; [| discriminate H].
        destruct (valid_date y m d') eqn:Hv; [| discriminate H].
        injection H as <-. split; [exact Hv | exists s; reflexivity].
      * intros e H. destruct v; try (injection H as <-; reflexivity).
        destruct (strptime s); [discriminate H | injection H as <-; reflexivity].
  - split; [split; reflexivity |].
    split; [intros d H; discriminate H | intros e H; discriminate H].
Qed.

End DateTheorems.
